(** * Scrub-In staff scheduler: generator, conflict detector and advisor

    A shallow embedding of the two scheduling libraries of the client,
    [client/src/lib/scheduling-algorithm.ts] (the text that follows the
    date helpers in [format-date.ts]) and
    [client/src/lib/enhanced-scheduling-algorithm.ts].  The variants share
    most of their text; the shared parts are written once and take the
    variant as a parameter, the parts that differ are written per variant.

    Conventions of the embedding.
    - A calendar date is a "YYYY-MM-DD" string in the source; it is
      represented by its day number (days since 1970-01-01), so that string
      equality of dates is equality of day numbers.  The source turns a
      date string into a [Date] (the instant of UTC midnight), moves it
      with [setDate] and [getDate] (which work on the local time of the
      process) and prints it with [toISOString] (which prints UTC); the
      time zone of the process is a parameter of the embedding.
    - JavaScript numbers that hold identifiers and counters are [Z].
    - [Array.prototype.sort] with a comparator is the stable sort: for the
      comparators of this program (chains of numeric keys) every stable
      sorting algorithm returns the same array.
    - [schedules.push(x)] and [conflicts.push(x)] append at the end. *)

From Stdlib Require Import ZArith QArith Qround Ascii.
From stdpp Require Import base tactics option list sorting gmap strings.

Local Open Scope Z_scope.

(** ** Data model (shared/schema.ts) *)

(** An identifier slot of a JavaScript object: absent, [null] or a number. *)
Inductive NullableId := Undefined | Null | Id (z : Z).

#[global] Instance NullableId_eq_dec : EqDecision NullableId.
Proof. solve_decision. Defined.

(** [x || null] and the truthiness of a number slot. *)
Definition truthyId (x : NullableId) : bool :=
  match x with
  | Id z => bool_decide (z ≠ 0)
  | _ => false
  end.

Definition ofOption (o : option Z) : NullableId :=
  match o with
  | Some z => Id z
  | None => Undefined
  end.

(** [x || null] for [x : number | undefined]. *)
Definition orNull (o : option Z) : option Z :=
  match o with
  | Some z => if decide (z = 0) then None else Some z
  | None => None
  end.

Module Staff.
Record t := mk {
  id : Z;
  specialization : option string;
  firstName : string;
  lastName : string
}.
End Staff.

Module ShiftType.
Record t := mk {
  id : Z;
  name : string;
  startTime : string;
  endTime : string;
  duration : Z
}.
End ShiftType.

Module DutyType.
Record t := mk {
  id : Z;
  name : string
}.
End DutyType.

Module Availability.
Record t := mk {
  staffId : Z;
  date : Z;
  isAvailable : bool
}.
End Availability.

(** [Schedule] and [InsertSchedule]: the latter has no [id]. *)
Module Schedule.
Record t := mk {
  id : option Z;
  staffId : Z;
  date : Z;
  shiftTypeId : NullableId;
  dutyTypeId : Z;
  unit : option string
}.
End Schedule.

Inductive ConflictType :=
  | CONSECUTIVE_SHIFTS
  | EXCEEDS_WEEKLY_HOURS
  | REST_PERIOD_VIOLATION
  | UNAVAILABLE_STAFF
  | EXISTING_ASSIGNMENT
  | SPECIALIZATION_MISMATCH.

Inductive Severity := Warning | Error.

#[global] Instance ConflictType_eq_dec : EqDecision ConflictType.
Proof. solve_decision. Defined.

#[global] Instance Severity_eq_dec : EqDecision Severity.
Proof. solve_decision. Defined.

(** The message templates of the two libraries, with their holes. *)
Inductive Message :=
  | MsgAlreadyHasAssignmentOn (date : Z)
  | MsgAlreadyAssignedOnThisDate
  | MsgExceedsConsecutive (max : Z)
  | MsgConsecutiveExceedsMaximum (n max : Z)
  | MsgExceedsWeekly (max : Z)
  | MsgRestDayNight
  | MsgRestNightDay
  | MsgUnavailable
  | MsgSpecialization (spec unit : string).

(** [ScheduleConflict] *)
Module Conflict.
Record t := mk {
  type : ConflictType;
  staffId : Z;
  date : Z;
  message : Message;
  severity : Severity;
  staffName : string
}.
End Conflict.

(** [ScheduleInput]; [unit] defaults to the empty string and
    [existingSchedules] to the empty array. *)
Module ScheduleInput.
Record t := mk {
  staff : list Staff.t;
  shiftTypes : list ShiftType.t;
  dutyTypes : list DutyType.t;
  availabilities : list Availability.t;
  startDate : Z;
  endDate : Z;
  unit : string;
  existingSchedules : list Schedule.t
}.
End ScheduleInput.

Record StaffLoad := mkLoad {
  consecutiveShifts : Z;
  totalShifts : Z;
  nightShifts : Z;
  lastShiftDate : option Z;
  lastShiftType : option Z;
  restDays : Z;
  specialization : option string
}.

Record DutyPattern := mkPattern {
  preDuty : Z;
  duty : Z;
  postDuty : Z;
  dayShift : Z;
  eveningShift : Z;
  nightShift : Z
}.

(** The two libraries. *)
Inductive Variant := Basic | Enhanced.

Definition MAX_CONSECUTIVE_SHIFTS : Z := 5.
Definition MAX_SHIFTS_PER_WEEK : Z := 5.
Definition MIN_REST_HOURS : Z := 12.

(** ** Dates and the time zone of the process

    Instants and local times are counted in minutes, from 1970-01-01T00:00
    UTC and from 1970-01-01T00:00 local time. *)

(** The time zone of the process.  [offsetAt t] is what is added to the
    instant [t] to get the local time ([LocalTZA(t, true)]);
    [offsetOfLocal l] is the offset by which the engine reads the local
    time [l] back ([LocalTZA(l, false)]: at a change of offset, a local
    time that is skipped or repeated is read with the offset before the
    change).  Adding a day to the local time moves the instant forward. *)
Class Zone := mkZone {
  offsetAt : Z → Z;
  offsetOfLocal : Z → Z;
  zone_advances :
    ∀ t, t < t + offsetAt t + 1440 - offsetOfLocal (t + offsetAt t + 1440)
}.

(** A zone whose offset never changes. *)
Definition steady {zone : Zone} (c : Z) : Prop :=
  ∀ t, offsetAt t = c ∧ offsetOfLocal t = c.

Section InZone.
Context {zone : Zone}.

(** [new Date(s)] for the date string of day [d]: UTC midnight. *)
Definition instantOf (d : Z) : Z := 1440 * d.

(** [new Date(year, month - 1, day)]: local midnight. *)
Definition localMidnight (d : Z) : Z := 1440 * d - offsetOfLocal (1440 * d).

(** [t.toISOString().split('T')[0]] *)
Definition isoDate (t : Z) : Z := t / 1440.

(** [t.setDate(t.getDate() + k)]: the same local time of day, [k] local
    days on. *)
Definition addDays (t k : Z) : Z :=
  let l := t + offsetAt t + 1440 * k in l - offsetOfLocal l.

(** [t.getDay()]: the local day of the week, 0 for Sunday; 1970-01-01 was
    a Thursday. *)
Definition getDay (t : Z) : Z := ((t + offsetAt t) / 1440 + 4) mod 7.

(** [const date = new Date(dateString); date.setDate(date.getDate() - 1);
    return date.toISOString().split('T')[0]] *)
Definition getPreviousDay (d : Z) : Z := isoDate (addDays (instantOf d) (-1)).

(** The same with [+ 1], as the source writes it in line. *)
Definition getNextDay (d : Z) : Z := isoDate (addDays (instantOf d) 1).

(** [firstDayOfWeek.setDate(date.getDate() - date.getDay())] *)
Definition getWeekKey (d : Z) : Z :=
  let date := instantOf d in isoDate (addDays date (- getDay date)).

(** [while (currentDate <= end) { dates.push(currentDate.toISOString()
    .split('T')[0]); currentDate.setDate(currentDate.getDate() + 1) }]:
    every turn moves [currentDate] forward by a minute at least, so the
    minutes from [start] to [end] bound the turns (see [datesFrom_enough]). *)
Fixpoint datesFrom (fuel : nat) (currentDate stop : Z) : list Z :=
  match fuel with
  | O => []
  | S fuel' =>
    if decide (currentDate ≤ stop)
    then isoDate currentDate :: datesFrom fuel' (addDays currentDate 1) stop
    else []
  end.

Definition dateRange (start stop : Z) : list Z :=
  datesFrom (Z.to_nat (instantOf stop - instantOf start + 1))
            (instantOf start) (instantOf stop).

(** ** Stable sort with a JavaScript comparator *)

Section Sort.
Context {A : Type} (cmp : A → A → Z).

Fixpoint insertBy (x : A) (l : list A) : list A :=
  match l with
  | [] => [x]
  | y :: l' => if decide (cmp x y ≤ 0) then x :: y :: l' else y :: insertBy x l'
  end.

Definition sortBy (l : list A) : list A := foldr insertBy [] l.
End Sort.

(** [Math.max(1, Math.ceil(n / k))] *)
Definition shiftTarget (n : nat) (k : positive) : Z :=
  Z.max 1 (Qceiling (Qmake (Z.of_nat n) k)).

(** ** Generator state *)

Record GenState := mkState {
  schedules : list Schedule.t;
  conflicts : list Conflict.t;
  staffLoads : gmap Z StaffLoad;
  staffDutyPatterns : gmap Z DutyPattern;
  (** [weeklySchedules[weekKey][staffId]], keyed by the pair *)
  weeklySchedules : gmap (Z * Z) Z;
  (** [assignedShifts], rebuilt for each date: the staff ids marked *)
  assignedShifts : gset Z
}.

Definition emptyLoad : StaffLoad := mkLoad 0 0 0 None None 0 None.
Definition emptyPattern : DutyPattern := mkPattern 0 0 0 0 0 0.

(** [staffLoads[id]]; every roster member has an entry (see [loads_defined]). *)
Definition getLoad (st : GenState) (i : Z) : StaffLoad :=
  default emptyLoad (staffLoads st !! i).

Definition getPattern (st : GenState) (i : Z) : DutyPattern :=
  default emptyPattern (staffDutyPatterns st !! i).

(** [weeklySchedules[weekKey][id] || 0] *)
Definition getWeekly (st : GenState) (weekKey i : Z) : Z :=
  default 0 (weeklySchedules st !! (weekKey, i)).

Definition setLoad (i : Z) (l : StaffLoad) (st : GenState) : GenState :=
  mkState (schedules st) (conflicts st) (<[i := l]> (staffLoads st))
          (staffDutyPatterns st) (weeklySchedules st) (assignedShifts st).

Definition setPattern (i : Z) (p : DutyPattern) (st : GenState) : GenState :=
  mkState (schedules st) (conflicts st) (staffLoads st)
          (<[i := p]> (staffDutyPatterns st)) (weeklySchedules st) (assignedShifts st).

Definition bumpWeekly (weekKey i : Z) (st : GenState) : GenState :=
  mkState (schedules st) (conflicts st) (staffLoads st) (staffDutyPatterns st)
          (<[(weekKey, i) := getWeekly st weekKey i + 1]> (weeklySchedules st))
          (assignedShifts st).

Definition pushSchedule (e : Schedule.t) (st : GenState) : GenState :=
  mkState (schedules st ++ [e]) (conflicts st) (staffLoads st)
          (staffDutyPatterns st) (weeklySchedules st) (assignedShifts st).

Definition pushConflict (c : Conflict.t) (st : GenState) : GenState :=
  mkState (schedules st) (conflicts st ++ [c]) (staffLoads st)
          (staffDutyPatterns st) (weeklySchedules st) (assignedShifts st).

Definition markAssigned (i : Z) (st : GenState) : GenState :=
  mkState (schedules st) (conflicts st) (staffLoads st)
          (staffDutyPatterns st) (weeklySchedules st) ({[i]} ∪ assignedShifts st).

Definition clearAssigned (st : GenState) : GenState :=
  mkState (schedules st) (conflicts st) (staffLoads st)
          (staffDutyPatterns st) (weeklySchedules st) ∅.

Definition isAssigned (st : GenState) (i : Z) : bool :=
  bool_decide (i ∈ assignedShifts st).

(** The variables of an assignment loop: [dayShiftAssigned], [dayShiftIndex]
    (and their evening and night namesakes) and the generator state. *)
Record LoopState := mkLoop {
  assigned : Z;
  index : nat;
  state : GenState
}.

Definition fullName (s : Staff.t) : string :=
  (Staff.firstName s +:+ " " +:+ Staff.lastName s)%string.

(** [hasShiftConflict]: [schedules.some(s => s.staffId === staffId &&
    s.date === date)] *)
Definition hasShiftConflict (staffId date : Z) (schedules : list Schedule.t) : bool :=
  existsb (λ e, bool_decide (Schedule.staffId e = staffId ∧ Schedule.date e = date))
          schedules.

(** ** Schedule generator ([generateSchedule]) *)

Section Generator.
Variable variant : Variant.
Variable input : ScheduleInput.t.

(** [dutyTypes.find(dt => dt.name === n)?.id || 0] *)
Definition findDutyId (n : string) : Z :=
  default 0 (DutyType.id <$>
    List.find (λ dt, bool_decide (DutyType.name dt = n)) (ScheduleInput.dutyTypes input)).

Definition preDutyId : Z := findDutyId "Pre-Duty".
Definition dutyId : Z := findDutyId "Duty".
Definition postDutyId : Z := findDutyId "Post-Duty".

(** [shiftTypes.find(st => ...)?.id] *)
Definition dayShiftId : option Z :=
  ShiftType.id <$>
    List.find (λ t, bool_decide (ShiftType.name t = "Day Shift")) (ScheduleInput.shiftTypes input).

Definition eveningShiftId : option Z :=
  ShiftType.id <$>
    List.find (λ t,
      match variant with
      | Enhanced => bool_decide (ShiftType.name t = "Evening Shift")
                    || bool_decide (ShiftType.name t = "Mid Shift")
      | Basic => bool_decide (ShiftType.name t = "Evening Shift")
      end) (ScheduleInput.shiftTypes input).

Definition nightShiftId : option Z :=
  ShiftType.id <$>
    List.find (λ t, bool_decide (ShiftType.name t = "Night Shift")) (ScheduleInput.shiftTypes input).

Definition dates : list Z := dateRange (ScheduleInput.startDate input) (ScheduleInput.endDate input).

(** [staff.forEach(s => { staffDutyPatterns[s.id] = ..; staffLoads[s.id] = .. })] *)
Definition initStaff (st : GenState) (s : Staff.t) : GenState :=
  setLoad (Staff.id s) (mkLoad 0 0 0 None None 0 (Staff.specialization s))
    (setPattern (Staff.id s) emptyPattern st).

Definition initState : GenState :=
  fold_left initStaff (ScheduleInput.staff input) (mkState [] [] ∅ ∅ ∅ ∅).

(** One turn of [for (const schedule of existingSchedules)]. *)
Definition seedSchedule (st : GenState) (schedule : Schedule.t) : GenState :=
  let i := Schedule.staffId schedule in
  match staffLoads st !! i with
  | None => st
  | Some load =>
    let pat := getPattern st i in
    let '(load1, pat1) :=
      match Schedule.shiftTypeId schedule with
      | Id k =>
        if decide (k = 0) then (load, pat)
        else
          let load' := mkLoad (consecutiveShifts load) (totalShifts load + 1)
                         (nightShifts load) (Some (Schedule.date schedule)) (Some k)
                         (restDays load) (specialization load) in
          let '(load'', pat') :=
            if decide (nightShiftId = Some k)
            then (mkLoad (consecutiveShifts load') (totalShifts load')
                    (nightShifts load' + 1) (lastShiftDate load') (lastShiftType load')
                    (restDays load') (specialization load'),
                  mkPattern (preDuty pat) (duty pat) (postDuty pat) (dayShift pat)
                    (eveningShift pat) (nightShift pat + 1))
            else (load', pat) in
          let pat'' :=
            if decide (dayShiftId = Some k)
            then mkPattern (preDuty pat') (duty pat') (postDuty pat') (dayShift pat' + 1)
                   (eveningShift pat') (nightShift pat')
            else if decide (eveningShiftId = Some k)
            then mkPattern (preDuty pat') (duty pat') (postDuty pat') (dayShift pat')
                   (eveningShift pat' + 1) (nightShift pat')
            else pat' in
          (load'', pat'')
      | _ => (load, pat)
      end in
    let pat2 :=
      if decide (Schedule.dutyTypeId schedule = dutyId)
      then mkPattern (preDuty pat1) (duty pat1 + 1) (postDuty pat1) (dayShift pat1)
             (eveningShift pat1) (nightShift pat1)
      else if decide (Schedule.dutyTypeId schedule = preDutyId)
      then mkPattern (preDuty pat1 + 1) (duty pat1) (postDuty pat1) (dayShift pat1)
             (eveningShift pat1) (nightShift pat1)
      else if decide (Schedule.dutyTypeId schedule = postDutyId)
      then mkPattern (preDuty pat1) (duty pat1) (postDuty pat1 + 1) (dayShift pat1)
             (eveningShift pat1) (nightShift pat1)
      else pat1 in
    bumpWeekly (getWeekKey (Schedule.date schedule)) i
      (setPattern i pat2 (setLoad i load1 st))
  end.

Definition seedState : GenState :=
  fold_left seedSchedule (ScheduleInput.existingSchedules input) initState.

(** *** One date *)

Section OneDate.
Variable date : Z.

Definition weekKey : Z := getWeekKey date.

(** [availabilities.filter(a => a.date === date && !a.isAvailable).map(a => a.staffId)] *)
Definition unavailableStaffIds : list Z :=
  Availability.staffId <$>
    filter (λ a, Availability.date a = date ∧ Availability.isAvailable a = false)
           (ScheduleInput.availabilities input).

(** The comparator of [availableStaff.sort]. *)
Definition compareFairness (st : GenState) (a b : Staff.t) : Z :=
  let aLoad := getLoad st (Staff.id a) in
  let bLoad := getLoad st (Staff.id b) in
  let aPattern := getPattern st (Staff.id a) in
  let bPattern := getPattern st (Staff.id b) in
  let isAUnavailable := bool_decide (Staff.id a ∈ unavailableStaffIds) in
  let isBUnavailable := bool_decide (Staff.id b ∈ unavailableStaffIds) in
  if decide (isAUnavailable ≠ isBUnavailable) then
    (if isAUnavailable then 1 else -1)
  else if decide (totalShifts aLoad ≠ totalShifts bLoad) then
    totalShifts aLoad - totalShifts bLoad
  else
  let aWeeklyShifts := getWeekly st weekKey (Staff.id a) in
  let bWeeklyShifts := getWeekly st weekKey (Staff.id b) in
  if decide (aWeeklyShifts ≠ bWeeklyShifts) then aWeeklyShifts - bWeeklyShifts
  else
  let aDutyTotal := duty aPattern + preDuty aPattern + postDuty aPattern in
  let bDutyTotal := duty bPattern + preDuty bPattern + postDuty bPattern in
  if decide (aDutyTotal ≠ bDutyTotal) then aDutyTotal - bDutyTotal
  else
  let aShiftTotal := dayShift aPattern + eveningShift aPattern + nightShift aPattern in
  let bShiftTotal := dayShift bPattern + eveningShift bPattern + nightShift bPattern in
  if decide (aShiftTotal ≠ bShiftTotal) then aShiftTotal - bShiftTotal
  else if decide (dayShift aPattern ≠ dayShift bPattern) then
    dayShift aPattern - dayShift bPattern
  else if decide (eveningShift aPattern ≠ eveningShift bPattern) then
    eveningShift aPattern - eveningShift bPattern
  else if decide (nightShift aPattern ≠ nightShift bPattern) then
    nightShift aPattern - nightShift bPattern
  else if decide (restDays aLoad ≠ restDays bLoad) then
    restDays bLoad - restDays aLoad
  else
  let aSpecMatch := bool_decide (specialization aLoad = Some (ScheduleInput.unit input)) in
  let bSpecMatch := bool_decide (specialization bLoad = Some (ScheduleInput.unit input)) in
  if decide (ScheduleInput.unit input ≠ "" ∧ aSpecMatch ≠ bSpecMatch) then
    (if aSpecMatch then -1 else 1)
  else Staff.id a - Staff.id b.

(** [staff.filter(s => !unavailableStaffIds.includes(s.id))], then sorted. *)
Definition availablePool : list Staff.t :=
  filter (λ s, Staff.id s ∉ unavailableStaffIds) (ScheduleInput.staff input).

Definition availableStaff (st : GenState) : list Staff.t :=
  sortBy (compareFairness st) availablePool.

(** [availableStaff.filter(s => !assignedShifts[`${s.id}-${date}`])] *)
Definition unassigned (st : GenState) (pool : list Staff.t) : list Staff.t :=
  filter (λ s, Staff.id s ∉ assignedShifts st) pool.

Definition conflictRecord (t : ConflictType) (s : Staff.t) (m : Message)
    (sev : Severity) : Conflict.t :=
  Conflict.mk t (Staff.id s) date m sev (fullName s).

(** The shared "Check consecutive shifts" and "Check weekly hours" blocks;
    [staffLoad] and [weeklyShiftCount] were read on entry of the turn. *)
Definition checkStreak (staffLoad : StaffLoad) (s : Staff.t)
    (hs : bool * GenState) : bool * GenState :=
  if decide (MAX_CONSECUTIVE_SHIFTS ≤ consecutiveShifts staffLoad)
  then (true, pushConflict (conflictRecord CONSECUTIVE_SHIFTS s
                 (MsgExceedsConsecutive MAX_CONSECUTIVE_SHIFTS) Warning) hs.2)
  else hs.

Definition checkWeekly (weeklyShiftCount : Z) (s : Staff.t)
    (hs : bool * GenState) : bool * GenState :=
  if decide (MAX_SHIFTS_PER_WEEK ≤ weeklyShiftCount)
  then (true, pushConflict (conflictRecord EXCEEDS_WEEKLY_HOURS s
                 (MsgExceedsWeekly MAX_SHIFTS_PER_WEEK) Warning) hs.2)
  else hs.

(** [!hasConflict || (hasConflict && conflicts.find(c => c.staffId === id
    && c.date === date)?.severity === "warning")] *)
Definition mayAssign (hasConflict : bool) (st : GenState) (s : Staff.t) : bool :=
  negb hasConflict
  || (hasConflict &&
      match List.find (λ c, bool_decide (Conflict.staffId c = Staff.id s ∧ Conflict.date c = date))
                      (conflicts st) with
      | Some c => bool_decide (Conflict.severity c = Warning)
      | None => false
      end).

(** The update of the working-shift bookkeeping after a [schedules.push]:
    [consecutiveShifts++], [totalShifts++], [lastShiftDate = date],
    [lastShiftType = shiftId || null], [restDays = 0], and for a night
    shift [nightShifts++]. *)
Definition workedLoad (night : bool) (shiftId : option Z) (l : StaffLoad) : StaffLoad :=
  mkLoad (consecutiveShifts l + 1) (totalShifts l + 1)
         (if night then nightShifts l + 1 else nightShifts l)
         (Some date) (orNull shiftId) 0 (specialization l).

(** The whole assignment block: the pushed entry, the load, the duty
    pattern ([bump]), the weekly count. *)
Definition assign (night : bool) (shiftId : option Z) (dutyTypeId : Z)
    (bump : DutyPattern → DutyPattern) (s : Staff.t) (st : GenState) : GenState :=
  let i := Staff.id s in
  let st1 := pushSchedule
               (Schedule.mk None i date (ofOption shiftId) dutyTypeId (Some (ScheduleInput.unit input)))
               st in
  let st2 := setLoad i (workedLoad night shiftId (getLoad st1 i)) st1 in
  let st3 := setPattern i (bump (getPattern st2 i)) st2 in
  bumpWeekly weekKey i st3.

Definition bumpDuty (p : DutyPattern) : DutyPattern :=
  mkPattern (preDuty p) (duty p + 1) (postDuty p) (dayShift p) (eveningShift p)
            (nightShift p).
Definition bumpPreDuty (p : DutyPattern) : DutyPattern :=
  mkPattern (preDuty p + 1) (duty p) (postDuty p) (dayShift p) (eveningShift p)
            (nightShift p).
Definition bumpPostDuty (p : DutyPattern) : DutyPattern :=
  mkPattern (preDuty p) (duty p) (postDuty p + 1) (dayShift p) (eveningShift p)
            (nightShift p).
Definition bumpDayShift (p : DutyPattern) : DutyPattern :=
  mkPattern (preDuty p) (duty p) (postDuty p) (dayShift p + 1) (eveningShift p)
            (nightShift p).
Definition bumpEveningShift (p : DutyPattern) : DutyPattern :=
  mkPattern (preDuty p) (duty p) (postDuty p) (dayShift p) (eveningShift p + 1)
            (nightShift p).
Definition bumpNightShift (p : DutyPattern) : DutyPattern :=
  mkPattern (preDuty p) (duty p) (postDuty p) (dayShift p) (eveningShift p)
            (nightShift p + 1).

(** The enhanced library also counts the shift type in the duty pattern. *)
Definition bumpShift (f : DutyPattern → DutyPattern) (p : DutyPattern) : DutyPattern :=
  match variant with
  | Enhanced => f (bumpDuty p)
  | Basic => bumpDuty p
  end.

(** **** Day shifts: one turn of the [while] loop.  The result tells
    whether [dayShiftAssigned] was incremented. *)
Definition dayStep (s : Staff.t) (st : GenState) : bool * GenState :=
  let staffLoad := getLoad st (Staff.id s) in
  let weeklyShiftCount := getWeekly st weekKey (Staff.id s) in
  let hs0 : bool * GenState :=
    if existsb (λ e, bool_decide (Schedule.staffId e = Staff.id s ∧ Schedule.date e = date))
               (ScheduleInput.existingSchedules input)
    then (true, pushConflict (conflictRecord EXISTING_ASSIGNMENT s
                   (MsgAlreadyHasAssignmentOn date) Error) st)
    else (false, st) in
  let hs := checkWeekly weeklyShiftCount s (checkStreak staffLoad s hs0) in
  if mayAssign hs.1 hs.2 s
  then (true, markAssigned (Staff.id s)
                (assign false dayShiftId dutyId (bumpShift bumpDayShift) s hs.2))
  else (false, hs.2).

(** **** Evening shifts *)
Definition eveningStep (s : Staff.t) (st : GenState) : bool * GenState :=
  let staffLoad := getLoad st (Staff.id s) in
  let weeklyShiftCount := getWeekly st weekKey (Staff.id s) in
  let hs := checkWeekly weeklyShiftCount s (checkStreak staffLoad s (false, st)) in
  if mayAssign hs.1 hs.2 s
  then (true, markAssigned (Staff.id s)
                (assign false eveningShiftId dutyId (bumpShift bumpEveningShift) s hs.2))
  else (false, hs.2).

(** **** Night shifts *)

(** [staffLoad.lastShiftType && dayShiftId && staffLoad.lastShiftType ===
    dayShiftId && staffLoad.lastShiftDate === getPreviousDay(date)] *)
Definition dayBefore (staffLoad : StaffLoad) : bool :=
  match lastShiftType staffLoad, dayShiftId with
  | Some t, Some d =>
    bool_decide (t ≠ 0) && bool_decide (d ≠ 0) && bool_decide (t = d)
    && bool_decide (lastShiftDate staffLoad = Some (getPreviousDay date))
  | _, _ => false
  end.

Definition nightStep (s : Staff.t) (st : GenState) : bool * GenState :=
  let staffLoad := getLoad st (Staff.id s) in
  let weeklyShiftCount := getWeekly st weekKey (Staff.id s) in
  let hs := checkWeekly weeklyShiftCount s (checkStreak staffLoad s (false, st)) in
  if dayBefore staffLoad then
    (false,
     match variant with
     | Basic => pushConflict (conflictRecord REST_PERIOD_VIOLATION s MsgRestDayNight Error) hs.2
     | Enhanced => hs.2
     end)
  else if mayAssign hs.1 hs.2 s
  then (true, markAssigned (Staff.id s)
                (assign true nightShiftId dutyId (bumpShift bumpNightShift) s hs.2))
  else (false, hs.2).

(** [while (assigned < count && index < pool.length) { ..; index++ }]:
    [pool] is the part of the array from [index] on, [assigned] counts
    the turns that assigned. *)
Fixpoint assignLoop (step : Staff.t → GenState → bool * GenState) (count : Z)
    (pool : list Staff.t) (ls : LoopState) : LoopState :=
  match pool with
  | [] => ls
  | s :: rest =>
    if decide (assigned ls < count) then
      let r := step s (state ls) in
      assignLoop step count rest
        (mkLoop (if r.1 then assigned ls + 1 else assigned ls) (S (index ls)) r.2)
    else ls
  end.

(** The comparator of [remainingAfterDay.sort] (enhanced library only). *)
Definition compareEvening (st : GenState) (a b : Staff.t) : Z :=
  let aPattern := getPattern st (Staff.id a) in
  let bPattern := getPattern st (Staff.id b) in
  if decide (eveningShift aPattern ≠ eveningShift bPattern) then
    eveningShift aPattern - eveningShift bPattern
  else totalShifts (getLoad st (Staff.id a)) - totalShifts (getLoad st (Staff.id b)).

(** The comparator of [remainingAfterEvening.sort]. *)
Definition compareNight (st : GenState) (a b : Staff.t) : Z :=
  let aLoad := getLoad st (Staff.id a) in
  let bLoad := getLoad st (Staff.id b) in
  let aPattern := getPattern st (Staff.id a) in
  let bPattern := getPattern st (Staff.id b) in
  match variant with
  | Enhanced =>
    if decide (nightShift aPattern ≠ nightShift bPattern) then
      nightShift aPattern - nightShift bPattern
    else if decide (nightShifts aLoad ≠ nightShifts bLoad) then
      nightShifts aLoad - nightShifts bLoad
    else totalShifts aLoad - totalShifts bLoad
  | Basic =>
    if decide (nightShifts aLoad ≠ nightShifts bLoad) then
      nightShifts aLoad - nightShifts bLoad
    else totalShifts aLoad - totalShifts bLoad
  end.

(** The three working-shift phases, with the loop variables they end in. *)
Definition dayPool (st : GenState) : list Staff.t := availableStaff st.

Definition dayPhase (pool : list Staff.t) (st : GenState) : LoopState :=
  assignLoop dayStep (shiftTarget (length pool) 3) pool (mkLoop 0 0 st).

Definition eveningPool (pool : list Staff.t) (st : GenState) : list Staff.t :=
  let remainingAfterDay := unassigned st pool in
  match variant with
  | Enhanced => sortBy (compareEvening st) remainingAfterDay
  | Basic => remainingAfterDay
  end.

Definition eveningPhase (pool : list Staff.t) (st : GenState) : LoopState :=
  let remainingAfterDay := eveningPool pool st in
  assignLoop eveningStep (shiftTarget (length remainingAfterDay) 2) remainingAfterDay
             (mkLoop 0 0 st).

Definition nightPool (pool : list Staff.t) (st : GenState) : list Staff.t :=
  sortBy (compareNight st) (unassigned st pool).

Definition nightPhase (pool : list Staff.t) (st : GenState) : LoopState :=
  let remainingAfterEvening := nightPool pool st in
  assignLoop nightStep (shiftTarget (length remainingAfterEvening) 3)
             remainingAfterEvening (mkLoop 0 0 st).

(** **** Pre-duty and post-duty, enhanced library: at most one staff
    member each, entered as a day shift; the member is not marked in
    [assignedShifts]. *)
Definition comparePreDuty (st : GenState) (a b : Staff.t) : Z :=
  let aPattern := getPattern st (Staff.id a) in
  let bPattern := getPattern st (Staff.id b) in
  if decide (preDuty aPattern ≠ preDuty bPattern) then
    preDuty aPattern - preDuty bPattern
  else totalShifts (getLoad st (Staff.id a)) - totalShifts (getLoad st (Staff.id b)).

Definition comparePostDuty (st : GenState) (a b : Staff.t) : Z :=
  let aPattern := getPattern st (Staff.id a) in
  let bPattern := getPattern st (Staff.id b) in
  if decide (postDuty aPattern ≠ postDuty bPattern) then
    postDuty aPattern - postDuty bPattern
  else totalShifts (getLoad st (Staff.id a)) - totalShifts (getLoad st (Staff.id b)).

(** The body of [for (let i = 0; i < Math.min(pool.length, 1); i++)]. *)
Definition dutyDayStep (dutyTypeId : Z) (bump : DutyPattern → DutyPattern)
    (sorted : list Staff.t) (st : GenState) : GenState :=
  match sorted with
  | [] => st
  | s :: _ =>
    if decide (MAX_SHIFTS_PER_WEEK ≤ getWeekly st weekKey (Staff.id s))
    then pushConflict (conflictRecord EXCEEDS_WEEKLY_HOURS s
                         (MsgExceedsWeekly MAX_SHIFTS_PER_WEEK) Warning) st
    else assign false dayShiftId dutyTypeId (λ p, bumpDayShift (bump p)) s st
  end.

Definition enhancedPreDuty (pool : list Staff.t) (st : GenState) : GenState :=
  if decide (getNextDay date ∈ dates)
  then dutyDayStep preDutyId bumpPreDuty (sortBy (comparePreDuty st) (unassigned st pool)) st
  else st.

Definition enhancedPostDuty (pool : list Staff.t) (st : GenState) : GenState :=
  if decide (getPreviousDay date ∈ dates)
  then dutyDayStep postDutyId bumpPostDuty (sortBy (comparePostDuty st) (unassigned st pool)) st
  else st.

(** **** Pre-duty and post-duty, basic library: every member still
    unassigned gets a rest entry with a null shift. *)
Definition restedLoad (l : StaffLoad) : StaffLoad :=
  mkLoad 0 (totalShifts l) (nightShifts l) (lastShiftDate l) (lastShiftType l)
         (restDays l + 1) (specialization l).

Definition restStep (dutyTypeId : Z) (bump : DutyPattern → DutyPattern)
    (st : GenState) (s : Staff.t) : GenState :=
  let i := Staff.id s in
  let st1 := setLoad i (restedLoad (getLoad st i)) st in
  let st2 := pushSchedule
               (Schedule.mk None i date Null dutyTypeId (Some (ScheduleInput.unit input)))
               st1 in
  markAssigned i (setPattern i (bump (getPattern st2 i)) st2).

Definition basicPreDutyPool (pool : list Staff.t) (st : GenState) : list Staff.t :=
  sortBy (λ a b, preDuty (getPattern st (Staff.id a)) - preDuty (getPattern st (Staff.id b)))
         (unassigned st pool).

(** [staff.forEach(s => { if (!assignedShifts[..]) { consecutiveShifts = 0;
    restDays++ } })] *)
Definition restUnassigned (st : GenState) (s : Staff.t) : GenState :=
  if decide (Staff.id s ∈ assignedShifts st) then st
  else setLoad (Staff.id s) (restedLoad (getLoad st (Staff.id s))) st.

(** Pre-duty for the first half of the unassigned, post-duty for the rest. *)
Definition basicDuties (pool : list Staff.t) (st : GenState) : GenState :=
  let unassignedStaff := basicPreDutyPool pool st in
  let preDutyStaff := take (length unassignedStaff / 2)%nat unassignedStaff in
  let st1 := fold_left (restStep preDutyId bumpPreDuty) preDutyStaff st in
  let remainingForPostDuty := unassigned st1 unassignedStaff in
  fold_left (restStep postDutyId bumpPostDuty) remainingForPostDuty st1.

Definition basicTail (pool : list Staff.t) (st : GenState) : GenState :=
  fold_left restUnassigned (ScheduleInput.staff input) (basicDuties pool st).

(** The body of [dates.forEach(date => ..)]. *)
Definition processDate (st : GenState) : GenState :=
  let st0 := clearAssigned st in
  let pool := dayPool st0 in
  let st1 := state (dayPhase pool st0) in
  let st2 := state (eveningPhase pool st1) in
  let st3 := state (nightPhase pool st2) in
  match variant with
  | Enhanced => enhancedPostDuty pool (enhancedPreDuty pool st3)
  | Basic => basicTail pool st3
  end.
End OneDate.

Definition generateState : GenState :=
  fold_left (λ st date, processDate date st) dates seedState.

(** [return { schedules, conflicts }] *)
Definition generateSchedule : list Schedule.t * list Conflict.t :=
  (schedules generateState, conflicts generateState).
End Generator.

(** * Conflict detector ([detectScheduleConflicts]) *)

(** ** The store

    The detector receives JavaScript objects: the candidate entry and four
    arrays of records.  The store holds each object in a cell; an array cell
    holds the references of its elements.  The detector also builds objects
    of its own (the result array, lookup maps, the arrays that [filter] and
    [map] return), allocated at fresh references. *)

Definition ref := positive.

Inductive Cell :=
  | CSchedule (s : Schedule.t)
  | CStaff (s : Staff.t)
  | CAvailability (a : Availability.t)
  | CShiftType (t : ShiftType.t)
  (** an array of object references *)
  | CArray (elems : list ref)
  (** an array of date strings *)
  | CDates (elems : list Z)
  (** an array of conflict records *)
  | CConflicts (elems : list Conflict.t)
  (** an object used as a map from ids to references *)
  | CMap (m : gmap Z ref).

Definition Heap := gmap ref Cell.

(** A reference no cell of the store uses. *)
Definition freshRef (h : gmap ref Cell) : ref := fresh (dom h).

Definition alloc (c : Cell) (h : gmap ref Cell) : ref * gmap ref Cell :=
  (freshRef h, <[freshRef h := c]> h).

(** Reading an array of records, element by element, with the reference of
    each element (its identity). *)
Definition readCells (h : gmap ref Cell) (r : ref) : option (list (ref * Cell)) :=
  match h !! r with
  | Some (CArray elems) => mapM (λ e, c ← h !! e; Some (e, c)) elems
  | _ => None
  end.

Definition asSchedule (rc : ref * Cell) : option (ref * Schedule.t) :=
  match rc.2 with CSchedule s => Some (rc.1, s) | _ => None end.
Definition asStaff (rc : ref * Cell) : option (ref * Staff.t) :=
  match rc.2 with CStaff s => Some (rc.1, s) | _ => None end.
Definition asAvailability (rc : ref * Cell) : option Availability.t :=
  match rc.2 with CAvailability a => Some a | _ => None end.
Definition asShiftType (rc : ref * Cell) : option (ref * ShiftType.t) :=
  match rc.2 with CShiftType t => Some (rc.1, t) | _ => None end.

Definition readSchedules (h : gmap ref Cell) (r : ref) : option (list (ref * Schedule.t)) :=
  l ← readCells h r; mapM asSchedule l.
Definition readStaff (h : gmap ref Cell) (r : ref) : option (list (ref * Staff.t)) :=
  l ← readCells h r; mapM asStaff l.
Definition readAvailabilities (h : gmap ref Cell) (r : ref) : option (list Availability.t) :=
  l ← readCells h r; mapM asAvailability l.
Definition readShiftTypes (h : gmap ref Cell) (r : ref) : option (list (ref * ShiftType.t)) :=
  l ← readCells h r; mapM asShiftType l.
Definition readSchedule (h : gmap ref Cell) (r : ref) : option Schedule.t :=
  match h !! r with Some (CSchedule s) => Some s | _ => None end.

(** [arr.push(c)] on an array of conflicts. *)
Definition pushConflictAt (r : ref) (c : Conflict.t) (h : gmap ref Cell) : gmap ref Cell :=
  match h !! r with
  | Some (CConflicts l) => <[r := CConflicts (l ++ [c])]> h
  | _ => h
  end.

Definition pushConflictsAt (r : ref) (cs : list Conflict.t) (h : gmap ref Cell) :
    gmap ref Cell :=
  fold_left (λ h c, pushConflictAt r c h) cs h.

(** [dates.sort()]: the default sort, in place.  Dates in the "YYYY-MM-DD"
    form sort as their day numbers do. *)
Definition sortDatesAt (r : ref) (h : gmap ref Cell) : gmap ref Cell :=
  match h !! r with
  | Some (CDates l) => <[r := CDates (sortBy (λ a b, a - b) l)]> h
  | _ => h
  end.

(** ** The checks, on the records read from the store *)

Section Detect.
(** The candidate, its reference, and the four arrays. *)
Variable self : ref.
Variable schedule : Schedule.t.
Variable allSchedules : list (ref * Schedule.t).
Variable staffList : list Staff.t.
Variable availabilities : list Availability.t.
Variable shiftTypes : list ShiftType.t.

Definition findStaff : option Staff.t :=
  List.find (λ s, bool_decide (Staff.id s = Schedule.staffId schedule)) staffList.

Definition detectRecord (t : ConflictType) (m : Message) (sev : Severity)
    (staffMember : Staff.t) : Conflict.t :=
  Conflict.mk t (Schedule.staffId schedule) (Schedule.date schedule) m sev
              (fullName staffMember).

(** *** [scheduling-algorithm.ts] *)

(** [shiftTypeId ? shiftTypes.find(s => s.id === shiftTypeId) : null] *)
Definition shiftOf (i : NullableId) : option ShiftType.t :=
  match i with
  | Id k => if decide (k = 0) then None
            else List.find (λ t, bool_decide (ShiftType.id t = k)) shiftTypes
  | _ => None
  end.

Definition scheduleOn (d : Z) : option (ref * Schedule.t) :=
  List.find (λ s, bool_decide (Schedule.staffId s.2 = Schedule.staffId schedule
                               ∧ Schedule.date s.2 = d)) allSchedules.

Definition hasName (n : string) (t : option ShiftType.t) : bool :=
  match t with
  | Some t => bool_decide (ShiftType.name t = n)
  | None => false
  end.

(** [allSchedules.some(s => s.staffId === schedule.staffId && s.date ===
    checkDate && s.shiftTypeId !== null)] *)
Definition worksOn (d : Z) : bool :=
  existsb (λ s, bool_decide (Schedule.staffId s.2 = Schedule.staffId schedule
                             ∧ Schedule.date s.2 = d
                             ∧ Schedule.shiftTypeId s.2 ≠ Null)) allSchedules.

(** [while (worksOn(checkDate)) { consecutiveShifts++; checkDate =
    step(checkDate) }]: the number of turns; [None] when the loop has not
    ended after [fuel] turns. *)
Fixpoint runLength (fuel : nat) (step : Z → Z) (checkDate : Z) : option Z :=
  match fuel with
  | O => None
  | S fuel' =>
    if worksOn checkDate
    then n ← runLength fuel' step (step checkDate); Some (1 + n)
    else Some 0
  end.

(** The two loops, backwards from the previous day and forwards from the
    next day. *)
Definition consecutiveAround (fuel : nat) : option Z :=
  back ← runLength fuel getPreviousDay (getPreviousDay (Schedule.date schedule));
  forth ← runLength fuel getNextDay (getNextDay (Schedule.date schedule));
  Some (1 + back + forth).

Definition truthyString (o : option string) : bool :=
  match o with
  | Some s => bool_decide (s ≠ "")
  | None => false
  end.

(** The result of the call; [None] when one of the two loops has not ended
    after [fuel] turns. *)
Definition detectBasic (fuel : nat) : option (list Conflict.t) :=
  match findStaff with
  | None => Some []
  | Some staffMember =>
    let isUnavailable :=
      existsb (λ a, bool_decide (Availability.staffId a = Schedule.staffId schedule
                                 ∧ Availability.date a = Schedule.date schedule
                                 ∧ Availability.isAvailable a = false)) availabilities in
    let hasDuplicate :=
      existsb (λ s, bool_decide (Schedule.staffId s.2 = Schedule.staffId schedule
                                 ∧ Schedule.date s.2 = Schedule.date schedule
                                 ∧ s.1 ≠ self)) allSchedules in
    let prevSchedule := scheduleOn (getPreviousDay (Schedule.date schedule)) in
    let currentShift := shiftOf (Schedule.shiftTypeId schedule) in
    let prevShift :=
      match prevSchedule with
      | Some p => shiftOf (Schedule.shiftTypeId p.2)
      | None => None
      end in
    consecutiveShifts ← consecutiveAround fuel;
    Some (
    (if isUnavailable
     then [detectRecord UNAVAILABLE_STAFF MsgUnavailable Error staffMember] else [])
    ++ (if hasDuplicate
        then [detectRecord EXISTING_ASSIGNMENT MsgAlreadyAssignedOnThisDate Error
                           staffMember] else [])
    ++ (if hasName "Night Shift" currentShift && hasName "Day Shift" prevShift
        then [detectRecord REST_PERIOD_VIOLATION MsgRestDayNight Error staffMember]
        else [])
    ++ (if hasName "Day Shift" currentShift && hasName "Night Shift" prevShift
        then [detectRecord REST_PERIOD_VIOLATION MsgRestNightDay Error staffMember]
        else [])
    ++ (if truthyString (Schedule.unit schedule)
           && truthyString (Staff.specialization staffMember)
           && bool_decide (Schedule.unit schedule ≠ Staff.specialization staffMember)
        then [detectRecord SPECIALIZATION_MISMATCH
                (MsgSpecialization (default "" (Staff.specialization staffMember))
                                   (default "" (Schedule.unit schedule)))
                Warning staffMember]
        else [])
    ++ (if decide (MAX_CONSECUTIVE_SHIFTS < consecutiveShifts)
        then [detectRecord CONSECUTIVE_SHIFTS
                (MsgConsecutiveExceedsMaximum consecutiveShifts MAX_CONSECUTIVE_SHIFTS)
                Warning staffMember]
        else []))
  end.

(** *** [enhanced-scheduling-algorithm.ts] *)

(** [schedules.filter(s => s.staffId === schedule.staffId)] *)
Definition ownSchedules : list (ref * Schedule.t) :=
  filter (λ s, Schedule.staffId s.2 = Schedule.staffId schedule) allSchedules.

(** The [for] loop over the sorted dates: [(consecutiveCount,
    maxConsecutive)] after the turn for [curr]. *)
Fixpoint maxRun (prev : Z) (rest : list Z) (consecutiveCount maxConsecutive : Z) : Z :=
  match rest with
  | [] => maxConsecutive
  | curr :: rest' =>
    let consecutiveCount' := if decide (curr - prev = 1) then consecutiveCount + 1 else 1 in
    maxRun curr rest' consecutiveCount' (Z.max maxConsecutive consecutiveCount')
  end.

Definition maxConsecutiveOf (sortedDates : list Z) : option Z :=
  match sortedDates with
  | [] => None
  | d :: rest => Some (maxRun d rest 1 1)
  end.

(** The weekly count, the rest hours and the specialization test are
    computed by the source, but every [conflicts.push] under them is
    commented out: they add nothing to the result. *)
Definition detectEnhancedWith (sortedDates : list Z) : list Conflict.t :=
  match findStaff with
  | None => []
  | Some staffMember =>
    let existingSchedule :=
      List.find (λ s, bool_decide (Schedule.staffId s.2 = Schedule.staffId schedule
                                   ∧ Schedule.date s.2 = Schedule.date schedule
                                   ∧ Schedule.id s.2 ≠ Schedule.id schedule))
                allSchedules in
    (match existingSchedule with
     | Some _ =>
       [detectRecord EXISTING_ASSIGNMENT
          (MsgAlreadyHasAssignmentOn (Schedule.date schedule)) Error staffMember]
     | None => []
     end)
    ++ (match maxConsecutiveOf sortedDates with
        | Some maxConsecutive =>
          if decide (MAX_CONSECUTIVE_SHIFTS < maxConsecutive)
          then [detectRecord CONSECUTIVE_SHIFTS
                  (MsgExceedsConsecutive MAX_CONSECUTIVE_SHIFTS) Warning staffMember]
          else []
        | None => []
        end)
  end.

Definition detectEnhanced : list Conflict.t :=
  detectEnhancedWith (sortBy (λ a b, a - b) ((λ s, Schedule.date s.2) <$> ownSchedules)).
End Detect.

(** ** The two detectors on the store

    Each takes the references of the candidate and of the four arrays and
    returns the reference of the array of conflicts it built, with the store
    it leaves; [None] when an argument is not an object of its declared
    type or, in [scheduling-algorithm.ts], when a loop has not ended after
    [fuel] turns.  The records are read on entry; the writes are those of the
    source: the result array and its [push]es, and in the enhanced library
    the two lookup maps, the arrays returned by [filter] and [map], and the
    in-place [sort] of the latter. *)

(** [staffList.forEach(s => staffMap[s.id] = s)] *)
Definition idMap {A : Type} (key : A → Z) (l : list (ref * A)) : gmap Z ref :=
  fold_left (λ m x, <[key x.2 := x.1]> m) l ∅.

End InZone.

Module SchedulingAlgorithm.
Definition detectScheduleConflicts {zone : Zone} (fuel : nat)
    (schedule allSchedules staff availabilities shiftTypes : ref)
    (h : gmap ref Cell) : option (ref * gmap ref Cell) :=
  cand ← readSchedule h schedule;
  all ← readSchedules h allSchedules;
  roster ← readStaff h staff;
  avs ← readAvailabilities h availabilities;
  sts ← readShiftTypes h shiftTypes;
  let '(conflicts, h1) := alloc (CConflicts []) h in
  found ← detectBasic schedule cand all roster.*2 avs sts.*2 fuel;
  Some (conflicts, pushConflictsAt conflicts found h1).
End SchedulingAlgorithm.

Module EnhancedSchedulingAlgorithm.
(** [schedules.filter(s => { const date = new Date(s.date); return s.staffId
    === schedule.staffId && date >= weekStart && date <= weekEnd })] *)
Definition weeklySchedules {zone : Zone} (cand : Schedule.t)
    (all : list (ref * Schedule.t)) : list (ref * Schedule.t) :=
  let scheduleDate := instantOf (Schedule.date cand) in
  let weekStart := addDays scheduleDate (- getDay scheduleDate) in
  let weekEnd := addDays weekStart 6 in
  filter (λ s, Schedule.staffId s.2 = Schedule.staffId cand
               ∧ weekStart ≤ instantOf (Schedule.date s.2)
               ∧ instantOf (Schedule.date s.2) ≤ weekEnd) all.

Definition detectScheduleConflicts {zone : Zone}
    (schedule schedules staffList availabilities shiftTypes : ref)
    (h : gmap ref Cell) : option (ref * gmap ref Cell) :=
  cand ← readSchedule h schedule;
  all ← readSchedules h schedules;
  roster ← readStaff h staffList;
  avs ← readAvailabilities h availabilities;
  sts ← readShiftTypes h shiftTypes;
  let '(conflicts, h1) := alloc (CConflicts []) h in
  let '(staffMap, h2) := alloc (CMap (idMap Staff.id roster)) h1 in
  let '(shiftTypesMap, h3) := alloc (CMap (idMap ShiftType.id sts)) h2 in
  match findStaff cand roster.*2 with
  | None => Some (conflicts, h3)
  | Some _ =>
    let own := ownSchedules cand all in
    let '(filtered, h4) := alloc (CArray own.*1) h3 in
    let '(dates, h5) := alloc (CDates ((λ s, Schedule.date s.2) <$> own)) h4 in
    let h6 := sortDatesAt dates h5 in
    match h6 !! dates with
    | Some (CDates sorted) =>
      let '(weekly, h7) := alloc (CArray (weeklySchedules cand all).*1) h6 in
      Some (conflicts,
            pushConflictsAt conflicts (detectEnhancedWith cand all roster.*2 sorted) h7)
    | _ => None
    end
  end.
End EnhancedSchedulingAlgorithm.

(** * Alternative staff ([suggestAlternativeStaff]) *)

Section InZone.
Context {zone : Zone}.

(** [scheduling-algorithm.ts] *)
Definition suggestBasic (staffId date : Z) (shiftTypeId : NullableId)
    (staff : list Staff.t) (schedules : list Schedule.t)
    (availabilities : list Availability.t) (unit : option string) : list Staff.t :=
  let otherStaff := filter (λ s, Staff.id s ≠ staffId) staff in
  let unavailableStaffIds :=
    Availability.staffId <$>
      filter (λ a, Availability.date a = date ∧ Availability.isAvailable a = false)
             availabilities in
  let dateObj := localMidnight date in
  let prevDateStr := isoDate (addDays dateObj (-1)) in
  let nextDateStr := isoDate (addDays dateObj 1) in
  let worked (i d : Z) : bool :=
    existsb (λ e, bool_decide (Schedule.staffId e = i ∧ Schedule.date e = d
                               ∧ Schedule.shiftTypeId e ≠ Null)) schedules in
  let keep (s : Staff.t) : bool :=
    if bool_decide (Staff.id s ∈ unavailableStaffIds) then false
    else if hasShiftConflict (Staff.id s) date schedules then false
    else
      let consecutiveShifts :=
        1 + (if worked (Staff.id s) prevDateStr then 1 else 0)
          + (if worked (Staff.id s) nextDateStr then 1 else 0) in
      if decide (MAX_CONSECUTIVE_SHIFTS < consecutiveShifts) then false else true in
  let shiftsOf (i : Z) : Z :=
    Z.of_nat (length (filter (λ e, Schedule.staffId e = i ∧ Schedule.shiftTypeId e ≠ Null)
                             schedules)) in
  let compare (a b : Staff.t) : Z :=
    let aMatch := bool_decide (Staff.specialization a = unit) in
    let bMatch := bool_decide (Staff.specialization b = unit) in
    if truthyString unit && aMatch && negb bMatch then -1
    else if truthyString unit && negb aMatch && bMatch then 1
    else shiftsOf (Staff.id a) - shiftsOf (Staff.id b) in
  sortBy compare (filter (λ s, keep s = true) otherStaff).

(** [enhanced-scheduling-algorithm.ts]: [staffId], [shiftTypeId] and
    [availabilities] are parameters the body never reads. *)
Definition suggestEnhanced (staffId date : Z) (shiftTypeId : NullableId)
    (staff : list Staff.t) (schedules : list Schedule.t)
    (availabilities : list Availability.t) (unitSpecialization : option string) :
    list Staff.t :=
  let assignedStaffIds :=
    Schedule.staffId <$> filter (λ e, Schedule.date e = date) schedules in
  let availableStaff := filter (λ s, Staff.id s ∉ assignedStaffIds) staff in
  let availableStaff :=
    if truthyString unitSpecialization then
      let specializedStaff :=
        filter (λ s, Staff.specialization s = unitSpecialization) availableStaff in
      if decide (0 < length specializedStaff)%nat then specializedStaff else availableStaff
    else availableStaff in
  let staffShiftCounts (i : Z) : Z :=
    Z.of_nat (length (filter (λ e, Schedule.staffId e = i) schedules)) in
  sortBy (λ a b, staffShiftCounts (Staff.id a) - staffShiftCounts (Staff.id b))
         availableStaff.

(** Either library. *)
Definition detectScheduleConflicts (v : Variant) (fuel : nat) :
    ref → ref → ref → ref → ref → gmap ref Cell → option (ref * gmap ref Cell) :=
  match v with
  | Basic => SchedulingAlgorithm.detectScheduleConflicts fuel
  | Enhanced => EnhancedSchedulingAlgorithm.detectScheduleConflicts
  end.

(** * Vocabulary of the properties *)

(** [grows d ids st st']: from [st] to [st'] the arrays [schedules] and
    [conflicts] were only appended to, with records of date [d] for staff
    among [ids]. *)
Definition grows (d : Z) (ids : list Z) (st st' : GenState) : Prop :=
  (∃ new, schedules st' = schedules st ++ new
          ∧ Forall (λ e, Schedule.date e = d ∧ Schedule.staffId e ∈ ids) new)
  ∧ (∃ new, conflicts st' = conflicts st ++ new
            ∧ Forall (λ c, Conflict.date c = d ∧ Conflict.staffId c ∈ ids) new).

(** The two warning checks touch nothing but [conflicts]. *)
Definition sameButConflicts (st st' : GenState) : Prop :=
  schedules st' = schedules st ∧ staffLoads st' = staffLoads st
  ∧ staffDutyPatterns st' = staffDutyPatterns st
  ∧ weeklySchedules st' = weeklySchedules st
  ∧ assignedShifts st' = assignedShifts st.

(** The tables as the database holds them: [id] is a serial primary key,
    positive and unique within its table. *)
Definition catalogKeyed (shiftTypes : list ShiftType.t) : Prop :=
  NoDup (ShiftType.id <$> shiftTypes) ∧ Forall (λ t, 0 < ShiftType.id t) shiftTypes.

Definition rosterKeyed (staff : list Staff.t) : Prop :=
  NoDup (Staff.id <$> staff).

Section DayNightTerms.
Variables D N : Z.

(** The load says: last worked on [d], a day shift. *)
Definition lastIsDay (st : GenState) (d i : Z) : Prop :=
lastShiftDate (getLoad st i) = Some d ∧ lastShiftType (getLoad st i) = Some D.

Definition restedAfterDay (sch : list Schedule.t) : Prop :=
∀ e1 e2, e1 ∈ sch → e2 ∈ sch →
  Schedule.staffId e1 = Schedule.staffId e2 →
  Schedule.date e2 = Schedule.date e1 + 1 →
  Schedule.shiftTypeId e1 = Id D → Schedule.shiftTypeId e2 ≠ Id N.

(** What holds from the end of the night phase of date [d] on. *)
Record tailInv (d : Z) (st : GenState) : Prop := {
tail_dates : ∀ e, e ∈ schedules st → Schedule.date e ≤ d;
tail_rested : restedAfterDay (schedules st);
tail_day : ∀ e, e ∈ schedules st → Schedule.date e = d →
  Schedule.shiftTypeId e = Id D → lastIsDay st d (Schedule.staffId e)
}.

(** What holds during the day, evening and night phases of date [d]. *)
Record loopInv (d : Z) (st : GenState) : Prop := {
loop_tail : tailInv d st;
loop_marked : ∀ e, e ∈ schedules st → Schedule.date e = d →
  Schedule.staffId e ∈ assignedShifts st;
loop_prev : ∀ e, e ∈ schedules st → Schedule.date e = d - 1 →
  Schedule.shiftTypeId e = Id D →
  Schedule.staffId e ∈ assignedShifts st ∨ lastIsDay st (d - 1) (Schedule.staffId e)
}.
End DayNightTerms.

Section RunTerms.
Variable variant : Variant.
Variable input : ScheduleInput.t.

(** The state in which the processing of a date of the range starts. *)
Definition stateBefore (pre : list Z) : GenState :=
clearAssigned
  (fold_left (λ st date, processDate variant input date st) pre
             (seedState variant input)).
End RunTerms.

Section DayPolicyTerms.
Variable input : ScheduleInput.t.
Variable date : Z.

(** The warnings a turn records, in the order of the two checks. *)
Definition streakWarning (s : Staff.t) : Conflict.t :=
conflictRecord date CONSECUTIVE_SHIFTS s
  (MsgExceedsConsecutive MAX_CONSECUTIVE_SHIFTS) Warning.

Definition weeklyWarning (s : Staff.t) : Conflict.t :=
conflictRecord date EXCEEDS_WEEKLY_HOURS s
  (MsgExceedsWeekly MAX_SHIFTS_PER_WEEK) Warning.

Definition existingError (s : Staff.t) : Conflict.t :=
conflictRecord date EXISTING_ASSIGNMENT s (MsgAlreadyHasAssignmentOn date) Error.

Definition warnings (l : StaffLoad) (w : Z) (s : Staff.t) : list Conflict.t :=
(if decide (MAX_CONSECUTIVE_SHIFTS ≤ consecutiveShifts l) then [streakWarning s] else [])
++ (if decide (MAX_SHIFTS_PER_WEEK ≤ w) then [weeklyWarning s] else []).

Definition matches (s : Staff.t) (c : Conflict.t) : bool :=
bool_decide (Conflict.staffId c = Staff.id s ∧ Conflict.date c = date).

(** The day's entry for a member. *)
Definition dayEntry (s : Staff.t) : Schedule.t :=
Schedule.mk None (Staff.id s) date (ofOption (dayShiftId input)) (dutyId input)
            (Some (ScheduleInput.unit input)).
End DayPolicyTerms.


Section FairnessTerms.
Variable input : ScheduleInput.t.
Variable date : Z.
Variable st : GenState.

(** Two members tie on every key that the comparator reads before the id. *)
Definition tiedKeys (a b : Staff.t) : Prop :=
let aLoad := getLoad st (Staff.id a) in
let bLoad := getLoad st (Staff.id b) in
let aPattern := getPattern st (Staff.id a) in
let bPattern := getPattern st (Staff.id b) in
(Staff.id a ∈ unavailableStaffIds input date
 ↔ Staff.id b ∈ unavailableStaffIds input date)
∧ totalShifts aLoad = totalShifts bLoad
∧ getWeekly st (weekKey date) (Staff.id a) = getWeekly st (weekKey date) (Staff.id b)
∧ duty aPattern + preDuty aPattern + postDuty aPattern
  = duty bPattern + preDuty bPattern + postDuty bPattern
∧ dayShift aPattern + eveningShift aPattern + nightShift aPattern
  = dayShift bPattern + eveningShift bPattern + nightShift bPattern
∧ dayShift aPattern = dayShift bPattern
∧ eveningShift aPattern = eveningShift bPattern
∧ nightShift aPattern = nightShift bPattern
∧ restDays aLoad = restDays bLoad
∧ (ScheduleInput.unit input ≠ "" →
   (specialization aLoad = Some (ScheduleInput.unit input)
    ↔ specialization bLoad = Some (ScheduleInput.unit input))).
End FairnessTerms.

(** The arguments of a call, as read from the store. *)
Record DetectArgs := mkArgs {
  argSchedule : Schedule.t;
  argSchedules : list (ref * Schedule.t);
  argStaff : list (ref * Staff.t);
  argAvailabilities : list Availability.t;
  argShiftTypes : list (ref * ShiftType.t)
}.


(** The conflicts each library reports for the arguments; [None] when a
    loop of [scheduling-algorithm.ts] has not ended after [fuel] turns. *)
Definition conflictsOf (v : Variant) (fuel : nat) (self : ref) (a : DetectArgs) :
    option (list Conflict.t) :=
  match v with
  | Basic =>
    detectBasic self (argSchedule a) (argSchedules a) (argStaff a).*2
                (argAvailabilities a) (argShiftTypes a).*2 fuel
  | Enhanced => Some (detectEnhanced (argSchedule a) (argSchedules a) (argStaff a).*2)
  end.

(** The key that the engine means to keep unique among the entries. *)
Definition entryKey (e : Schedule.t) : Z * Z := (Schedule.staffId e, Schedule.date e).

(** During the phases of date [d] that mark whom they enter: the entries
    have pairwise different keys, and those of date [d] are for marked
    members. *)
Record uniqueInv (d : Z) (st : GenState) : Prop := {
  unique_dates : ∀ e, e ∈ schedules st → Schedule.date e ≤ d;
  unique_keys : NoDup (entryKey <$> schedules st);
  unique_marked : ∀ e, e ∈ schedules st → Schedule.date e = d →
    Schedule.staffId e ∈ assignedShifts st
}.

(** A turn for member [s] on date [d] either enters nothing and marks
    nobody, or enters one schedule for [s] on [d] and marks [s]. *)
Definition entersOrSkips (d : Z) (s : Staff.t) (st st' : GenState) : Prop :=
  (schedules st' = schedules st ∧ assignedShifts st' = assignedShifts st)
  ∨ (∃ e, schedules st' = schedules st ++ [e]
          ∧ Schedule.date e = d ∧ Schedule.staffId e = Staff.id s
          ∧ assignedShifts st' = {[Staff.id s]} ∪ assignedShifts st).

End InZone.

(** ** Concrete inputs *)

Module Examples.
Definition member (i : Z) (first : string) : Staff.t := Staff.mk i None first "Reyes".

Definition shifts : list ShiftType.t :=
  [ShiftType.mk 1 "Day Shift" "07:00" "15:00" 8;
   ShiftType.mk 2 "Evening Shift" "15:00" "23:00" 8;
   ShiftType.mk 3 "Night Shift" "23:00" "07:00" 8].

Definition duties : list DutyType.t :=
  [DutyType.mk 1 "Pre-Duty"; DutyType.mk 2 "Duty"; DutyType.mk 3 "Post-Duty"].

(** 2024-01-01, a Monday. *)
Definition jan1 : Z := 19723.
Definition jan2 : Z := 19724.
Definition jan3 : Z := 19725.

Definition six : list Staff.t :=
  [member 1 "Ana"; member 2 "Ben"; member 3 "Cora"; member 4 "Dan"; member 5 "Eva";
   member 6 "Finn"].

Definition nine : list Staff.t :=
  six ++ [member 7 "Gia"; member 8 "Hugo"; member 9 "Ines"].

(** Six staff, three days, nobody unavailable, no history. *)
Definition sixThreeDays : ScheduleInput.t :=
  ScheduleInput.mk six shifts duties [] jan1 jan3 "" [].

(** Nine staff, two days. *)
Definition nineTwoDays : ScheduleInput.t :=
  ScheduleInput.mk nine shifts duties [] jan1 jan2 "" [].

(** Six staff, three days, Ana unavailable on the first. *)
Definition anaAway : ScheduleInput.t :=
  ScheduleInput.mk six shifts duties [Availability.mk 1 jan1 false] jan1 jan3 "" [].

(** Six staff, three days, Ana already has an entry on the first day. *)
Definition anaBooked : ScheduleInput.t :=
  ScheduleInput.mk six shifts duties [] jan1 jan3 ""
    [Schedule.mk (Some 40) 1 jan1 Null 2 None].

(** Ana alone, with a day shift of 2024-01-01 already in the store. *)
Definition anaAloneBooked : ScheduleInput.t :=
  ScheduleInput.mk [member 1 "Ana"] shifts duties [] jan1 jan3 ""
    [Schedule.mk (Some 40) 1 jan1 (Id 1) 2 None].

(** A store for the detector: the candidate (Ana, night shift of
    2024-01-02) at 1, a candidate for an id the roster lacks at 12, the
    schedule list at 2 (Ana's day shift of 2024-01-01), the roster at 3,
    the availability records at 4 (Ana and id 99 away on 2024-01-02), the
    shift types at 5. *)
Definition candidate : Schedule.t := Schedule.mk None 1 jan2 (Id 3) 2 None.
Definition booked : Schedule.t := Schedule.mk (Some 40) 1 jan1 (Id 1) 2 None.


Definition argsOf (cand : Schedule.t) : DetectArgs :=
  mkArgs cand [(6%positive, booked)] [(7%positive, member 1 "Ana")]
         [Availability.mk 1 jan2 false; Availability.mk 99 jan2 false]
         [(9%positive, ShiftType.mk 1 "Day Shift" "07:00" "15:00" 8);
          (10%positive, ShiftType.mk 2 "Evening Shift" "15:00" "23:00" 8);
          (11%positive, ShiftType.mk 3 "Night Shift" "23:00" "07:00" 8)].

Definition entry (i d : Z) (shift : NullableId) (dutyTypeId : Z) : Schedule.t :=
  Schedule.mk None i d shift dutyTypeId (Some "").

(** Two time zones.  [utc] has offset 0.  [newYork] has the clock of
    America/New_York in 2024: five hours behind UTC, four from
    2024-03-10T07:00Z to 2024-11-03T06:00Z.  The local times from 02:00 to
    03:00 of 2024-03-10, which that clock skips, and from 01:00 to 02:00 of
    2024-11-03, which it shows twice, are read with the offset that held
    before the change. *)
Definition utc : Zone :=
  {| offsetAt := λ _, 0; offsetOfLocal := λ _, 0;
     zone_advances := λ t, ltac:(cbv beta; lia) |}.

Definition mar10 : Z := 19792.
Definition nov3 : Z := 20030.

Definition newYork : Zone :=
  {| offsetAt := λ t,
       if decide (t < 1440 * mar10 + 420) then -300
       else if decide (t < 1440 * nov3 + 360) then -240 else -300;
     offsetOfLocal := λ l,
       if decide (l < 1440 * mar10 + 180) then -300
       else if decide (l < 1440 * nov3 + 120) then -240 else -300;
     zone_advances := λ t, ltac:(cbv beta; repeat case_decide; lia) |}.

(** Four staff, 2024-11-03 to 2024-11-05: the days around the end of
    daylight saving time in New York. *)
Definition four : list Staff.t :=
  [member 1 "Ana"; member 2 "Ben"; member 3 "Cora"; member 4 "Dan"].

Definition fourInNovember : ScheduleInput.t :=
  ScheduleInput.mk four shifts duties [] nov3 (nov3 + 2) "" [].

(** Nine staff, the same dates; Ben, Cora, Dan, Eva, Finn and Gia are away
    on 2024-11-04. *)
Definition nineInNovember : ScheduleInput.t :=
  ScheduleInput.mk nine shifts duties
    ((λ i, Availability.mk i (nov3 + 1) false) <$> [2; 3; 4; 5; 6; 7])
    nov3 (nov3 + 2) "" [].

(** Six staff, 2024-03-10 to 2024-03-11: the day on which daylight saving
    time starts in New York, and the next.  Ana has six stored entries
    without a shift, one a day from 2024-03-05 to 2024-03-10. *)
Definition anaBookedInMarch : ScheduleInput.t :=
  ScheduleInput.mk six shifts duties [] mar10 (mar10 + 1) ""
    ((λ k, Schedule.mk (Some (100 + k)) 1 (mar10 - k) Null 2 None) <$> [5; 4; 3; 2; 1; 0]).

(** Ana and Ben, 2024-01-02 alone.  Each has one stored entry without a
    shift in the week: Ana's on 2024-01-02, Ben's on 2024-01-03. *)
Definition anaBenTied : ScheduleInput.t :=
  ScheduleInput.mk [member 1 "Ana"; member 2 "Ben"] shifts duties [] jan2 jan2 ""
    [Schedule.mk (Some 40) 1 jan2 Null 2 None; Schedule.mk (Some 41) 2 jan3 Null 2 None].

(** A candidate of Ana for 2024-03-09, and her stored day shift of
    2024-03-10. *)
Definition candidateInMarch : Schedule.t := Schedule.mk None 1 (mar10 - 1) (Id 1) 2 None.
Definition bookedInMarch : Schedule.t := Schedule.mk (Some 60) 1 mar10 (Id 1) 2 None.
End Examples.

(** * Vocabulary of the further properties *)

Section InZone.
Context {zone : Zone}.

(** [logsGain P Q st st']: from [st] to [st'] the two output arrays were
    only appended to, with entries that satisfy [P] and conflict records
    that satisfy [Q]. *)
Definition logsGain (P : Schedule.t → Prop) (Q : Conflict.t → Prop)
    (st st' : GenState) : Prop :=
  (∃ new, schedules st' = schedules st ++ new ∧ Forall P new)
  ∧ (∃ new, conflicts st' = conflicts st ++ new ∧ Forall Q new).

Section ShapeTerms.
Variable variant : Variant.
Variable input : ScheduleInput.t.

(** The (shift, duty) pairs of the [schedules.push] calls of a library. *)
Definition entryKinds : list (NullableId * Z) :=
[(ofOption (dayShiftId input), dutyId input);
 (ofOption (eveningShiftId variant input), dutyId input);
 (ofOption (nightShiftId input), dutyId input)]
++ match variant with
   | Enhanced => [(ofOption (dayShiftId input), preDutyId input);
                  (ofOption (dayShiftId input), postDutyId input)]
   | Basic => [(Null, preDutyId input); (Null, postDutyId input)]
   end.

(** The (type, message, severity) triples of the [conflicts.push] calls of
    a library that a turn for member [s] on date [d] can reach. *)
Definition conflictKinds (d : Z) (s : Staff.t) :
  list (ConflictType * Message * Severity) :=
(if hasShiftConflict (Staff.id s) d (ScheduleInput.existingSchedules input)
 then [(EXISTING_ASSIGNMENT, MsgAlreadyHasAssignmentOn d, Error)] else [])
++ [(CONSECUTIVE_SHIFTS, MsgExceedsConsecutive MAX_CONSECUTIVE_SHIFTS, Warning);
    (EXCEEDS_WEEKLY_HOURS, MsgExceedsWeekly MAX_SHIFTS_PER_WEEK, Warning)]
++ match variant with
   | Basic => [(REST_PERIOD_VIOLATION, MsgRestDayNight, Error)]
   | Enhanced => []
   end.

(** An entry of date [d] for a member of [pool], of one of the kinds. *)
Definition entryAmong (d : Z) (pool : list Staff.t) (e : Schedule.t) : Prop :=
∃ s k, s ∈ pool ∧ k ∈ entryKinds
       ∧ e = Schedule.mk None (Staff.id s) d k.1 k.2 (Some (ScheduleInput.unit input)).

Definition conflictAmong (d : Z) (pool : list Staff.t) (c : Conflict.t) : Prop :=
∃ s k, s ∈ pool ∧ k ∈ conflictKinds d s
       ∧ c = Conflict.mk k.1.1 (Staff.id s) d k.1.2 k.2 (fullName s).
End ShapeTerms.

Section PhaseTerms.
Variable variant : Variant.
Variable input : ScheduleInput.t.
Variable date : Z.

(** The entries of the evening and of the night loop for a member. *)
Definition eveningEntry (s : Staff.t) : Schedule.t :=
Schedule.mk None (Staff.id s) date (ofOption (eveningShiftId variant input)) (dutyId input)
            (Some (ScheduleInput.unit input)).

Definition nightEntry (s : Staff.t) : Schedule.t :=
Schedule.mk None (Staff.id s) date (ofOption (nightShiftId input)) (dutyId input)
            (Some (ScheduleInput.unit input)).

(** The member has an entry in [existingSchedules] on the date. *)
Definition booked (s : Staff.t) : bool :=
hasShiftConflict (Staff.id s) date (ScheduleInput.existingSchedules input).

(** One of the two warning checks fires for the member in state [st]. *)
Definition warned (st : GenState) (s : Staff.t) : bool :=
bool_decide (warnings date (getLoad st (Staff.id s))
                      (getWeekly st (weekKey date) (Staff.id s)) s ≠ []).

(** What [conflicts.find(c => c.staffId === s.id && c.date === date)]
    returns on the records that [st] holds. *)
Definition firstRecord (st : GenState) (s : Staff.t) : option Conflict.t :=
List.find (matches date s) (conflicts st).

Definition errorFirst (st : GenState) (s : Staff.t) : bool :=
match firstRecord st s with
| Some c => bool_decide (Conflict.severity c ≠ Warning)
| None => false
end.

(** Whom a loop passes over, in terms of the state its turn starts in. *)
Definition dayPassesOver (st : GenState) (s : Staff.t) : bool :=
match firstRecord st s with
| Some c => (booked s || warned st s) && bool_decide (Conflict.severity c ≠ Warning)
| None => booked s
end.

Definition eveningPassesOver (st : GenState) (s : Staff.t) : bool :=
warned st s && errorFirst st s.

Definition nightPassesOver (st : GenState) (s : Staff.t) : bool :=
dayBefore input date (getLoad st (Staff.id s)) || (warned st s && errorFirst st s).

(** What the loops read of a member is the same in two states. *)
Definition sameFor (s : Staff.t) (st st' : GenState) : Prop :=
getLoad st' (Staff.id s) = getLoad st (Staff.id s)
∧ getWeekly st' (weekKey date) (Staff.id s) = getWeekly st (weekKey date) (Staff.id s)
∧ firstRecord st' s = firstRecord st s.

(** A turn of a loop: it passes over the member or enters the member's
    entry, marks and counts; it leaves alone what the loops read of the
    members with another id. *)
Definition turnSpec (step : Staff.t → GenState → bool * GenState)
  (entryOf : Staff.t → Schedule.t) (over : GenState → Staff.t → bool) : Prop :=
∀ s st,
  (step s st).1 = negb (over st s)
  ∧ schedules (step s st).2 = schedules st ++ (if over st s then [] else [entryOf s])
  ∧ assignedShifts (step s st).2
    = (if over st s then assignedShifts st else {[Staff.id s]} ∪ assignedShifts st)
  ∧ (over st s = true → staffLoads (step s st).2 = staffLoads st)
  ∧ ∀ s', Staff.id s' ≠ Staff.id s → sameFor s' st (step s st).2.

(** Those a loop with target [count] enters, from a pool, started in [st]. *)
Definition chosen (over : GenState → Staff.t → bool) (count : Z) (pool : list Staff.t)
  (st : GenState) : list Staff.t :=
take (Z.to_nat count) (filter (λ s, over st s = false) pool).
End PhaseTerms.


(** The pre-duty or post-duty entry of the basic library: a null shift. *)
Definition restEntry (input : ScheduleInput.t) (date dutyTypeId : Z) (s : Staff.t) :
    Schedule.t :=
  Schedule.mk None (Staff.id s) date Null dutyTypeId (Some (ScheduleInput.unit input)).

(** Each marked member has an entry of date [d]. *)
Definition markedHaveEntry (d : Z) (st : GenState) : Prop :=
  ∀ i, i ∈ assignedShifts st →
       ∃ e, e ∈ schedules st ∧ Schedule.staffId e = i ∧ Schedule.date e = d.

(** The input with [existingSchedules] replaced. *)
Definition withExisting (input : ScheduleInput.t) (existing : list Schedule.t) :
    ScheduleInput.t :=
  ScheduleInput.mk (ScheduleInput.staff input) (ScheduleInput.shiftTypes input)
    (ScheduleInput.dutyTypes input) (ScheduleInput.availabilities input)
    (ScheduleInput.startDate input) (ScheduleInput.endDate input)
    (ScheduleInput.unit input) existing.

(** The entries of [existingSchedules] whose staff id is on the roster. *)
Definition knownExisting (input : ScheduleInput.t) : list Schedule.t :=
  filter (λ e, Schedule.staffId e ∈ Staff.id <$> ScheduleInput.staff input)
         (ScheduleInput.existingSchedules input).

(** The entries of [existingSchedules] of a member: all of them, those of
    a week, those with a shift. *)
Definition existingInWeek (input : ScheduleInput.t) (i weekKey : Z) : list Schedule.t :=
  filter (λ e, Schedule.staffId e = i ∧ getWeekKey (Schedule.date e) = weekKey)
         (ScheduleInput.existingSchedules input).

Definition existingShifts (input : ScheduleInput.t) (i : Z) : list Schedule.t :=
  filter (λ e, Schedule.staffId e = i ∧ truthyId (Schedule.shiftTypeId e) = true)
         (ScheduleInput.existingSchedules input).

(** The day of the week of a calendar date, 0 for Sunday. *)
Definition weekdayOf (d : Z) : Z := (d + 4) mod 7.

(** The dates on which the schedule list has an entry of the candidate's
    staff member. *)
Definition ownDates (schedule : Schedule.t) (allSchedules : list (ref * Schedule.t)) :
    list Z :=
  (λ s : ref * Schedule.t, Schedule.date s.2) <$> ownSchedules schedule allSchedules.

(** [m] dates in a row, the last of them [x], are all in [l]. *)
Definition runUpTo (l : list Z) (x m : Z) : Prop :=
  ∀ k, 0 ≤ k < m → x - k ∈ l.

(** Entries of Ana on six dates in a row, from 2024-01-01. *)
Definition sixInARow : list (ref * Schedule.t) :=
  imap (λ i d, (Pos.of_nat (20 + i), Schedule.mk (Some (50 + Z.of_nat i)) 1 d (Id 1) 2 None))
       [Examples.jan1; Examples.jan1 + 1; Examples.jan1 + 2; Examples.jan1 + 3;
        Examples.jan1 + 4; Examples.jan1 + 5].

(** ** The order of the suggestions *)

(** The entries of a member that the two suggesters count: those whose
    [shiftTypeId] is not [null]; all of them. *)
Definition shiftCount (schedules : list Schedule.t) (i : Z) : Z :=
  Z.of_nat (length (filter (λ e, Schedule.staffId e = i ∧ Schedule.shiftTypeId e ≠ Null)
                           schedules)).

Definition entryCount (schedules : list Schedule.t) (i : Z) : Z :=
  Z.of_nat (length (filter (λ e, Schedule.staffId e = i) schedules)).

(** [a] may stand before [b]: when a unit is given, a member whose
    specialization is the unit is not behind one whose specialization is
    not; of two members alike in that, the one behind has no smaller
    count. *)
Definition rankedBefore (unit : option string) (count : Z → Z) (a b : Staff.t) : Prop :=
  (truthyString unit = true →
   Staff.specialization b = unit → Staff.specialization a = unit)
  ∧ ((truthyString unit = true →
      (Staff.specialization a = unit ↔ Staff.specialization b = unit)) →
     count (Staff.id a) ≤ count (Staff.id b)).

(** Some availability record says that the member is away on the date. *)
Definition markedAway (availabilities : list Availability.t) (i date : Z) : Prop :=
  ∃ a, a ∈ availabilities ∧ Availability.staffId a = i ∧ Availability.date a = date
       ∧ Availability.isAvailable a = false.

End InZone.

(** * The schedule editor ([schedule-editor.tsx]) *)

(** The values of the form, as [form.getValues()] gives them: a field
    that has not been filled is absent. *)
Module FormValues.
Record t := mk {
  staffId : option Z;
  date : option Z;
  shiftTypeId : NullableId;
  dutyTypeId : option Z;
  unit : option string
}.
End FormValues.

Section InZone.
Context {zone : Zone}.

(** [checkConflicts]: what it passes to [setConflicts] and to
    [setAlternativeStaff]; [None] when it returns before setting either.
    The candidate it builds has no [id]; the detector and the suggester are
    those of [enhanced-scheduling-algorithm.ts], called with no
    availability record.  The [staffName] it adds to the candidate is read
    by neither. *)
Definition checkConflicts (staffList : list Staff.t)
    (existingSchedules : list (ref * Schedule.t)) (values : FormValues.t) :
    option (list Conflict.t * list Staff.t) :=
  match FormValues.staffId values, FormValues.date values, FormValues.dutyTypeId values with
  | Some staffId, Some date, Some dutyTypeId =>
    if bool_decide (staffId = 0) || bool_decide (dutyTypeId = 0) then None
    else
      let scheduleToCheck :=
        Schedule.mk None staffId date (FormValues.shiftTypeId values) dutyTypeId
                    (FormValues.unit values) in
      let detectedConflicts := detectEnhanced scheduleToCheck existingSchedules staffList in
      Some (detectedConflicts,
            if decide (0 < length detectedConflicts)%nat
            then suggestEnhanced (Schedule.staffId scheduleToCheck)
                   (Schedule.date scheduleToCheck) (Schedule.shiftTypeId scheduleToCheck)
                   staffList existingSchedules.*2 [] (Schedule.unit scheduleToCheck)
            else [])
  | _, _, _ => None
  end.

(** The form filled with the staff member and the date of an entry. *)
Definition formOf (e : Schedule.t) : FormValues.t :=
  FormValues.mk (Some (Schedule.staffId e)) (Some (Schedule.date e))
                (Schedule.shiftTypeId e) (Some (Schedule.dutyTypeId e)) (Schedule.unit e).

(** * Time strings ([format-date.ts]) *)

(** [s.split(':')] *)
Fixpoint splitColon (s : string) : list string :=
  match s with
  | EmptyString => [EmptyString]
  | String c rest =>
    if Ascii.eqb c ":"%char then EmptyString :: splitColon rest
    else match splitColon rest with
         | piece :: pieces => String c piece :: pieces
         | [] => [String c EmptyString]
         end
  end.

Definition digitValue (c : ascii) : option Z :=
  let n := Z.of_nat (nat_of_ascii c) in
  if decide (48 ≤ n ≤ 57) then Some (n - 48) else None.

Fixpoint digitsValue (acc : Z) (s : string) : option Z :=
  match s with
  | EmptyString => Some acc
  | String c rest => d ← digitValue c; digitsValue (10 * acc + d) rest
  end.

(** [Number(s)] for a string of decimal digits ([Number("")] is 0); [None]
    for any other string, whose conversion is not modelled. *)
Definition toNumber (s : string) : option Z := digitsValue 0 s.

(** [calculateDuration]; [None] when one of the four numbers it reads is
    not a string of digits or is missing. *)
Definition calculateDuration (startTime endTime : string) : option Z :=
  match toNumber <$> splitColon startTime, toNumber <$> splitColon endTime with
  | Some startHours :: Some startMinutes :: _, Some endHours :: Some endMinutes :: _ =>
    let duration := endHours - startHours in
    let duration := if decide (endMinutes < startMinutes) then duration - 1 else duration in
    let duration := if decide (duration < 0) then duration + 24 else duration in
    Some duration
  | _, _ => None
  end.

(** The leading two numbers of a time string. *)
Definition readsTime (time : string) (hours minutes : Z) : Prop :=
  take 2 (toNumber <$> splitColon time) = [Some hours; Some minutes].

(** The entries of a date with a duty type, in a list of entries. *)
Definition entriesOn (d dutyTypeId : Z) (l : list Schedule.t) : list Schedule.t :=
  filter (λ e, Schedule.date e = d ∧ Schedule.dutyTypeId e = dutyTypeId) l.

(** From [st] to [st'] the entries grow by a list that holds [n] entries of
    date [d] and duty type [k]. *)
Definition tallyGain (d k : Z) (n : nat) (st st' : GenState) : Prop :=
  ∃ new, schedules st' = schedules st ++ new ∧ length (entriesOn d k new) = n.
End InZone.

Section InZone.
Context {zone : Zone}.

(** * Properties *)

(** ** The stable sort *)

Section SortFacts.
Context {A : Type} (cmp : A → A → Z).

Lemma insertBy_perm (x : A) (l : list A) : insertBy cmp x l ≡ₚ x :: l.
Proof.
  induction l as [|y l IH]; simpl; [done|].
  case_decide; [done|]. rewrite IH. apply Permutation_swap.
Qed.

Lemma sortBy_perm (l : list A) : sortBy cmp l ≡ₚ l.
Proof.
  induction l as [|x l IH]; simpl; [done|].
  rewrite insertBy_perm. by rewrite IH.
Qed.

Lemma elem_of_sortBy (x : A) (l : list A) : x ∈ sortBy cmp l ↔ x ∈ l.
Proof. by rewrite sortBy_perm. Qed.

Lemma length_sortBy (l : list A) : length (sortBy cmp l) = length l.
Proof. by rewrite sortBy_perm. Qed.

(** On a comparator that is a total preorder the result is ordered. *)
Section Ordered.
Hypothesis cmp_trans : ∀ x y z, cmp x y ≤ 0 → cmp y z ≤ 0 → cmp x z ≤ 0.
Hypothesis cmp_total : ∀ x y, cmp x y ≤ 0 ∨ cmp y x ≤ 0.

Lemma insertBy_sorted (x : A) (l : list A) :
  StronglySorted (λ a b, cmp a b ≤ 0) l →
  StronglySorted (λ a b, cmp a b ≤ 0) (insertBy cmp x l).
Proof.
  induction 1 as [|y l Hs IH Hall]; simpl.
  - repeat constructor.
  - case_decide as Hxy.
    + constructor; [by constructor|].
      constructor; [done|].
      eapply Forall_impl; [exact Hall|]. intros z Hz. by eapply cmp_trans.
    + constructor; [done|].
      rewrite insertBy_perm. constructor; [|done].
      destruct (cmp_total x y); [lia|done].
Qed.

Lemma sortBy_sorted (l : list A) :
  StronglySorted (λ a b, cmp a b ≤ 0) (sortBy cmp l).
Proof.
  induction l as [|x l IH]; simpl; [constructor|]. by apply insertBy_sorted.
Qed.

Lemma sorted_lookup_le (l : list A) (a b : A) (i j : nat) :
  StronglySorted (λ a b, cmp a b ≤ 0) l →
  l !! i = Some a → l !! j = Some b → (i < j)%nat → cmp a b ≤ 0.
Proof.
  intros Hs. revert i j. induction Hs as [|y l Hs IH Hall]; intros i j Hi Hj Hlt.
  - by rewrite lookup_nil in Hi.
  - destruct j as [|j]; [lia|]. destruct i as [|i]; simpl in *.
    + injection Hi as ->.
      apply (proj1 (Forall_forall _ _) Hall). by eapply list_elem_of_lookup_2.
    + eapply IH; [done..|lia].
Qed.

(** An element that compares strictly below another stands before it. *)
Lemma sortBy_strict_before (l : list A) (a b : A) (i j : nat) :
  cmp a b < 0 → (∀ x y, cmp x y < 0 → 0 < cmp y x) →
  sortBy cmp l !! i = Some a → sortBy cmp l !! j = Some b → (i < j)%nat.
Proof.
  intros Hab Hanti Hi Hj.
  destruct (decide (i < j)%nat) as [|Hge]; [done|exfalso].
  pose proof (sortBy_sorted l) as Hs.
  destruct (decide (i = j)) as [->|Hne].
  - rewrite Hi in Hj. injection Hj as ->. specialize (Hanti _ _ Hab). lia.
  - assert (cmp b a ≤ 0) as Hba.
    { eapply sorted_lookup_le; [exact Hs|exact Hj|exact Hi|lia]. }
    specialize (Hanti _ _ Hab). lia.
Qed.
End Ordered.
End SortFacts.

(** ** What a phase of the generator adds to the two output arrays *)

Lemma grows_same (d : Z) (ids : list Z) (st st' : GenState) :
  schedules st' = schedules st → conflicts st' = conflicts st → grows d ids st st'.
Proof.
  intros Hs Hc. split; exists []; rewrite ?Hs, ?Hc, app_nil_r; by split.
Qed.

Lemma grows_refl (d : Z) (ids : list Z) (st : GenState) : grows d ids st st.
Proof. by apply grows_same. Qed.

Lemma grows_trans (d : Z) (ids : list Z) (st1 st2 st3 : GenState) :
  grows d ids st1 st2 → grows d ids st2 st3 → grows d ids st1 st3.
Proof.
  intros [(n1 & E1 & F1) (m1 & G1 & H1)] [(n2 & E2 & F2) (m2 & G2 & H2)].
  split.
  - exists (n1 ++ n2). rewrite E2, E1, <- app_assoc. split; [done|]. by apply Forall_app.
  - exists (m1 ++ m2). rewrite G2, G1, <- app_assoc. split; [done|]. by apply Forall_app.
Qed.

Lemma grows_mono (d : Z) (ids ids' : list Z) (st st' : GenState) :
  (∀ i, i ∈ ids → i ∈ ids') → grows d ids st st' → grows d ids' st st'.
Proof.
  intros Hsub [(n & E & F) (m & G & H)]. split.
  - exists n. split; [done|]. eapply Forall_impl; [exact F|]. intros e [? ?]; auto.
  - exists m. split; [done|]. eapply Forall_impl; [exact H|]. intros c [? ?]; auto.
Qed.

Lemma grows_pushSchedule (d : Z) (ids : list Z) (e : Schedule.t) (st : GenState) :
  Schedule.date e = d → Schedule.staffId e ∈ ids → grows d ids st (pushSchedule e st).
Proof.
  intros Hd Hi. split; simpl.
  - exists [e]. split; [done|]. by repeat constructor.
  - exists []. by rewrite app_nil_r.
Qed.

Lemma grows_pushConflict (d : Z) (ids : list Z) (c : Conflict.t) (st : GenState) :
  Conflict.date c = d → Conflict.staffId c ∈ ids → grows d ids st (pushConflict c st).
Proof.
  intros Hd Hi. split; simpl.
  - exists []. by rewrite app_nil_r.
  - exists [c]. split; [done|]. by repeat constructor.
Qed.

Lemma grows_schedules (d : Z) (ids : list Z) (st st' : GenState) (e : Schedule.t) :
  grows d ids st st' → e ∈ schedules st' →
  e ∈ schedules st ∨ (Schedule.date e = d ∧ Schedule.staffId e ∈ ids).
Proof.
  intros [(n & E & F) _]. rewrite E, elem_of_app. intros [?|Hn]; [by left|right].
  by apply (proj1 (Forall_forall _ _) F).
Qed.

Lemma grows_conflicts (d : Z) (ids : list Z) (st st' : GenState) (c : Conflict.t) :
  grows d ids st st' → c ∈ conflicts st' →
  c ∈ conflicts st ∨ (Conflict.date c = d ∧ Conflict.staffId c ∈ ids).
Proof.
  intros [_ (n & E & F)]. rewrite E, elem_of_app. intros [?|Hn]; [by left|right].
  by apply (proj1 (Forall_forall _ _) F).
Qed.

Lemma grows_schedules_mono (d : Z) (ids : list Z) (st st' : GenState) (e : Schedule.t) :
  grows d ids st st' → e ∈ schedules st → e ∈ schedules st'.
Proof. intros [(n & E & F) _] ?. rewrite E, elem_of_app. by left. Qed.

Lemma grows_conflicts_mono (d : Z) (ids : list Z) (st st' : GenState) (c : Conflict.t) :
  grows d ids st st' → c ∈ conflicts st → c ∈ conflicts st'.
Proof. intros [_ (n & E & F)] ?. rewrite E, elem_of_app. by left. Qed.

Section GrowsFacts.
Variable variant : Variant.
Variable input : ScheduleInput.t.
Variable date : Z.

Lemma grows_checkStreak (ids : list Z) (l : StaffLoad) (s : Staff.t)
    (st : GenState) (hs : bool * GenState) :
  Staff.id s ∈ ids → grows date ids st hs.2 →
  grows date ids st (checkStreak date l s hs).2.
Proof.
  intros Hi Hg. unfold checkStreak. case_decide; [|done]. simpl.
  eapply grows_trans; [exact Hg|]. by apply grows_pushConflict.
Qed.

Lemma grows_checkWeekly (ids : list Z) (w : Z) (s : Staff.t)
    (st : GenState) (hs : bool * GenState) :
  Staff.id s ∈ ids → grows date ids st hs.2 →
  grows date ids st (checkWeekly date w s hs).2.
Proof.
  intros Hi Hg. unfold checkWeekly. case_decide; [|done]. simpl.
  eapply grows_trans; [exact Hg|]. by apply grows_pushConflict.
Qed.

Lemma grows_assign (ids : list Z) (night : bool) (shiftId : option Z) (dutyTypeId : Z)
    (bump : DutyPattern → DutyPattern) (s : Staff.t) (st : GenState) :
  Staff.id s ∈ ids →
  grows date ids st (assign input date night shiftId dutyTypeId bump s st).
Proof.
  intros Hi. unfold assign.
  eapply grows_trans; [by apply (grows_pushSchedule date ids
    (Schedule.mk None (Staff.id s) date (ofOption shiftId) dutyTypeId
                 (Some (ScheduleInput.unit input))))|].
  by apply grows_same.
Qed.

Lemma grows_dayStep (ids : list Z) (s : Staff.t) (st : GenState) :
  Staff.id s ∈ ids → grows date ids st (dayStep variant input date s st).2.
Proof.
  intros Hi. unfold dayStep.
  set (hs0 := if existsb _ _ then _ else _).
  assert (grows date ids st hs0.2) as H0.
  { subst hs0. destruct (existsb _ _); simpl; [by apply grows_pushConflict|apply grows_refl]. }
  set (hs := checkWeekly _ _ _ _).
  assert (grows date ids st hs.2) as H1.
  { subst hs. by apply grows_checkWeekly, grows_checkStreak. }
  destruct (mayAssign _ _ _ _); simpl; [|done].
  eapply grows_trans; [exact H1|].
  eapply grows_trans; [by apply grows_assign|]. by apply grows_same.
Qed.

Lemma grows_eveningStep (ids : list Z) (s : Staff.t) (st : GenState) :
  Staff.id s ∈ ids → grows date ids st (eveningStep variant input date s st).2.
Proof.
  intros Hi. unfold eveningStep.
  set (hs := checkWeekly _ _ _ _).
  assert (grows date ids st hs.2) as H1.
  { subst hs. apply grows_checkWeekly, grows_checkStreak; [done..|]. apply grows_refl. }
  destruct (mayAssign _ _ _ _); simpl; [|done].
  eapply grows_trans; [exact H1|].
  eapply grows_trans; [by apply grows_assign|]. by apply grows_same.
Qed.

Lemma grows_nightStep (ids : list Z) (s : Staff.t) (st : GenState) :
  Staff.id s ∈ ids → grows date ids st (nightStep variant input date s st).2.
Proof.
  intros Hi. unfold nightStep.
  set (hs := checkWeekly _ _ _ _).
  assert (grows date ids st hs.2) as H1.
  { subst hs. apply grows_checkWeekly, grows_checkStreak; [done..|]. apply grows_refl. }
  destruct (dayBefore _ _ _); simpl.
  { destruct variant; [|done].
    eapply grows_trans; [exact H1|]. by apply grows_pushConflict. }
  destruct (mayAssign _ _ _ _); simpl; [|done].
  eapply grows_trans; [exact H1|].
  eapply grows_trans; [by apply grows_assign|]. by apply grows_same.
Qed.

(** A loop adds records for the staff of its pool only. *)
Lemma grows_assignLoop (step : Staff.t → GenState → bool * GenState) (count : Z)
    (pool : list Staff.t) (ids : list Z) (ls : LoopState) :
  (∀ s st, s ∈ pool → grows date ids st (step s st).2) →
  grows date ids (state ls) (state (assignLoop step count pool ls)).
Proof.
  revert ls. induction pool as [|s rest IH]; intros ls Hstep; simpl.
  - apply grows_refl.
  - case_decide; [|apply grows_refl].
    eapply grows_trans; [apply (Hstep s (state ls)); by left|].
    apply (IH (mkLoop _ _ _)). intros s' st' Hs'. apply Hstep. by right.
Qed.

Lemma grows_fold (f : GenState → Staff.t → GenState) (pool : list Staff.t)
    (ids : list Z) (st : GenState) :
  (∀ s st, s ∈ pool → grows date ids st (f st s)) →
  grows date ids st (fold_left f pool st).
Proof.
  revert st. induction pool as [|s rest IH]; intros st Hstep; simpl.
  - apply grows_refl.
  - eapply grows_trans; [apply Hstep; by left|].
    apply IH. intros s' st' Hs'. apply Hstep. by right.
Qed.

Lemma grows_dutyDayStep (ids : list Z) (dutyTypeId : Z) (bump : DutyPattern → DutyPattern)
    (sorted : list Staff.t) (st : GenState) :
  (∀ s, s ∈ sorted → Staff.id s ∈ ids) →
  grows date ids st (dutyDayStep input date dutyTypeId bump sorted st).
Proof.
  intros Hsub. destruct sorted as [|s rest]; simpl; [apply grows_refl|].
  assert (Staff.id s ∈ ids) by (apply Hsub; by left).
  case_decide; [by apply grows_pushConflict|by apply grows_assign].
Qed.

Lemma grows_restStep (ids : list Z) (dutyTypeId : Z) (bump : DutyPattern → DutyPattern)
    (s : Staff.t) (st : GenState) :
  Staff.id s ∈ ids → grows date ids st (restStep input date dutyTypeId bump st s).
Proof.
  intros Hi. unfold restStep.
  eapply grows_trans; [|by apply grows_same].
  eapply grows_trans; [|by apply (grows_pushSchedule date ids)]. by apply grows_same.
Qed.

Lemma grows_restUnassigned (ids : list Z) (s : Staff.t) (st : GenState) :
  grows date ids st (restUnassigned st s).
Proof. unfold restUnassigned. case_decide; [apply grows_refl|by apply grows_same]. Qed.

Lemma elem_of_unassigned (st : GenState) (pool : list Staff.t) (s : Staff.t) :
  s ∈ unassigned st pool ↔ (Staff.id s ∉ assignedShifts st) ∧ s ∈ pool.
Proof. unfold unassigned. by rewrite list_elem_of_filter. Qed.

Lemma elem_of_eveningPool (st : GenState) (pool : list Staff.t) (s : Staff.t) :
  s ∈ eveningPool variant pool st ↔ (Staff.id s ∉ assignedShifts st) ∧ s ∈ pool.
Proof.
  unfold eveningPool. destruct variant; rewrite ?elem_of_sortBy; apply elem_of_unassigned.
Qed.

Lemma elem_of_nightPool (st : GenState) (pool : list Staff.t) (s : Staff.t) :
  s ∈ nightPool variant pool st ↔ (Staff.id s ∉ assignedShifts st) ∧ s ∈ pool.
Proof. unfold nightPool. rewrite elem_of_sortBy. apply elem_of_unassigned. Qed.

Lemma elem_of_availablePool (s : Staff.t) :
  s ∈ availablePool input date ↔
  (Staff.id s ∉ unavailableStaffIds input date) ∧ s ∈ ScheduleInput.staff input.
Proof. unfold availablePool. by rewrite list_elem_of_filter. Qed.

Lemma elem_of_availableStaff (st : GenState) (s : Staff.t) :
  s ∈ availableStaff input date st ↔ s ∈ availablePool input date.
Proof. unfold availableStaff. apply elem_of_sortBy. Qed.

Lemma grows_dayPhase (ids : list Z) (pool : list Staff.t) (st : GenState) :
  (∀ s, s ∈ pool → Staff.id s ∈ ids) →
  grows date ids st (state (dayPhase variant input date pool st)).
Proof.
  intros Hpool. unfold dayPhase.
  apply (grows_assignLoop _ _ _ _ (mkLoop 0 0 st)).
  intros s st' Hs. by apply grows_dayStep, Hpool.
Qed.

Lemma grows_eveningPhase (ids : list Z) (pool : list Staff.t) (st : GenState) :
  (∀ s, s ∈ pool → Staff.id s ∈ ids) →
  grows date ids st (state (eveningPhase variant input date pool st)).
Proof.
  intros Hpool. unfold eveningPhase.
  apply (grows_assignLoop _ _ _ _ (mkLoop 0 0 st)).
  intros s st' Hs. apply grows_eveningStep, Hpool.
  by apply elem_of_eveningPool in Hs as [_ ?].
Qed.

Lemma grows_nightPhase (ids : list Z) (pool : list Staff.t) (st : GenState) :
  (∀ s, s ∈ pool → Staff.id s ∈ ids) →
  grows date ids st (state (nightPhase variant input date pool st)).
Proof.
  intros Hpool. unfold nightPhase.
  apply (grows_assignLoop _ _ _ _ (mkLoop 0 0 st)).
  intros s st' Hs. apply grows_nightStep, Hpool.
  by apply elem_of_nightPool in Hs as [_ ?].
Qed.

Lemma grows_basicTail (ids : list Z) (pool : list Staff.t) (st : GenState) :
  (∀ s, s ∈ pool → Staff.id s ∈ ids) →
  grows date ids st (basicTail input date pool st).
Proof.
  intros Hpool. unfold basicTail, basicDuties.
  set (st1 := fold_left _ (take _ _) st).
  set (st2 := fold_left _ (unassigned st1 _) st1).
  apply (grows_trans _ _ st st2); [|apply grows_fold; intros; apply grows_restUnassigned].
  apply (grows_trans _ _ st st1).
  - apply grows_fold. intros s st' Hs. apply grows_restStep, Hpool.
    apply elem_of_take in Hs as (i & Hs & _). apply list_elem_of_lookup_2 in Hs.
    unfold basicPreDutyPool in Hs. rewrite elem_of_sortBy in Hs.
    by apply elem_of_unassigned in Hs as [_ ?].
  - apply grows_fold. intros s st' Hs. apply grows_restStep, Hpool.
    apply elem_of_unassigned in Hs as [_ Hs].
    unfold basicPreDutyPool in Hs. rewrite elem_of_sortBy in Hs.
    by apply elem_of_unassigned in Hs as [_ ?].
Qed.

Lemma grows_enhancedPreDuty (ids : list Z) (pool : list Staff.t) (st : GenState) :
  (∀ s, s ∈ pool → Staff.id s ∈ ids) →
  grows date ids st (enhancedPreDuty input date pool st).
Proof.
  intros Hpool. unfold enhancedPreDuty.
  case_decide; [|apply grows_refl]. apply grows_dutyDayStep.
  intros s Hs. rewrite elem_of_sortBy in Hs. apply Hpool.
  by apply elem_of_unassigned in Hs as [_ ?].
Qed.

Lemma grows_enhancedPostDuty (ids : list Z) (pool : list Staff.t) (st : GenState) :
  (∀ s, s ∈ pool → Staff.id s ∈ ids) →
  grows date ids st (enhancedPostDuty input date pool st).
Proof.
  intros Hpool. unfold enhancedPostDuty.
  case_decide; [|apply grows_refl]. apply grows_dutyDayStep.
  intros s Hs. rewrite elem_of_sortBy in Hs. apply Hpool.
  by apply elem_of_unassigned in Hs as [_ ?].
Qed.

(** Processing one date adds records of that date for available staff. *)
Lemma grows_processDate (st : GenState) :
  grows date (Staff.id <$> availablePool input date) st
        (processDate variant input date st).
Proof.
  unfold processDate.
  set (ids := Staff.id <$> availablePool input date).
  set (st0 := clearAssigned st).
  set (pool := dayPool input date st0).
  assert (∀ s, s ∈ pool → Staff.id s ∈ ids) as Hpool.
  { intros s Hs. apply list_elem_of_fmap_2. by apply (elem_of_availableStaff st0). }
  set (st1 := state (dayPhase _ _ _ _ _)).
  set (st2 := state (eveningPhase _ _ _ _ _)).
  set (st3 := state (nightPhase _ _ _ _ _)).
  assert (grows date ids st st3) as H3.
  { apply (grows_trans _ _ st st0); [by apply grows_same|].
    apply (grows_trans _ _ st0 st1); [by apply grows_dayPhase|].
    apply (grows_trans _ _ st1 st2); [by apply grows_eveningPhase|].
    by apply grows_nightPhase. }
  destruct variant.
  - apply (grows_trans _ _ st st3); [done|]. by apply grows_basicTail.
  - apply (grows_trans _ _ st st3); [done|].
    eapply grows_trans; [by apply grows_enhancedPreDuty|].
    by apply grows_enhancedPostDuty.
Qed.
End GrowsFacts.

(** ** The date loop *)

Lemma addDays_later (t : Z) : t < addDays t 1.
Proof. unfold addDays. rewrite Z.mul_1_r. apply zone_advances. Qed.

(** The turns that [dateRange] allows are enough: more would add nothing. *)
Lemma datesFrom_enough (fuel more : nat) (currentDate stop : Z) :
  stop - currentDate < Z.of_nat fuel →
  datesFrom (fuel + more) currentDate stop = datesFrom fuel currentDate stop.
Proof.
  revert currentDate. induction fuel as [|fuel IH]; intros t Hlt; simpl.
  - destruct more; simpl; [done|]. rewrite decide_False; [done|lia].
  - case_decide; [|done]. f_equal. apply IH. pose proof (addDays_later t). lia.
Qed.

Lemma dateRange_enough (start stop : Z) (more : nat) :
  datesFrom (Z.to_nat (instantOf stop - instantOf start + 1) + more)
            (instantOf start) (instantOf stop)
  = dateRange start stop.
Proof. apply datesFrom_enough. lia. Qed.

Lemma elem_of_datesFrom (fuel : nat) (currentDate stop d : Z) :
  d ∈ datesFrom fuel currentDate stop → isoDate currentDate ≤ d ≤ isoDate stop.
Proof.
  revert currentDate. induction fuel as [|fuel IH]; intros t; simpl.
  - by intros ?%elem_of_nil.
  - case_decide as Hle; [|by intros ?%elem_of_nil].
    intros [->|Hd]%elem_of_cons.
    + split; [done|]. apply Z.div_le_mono; lia.
    + apply IH in Hd. split; [|lia].
      pose proof (addDays_later t).
      assert (isoDate t ≤ isoDate (addDays t 1)); [|lia].
      apply Z.div_le_mono; lia.
Qed.

(** Every date that the loop pushes lies in the requested range. *)
Lemma elem_of_dateRange (start stop d : Z) :
  d ∈ dateRange start stop → start ≤ d ≤ stop.
Proof.
  intros Hd%elem_of_datesFrom. unfold isoDate, instantOf in Hd.
  rewrite !(Z.mul_comm 1440), !Z.div_mul in Hd by lia. done.
Qed.

Lemma dateRange_empty (start stop : Z) : stop < start → dateRange start stop = [].
Proof.
  intros Hlt. unfold dateRange, instantOf.
  replace (Z.to_nat _) with 0%nat by lia. done.
Qed.

(** *** In a zone whose offset never changes *)

Section SteadyZone.
Variable c : Z.
Hypothesis Hsteady : steady c.

Lemma addDays_steady (t k : Z) : addDays t k = t + 1440 * k.
Proof.
  unfold addDays. destruct (Hsteady t) as [-> _].
  destruct (Hsteady (t + c + 1440 * k)) as [_ ->]. lia.
Qed.

Lemma getPreviousDay_steady (d : Z) : getPreviousDay d = d - 1.
Proof.
  unfold getPreviousDay, isoDate, instantOf. rewrite addDays_steady.
  replace (1440 * d + 1440 * -1) with ((d - 1) * 1440) by lia.
  by rewrite Z.div_mul.
Qed.

Lemma getNextDay_steady (d : Z) : getNextDay d = d + 1.
Proof.
  unfold getNextDay, isoDate, instantOf. rewrite addDays_steady.
  replace (1440 * d + 1440 * 1) with ((d + 1) * 1440) by lia.
  by rewrite Z.div_mul.
Qed.

Lemma datesFrom_steady (fuel n : nat) (start stop : Z) :
  start + Z.of_nat n = stop + 1 → (n ≤ fuel)%nat →
  datesFrom fuel (instantOf start) (instantOf stop)
  = (λ i : nat, start + Z.of_nat i) <$> seq 0 n.
Proof.
  revert fuel start. induction n as [|n IH]; intros fuel start Hn Hfuel.
  - destruct fuel; [done|]. simpl. rewrite decide_False; [done|]. unfold instantOf. lia.
  - destruct fuel as [|fuel]; [lia|].
    cbn [datesFrom]. rewrite decide_True by (unfold instantOf; lia).
    rewrite addDays_steady.
    replace (instantOf start + 1440 * 1) with (instantOf (start + 1))
      by (unfold instantOf; lia).
    rewrite (IH fuel) by lia. cbn [seq fmap list_fmap]. f_equal.
    + unfold isoDate, instantOf. rewrite Z.mul_comm, Z.div_mul by lia. lia.
    + rewrite <- fmap_S_seq, <- list_fmap_compose.
      apply list_fmap_ext. intros i x _. simpl. lia.
Qed.

(** The loop pushes every date of the range once, in order. *)
Lemma dateRange_steady (start stop : Z) :
  dateRange start stop
  = (λ i : nat, start + Z.of_nat i) <$> seq 0 (Z.to_nat (stop - start + 1)).
Proof.
  destruct (decide (stop < start)) as [Hlt|Hge].
  { rewrite dateRange_empty by done. by replace (Z.to_nat _) with 0%nat by lia. }
  apply datesFrom_steady; unfold instantOf; lia.
Qed.

Lemma NoDup_dateRange (start stop : Z) : NoDup (dateRange start stop).
Proof.
  rewrite dateRange_steady. apply NoDup_fmap_2_strong; [|apply NoDup_seq].
  intros i j _ _ Heq. lia.
Qed.

Lemma elem_of_dateRange_steady (start stop d : Z) :
  d ∈ dateRange start stop ↔ start ≤ d ≤ stop.
Proof.
  split; [apply elem_of_dateRange|]. intros Hd.
  rewrite dateRange_steady. apply list_elem_of_fmap.
  exists (Z.to_nat (d - start)). split; [lia|].
  apply elem_of_seq. lia.
Qed.
End SteadyZone.

(** ** Invariants of a whole run *)

Lemma dateRange_fmap_S (start : Z) (n : nat) :
  (λ i : nat, start + Z.of_nat i) <$> seq 0 (S n)
  = start :: ((λ i : nat, (start + 1) + Z.of_nat i) <$> seq 0 n).
Proof.
  simpl. f_equal; [lia|].
  rewrite <- fmap_S_seq, <- list_fmap_compose.
  apply list_fmap_ext. intros i x _. simpl. lia.
Qed.

Section RunFacts.
Variable variant : Variant.
Variable input : ScheduleInput.t.

Lemma initState_logs :
  schedules (initState input) = [] ∧ conflicts (initState input) = [].
Proof.
  unfold initState.
  assert (∀ l st, schedules st = [] ∧ conflicts st = [] →
          schedules (fold_left initStaff l st) = []
          ∧ conflicts (fold_left initStaff l st) = []) as H.
  { induction l as [|s l IH]; intros st Hst; simpl; [done|]. by apply IH. }
  by apply H.
Qed.

Lemma seedSchedule_logs (st : GenState) (e : Schedule.t) :
  schedules (seedSchedule variant input st e) = schedules st
  ∧ conflicts (seedSchedule variant input st e) = conflicts st.
Proof.
  unfold seedSchedule. destruct (staffLoads st !! _); [|done].
  match goal with |- context [let '(_, _) := ?x in _] => by destruct x end.
Qed.

Lemma seedState_logs :
  schedules (seedState variant input) = [] ∧ conflicts (seedState variant input) = [].
Proof.
  unfold seedState.
  assert (∀ l st, schedules st = [] ∧ conflicts st = [] →
          schedules (fold_left (seedSchedule variant input) l st) = []
          ∧ conflicts (fold_left (seedSchedule variant input) l st) = []) as H.
  { induction l as [|s l IH]; intros st [Hs Hc]; simpl; [done|]. apply IH.
    destruct (seedSchedule_logs st s) as [-> ->]. done. }
  apply H, initState_logs.
Qed.

(** Induction over the dates of the range. *)
Lemma generateState_ind (P : GenState → Prop) :
  P (seedState variant input) →
  (∀ d st, d ∈ dates input → P st → P (processDate variant input d st)) →
  P (generateState variant input).
Proof.
  unfold generateState. generalize (seedState variant input).
  induction (dates input) as [|d l IH]; intros st H0 Hstep; simpl; [done|].
  apply IH.
  - apply Hstep; [by left|done].
  - intros d' st' Hd'. apply Hstep. by right.
Qed.

(** Every generated entry is for a roster member who has no
    unavailability record on the entry's date. *)
Lemma schedules_available (e : Schedule.t) :
  e ∈ schedules (generateState variant input) →
  Schedule.staffId e ∈ Staff.id <$> availablePool input (Schedule.date e).
Proof.
  revert e. apply generateState_ind.
  - intros e. destruct seedState_logs as [-> _]. by intros ?%elem_of_nil.
  - intros d st _ IH e He.
    destruct (grows_schedules _ _ _ _ _ (grows_processDate variant input d st) He)
      as [?|[<- ?]]; [by apply IH|done].
Qed.
End RunFacts.

(** C1. Exclusion invariant: a staff member with an availability record
    [isAvailable = false] on a date has no generated schedule entry on that
    date, in either library and whatever phase produced the entry. *)
Theorem unavailable_staff_never_scheduled (variant : Variant) (input : ScheduleInput.t)
    (a : Availability.t) (e : Schedule.t) :
  a ∈ ScheduleInput.availabilities input →
  Availability.isAvailable a = false →
  e ∈ (generateSchedule variant input).1 →
  Schedule.staffId e = Availability.staffId a →
  Schedule.date e ≠ Availability.date a.
Proof.
  intros Ha Hf He Hid Hd. simpl in He.
  apply schedules_available in He.
  apply list_elem_of_fmap in He as (s & Hs & Hpool).
  apply elem_of_availablePool in Hpool as [Hun _].
  apply Hun. unfold unavailableStaffIds.
  apply list_elem_of_fmap. exists a. split; [congruence|].
  apply list_elem_of_filter. by rewrite Hd.
Qed.

(** ** Frame facts of the state updates *)

Lemma getLoad_setLoad (i j : Z) (l : StaffLoad) (st : GenState) :
  getLoad (setLoad i l st) j = if decide (i = j) then l else getLoad st j.
Proof.
  unfold getLoad, setLoad; simpl. rewrite lookup_insert. by case_decide.
Qed.

Section AssignFacts.
Variable input : ScheduleInput.t.
Variable date : Z.

Lemma schedules_assign (night : bool) (shiftId : option Z) (dutyTypeId : Z)
    (bump : DutyPattern → DutyPattern) (s : Staff.t) (st : GenState) :
  schedules (assign input date night shiftId dutyTypeId bump s st)
  = schedules st ++ [Schedule.mk None (Staff.id s) date (ofOption shiftId) dutyTypeId
                       (Some (ScheduleInput.unit input))].
Proof. done. Qed.

Lemma conflicts_assign (night : bool) (shiftId : option Z) (dutyTypeId : Z)
    (bump : DutyPattern → DutyPattern) (s : Staff.t) (st : GenState) :
  conflicts (assign input date night shiftId dutyTypeId bump s st) = conflicts st.
Proof. done. Qed.

Lemma assignedShifts_assign (night : bool) (shiftId : option Z) (dutyTypeId : Z)
    (bump : DutyPattern → DutyPattern) (s : Staff.t) (st : GenState) :
  assignedShifts (assign input date night shiftId dutyTypeId bump s st)
  = assignedShifts st.
Proof. done. Qed.

Lemma getLoad_assign (night : bool) (shiftId : option Z) (dutyTypeId : Z)
    (bump : DutyPattern → DutyPattern) (s : Staff.t) (st : GenState) (j : Z) :
  getLoad (assign input date night shiftId dutyTypeId bump s st) j
  = if decide (Staff.id s = j)
    then workedLoad date night shiftId (getLoad st (Staff.id s))
    else getLoad st j.
Proof.
  unfold assign, getLoad; simpl. rewrite lookup_insert. by case_decide.
Qed.

Lemma sameButConflicts_checks (l : StaffLoad) (w : Z) (s : Staff.t)
    (st : GenState) (hs : bool * GenState) :
  sameButConflicts st hs.2 →
  sameButConflicts st (checkWeekly date w s (checkStreak date l s hs)).2.
Proof.
  intros H. unfold checkWeekly, checkStreak. by repeat case_decide.
Qed.

Lemma getLoad_same (st st' : GenState) (j : Z) :
  sameButConflicts st st' → getLoad st' j = getLoad st j.
Proof. intros (_ & H & _). unfold getLoad. by rewrite H. Qed.
End AssignFacts.

(** ** Duplicate-free pools *)

Lemma NoDup_fmap_filter {A B : Type} (f : A → B) (P : A → Prop)
    `{∀ x, Decision (P x)} (l : list A) :
  NoDup (f <$> l) → NoDup (f <$> filter P l).
Proof.
  induction l as [|x l IH]; simpl; [done|].
  rewrite NoDup_cons. intros [Hx Hl]. rewrite filter_cons.
  case_decide; [|by apply IH]. simpl. apply NoDup_cons. split; [|by apply IH].
  rewrite list_elem_of_fmap. intros (y & Hy & Hin).
  apply list_elem_of_filter in Hin as [_ Hin].
  apply Hx. rewrite list_elem_of_fmap. by exists y.
Qed.

Lemma NoDup_fmap_sortBy {A B : Type} (f : A → B) (cmp : A → A → Z) (l : list A) :
  NoDup (f <$> l) → NoDup (f <$> sortBy cmp l).
Proof. by rewrite sortBy_perm. Qed.

(** A loop over a duplicate-free pool of unassigned staff meets every
    member while the member is still unassigned. *)
Lemma assignLoop_invariant (P : GenState → Prop)
    (step : Staff.t → GenState → bool * GenState) (count : Z)
    (pool : list Staff.t) (ls : LoopState) :
  NoDup (Staff.id <$> pool) →
  (∀ s, s ∈ pool → Staff.id s ∉ assignedShifts (state ls)) →
  (∀ s st, s ∈ pool → P st → Staff.id s ∉ assignedShifts st →
     P (step s st).2 ∧ assignedShifts (step s st).2 ⊆ {[Staff.id s]} ∪ assignedShifts st) →
  P (state ls) → P (state (assignLoop step count pool ls)).
Proof.
  revert ls. induction pool as [|s rest IH]; intros ls Hnd Hfresh Hstep HP; simpl; [done|].
  case_decide; [|done].
  apply NoDup_cons in Hnd as [Hs Hnd].
  destruct (Hstep s (state ls)) as [HP' Hsub]; [by left|done|apply Hfresh; by left|].
  apply (IH (mkLoop _ _ _)); simpl; [done| | |done].
  - intros s' Hs' Hin. apply Hsub in Hin.
    apply elem_of_union in Hin as [Hin|Hin].
    + apply elem_of_singleton in Hin. apply Hs. rewrite <- Hin.
      by apply list_elem_of_fmap_2.
    + apply (Hfresh s'); [by right|done].
  - intros s' st' Hs'. apply Hstep. by right.
Qed.

(** ** No night shift on the day after a day shift *)

Section DayNight.
Variable variant : Variant.
Variable input : ScheduleInput.t.
Variables D N : Z.
Hypothesis HD : dayShiftId input = Some D.
Hypothesis HN : nightShiftId input = Some N.
Hypothesis HD0 : D ≠ 0.
Hypothesis HDN : D ≠ N.
Hypothesis HEN : eveningShiftId variant input ≠ Some N.
Variable c : Z.
Hypothesis Hsteady : steady c.

Lemma tailInv_same (d : Z) (st st' : GenState) :
  schedules st' = schedules st → staffLoads st' = staffLoads st →
  tailInv D N d st → tailInv D N d st'.
Proof.
  intros Hs Hl [H1 H2 H3]. split.
  - by rewrite Hs.
  - by rewrite Hs.
  - intros e. unfold lastIsDay, getLoad. rewrite Hs, Hl. apply H3.
Qed.

Lemma loopInv_same (d : Z) (st st' : GenState) :
  sameButConflicts st st' → loopInv D N d st → loopInv D N d st'.
Proof.
  intros (Hs & Hl & _ & _ & Ha) [H1 H2 H3]. split.
  - by apply (tailInv_same d st).
  - rewrite Hs, Ha. done.
  - unfold lastIsDay, getLoad in *. rewrite Hs, Ha, Hl. done.
Qed.

Lemma workedLoad_day (d : Z) (night : bool) (l : StaffLoad) :
  lastShiftDate (workedLoad d night (Some D) l) = Some d
  ∧ lastShiftType (workedLoad d night (Some D) l) = Some D.
Proof. simpl. by rewrite decide_False. Qed.

(** Entering a day-typed shift keeps the tail invariant, marked or not. *)
Lemma tailInv_assign_day (d : Z) (night : bool) (dutyTypeId : Z)
    (bump : DutyPattern → DutyPattern) (s : Staff.t) (st : GenState) :
  tailInv D N d st → tailInv D N d (assign input d night (Some D) dutyTypeId bump s st).
Proof.
  intros [H1 H2 H3]. split.
  - intros e. rewrite schedules_assign, elem_of_app, list_elem_of_singleton.
    intros [He| ->]; [by apply H1|simpl; lia].
  - intros e1 e2. rewrite schedules_assign, !elem_of_app, !list_elem_of_singleton.
    intros [He1| ->] [He2| ->]; simpl.
    + by apply H2.
    + intros _ _ _ [=]. done.
    + intros _ Hd. apply H1 in He2. lia.
    + lia.
  - intros e He Hd Hday. unfold lastIsDay. rewrite getLoad_assign.
    case_decide; [apply workedLoad_day|].
    revert He. rewrite schedules_assign, elem_of_app, list_elem_of_singleton.
    intros [He| ->]; [by apply H3|done].
Qed.

(** Entering a shift for a member not yet marked, and marking the member. *)
Lemma loopInv_assign (d : Z) (night : bool) (shiftId : option Z) (dutyTypeId : Z)
    (bump : DutyPattern → DutyPattern) (s : Staff.t) (st : GenState) :
  loopInv D N d st → Staff.id s ∉ assignedShifts st →
  (shiftId = Some N → ∀ e, e ∈ schedules st → Schedule.staffId e = Staff.id s →
     Schedule.date e = d - 1 → Schedule.shiftTypeId e ≠ Id D) →
  loopInv D N d (markAssigned (Staff.id s)
               (assign input d night shiftId dutyTypeId bump s st)).
Proof.
  intros [[H1 H2 H3] H4 H5] Hfresh Hnight.
  set (st' := assign input d night shiftId dutyTypeId bump s st).
  assert (∀ j, getLoad (markAssigned (Staff.id s) st') j = getLoad st' j) as Hmark by done.
  split; [split|..]; simpl.
  - intros e. rewrite elem_of_app, list_elem_of_singleton.
    intros [He| ->]; [by apply H1|simpl; lia].
  - intros e1 e2. rewrite !elem_of_app, !list_elem_of_singleton.
    intros [He1| ->] [He2| ->]; simpl.
    + by apply H2.
    + intros Hid Hd Hday HXN. destruct shiftId as [x|]; [|done].
      injection HXN as ->. eapply (Hnight eq_refl e1); [done..|lia|done].
    + intros _ Hd. apply H1 in He2. lia.
    + lia.
  - intros e. rewrite elem_of_app, list_elem_of_singleton.
    intros [He| ->] Hd Hday; unfold lastIsDay; rewrite Hmark; unfold st';
      rewrite getLoad_assign; simpl in *.
    + rewrite decide_False; [by apply H3|].
      intros Heq. apply Hfresh. rewrite Heq. by apply H4.
    + rewrite decide_True by done. destruct shiftId as [x|]; [|done].
      injection Hday as ->. apply workedLoad_day.
  - intros e. rewrite elem_of_app, list_elem_of_singleton.
    intros [He| ->] Hd; simpl; [|set_solver].
    apply elem_of_union_r. by apply H4.
  - intros e. rewrite elem_of_app, list_elem_of_singleton.
    intros [He| ->] Hd Hday; simpl in *; [|lia].
    destruct (decide (Staff.id s = Schedule.staffId e)) as [Heq|Hne]; [left; set_solver|].
    destruct (H5 e He Hd Hday) as [?|Hlast]; [left; set_solver|right].
    unfold lastIsDay. rewrite Hmark. unfold st'. rewrite getLoad_assign.
    by rewrite decide_False.
Qed.

Lemma sameButConflicts_refl (st : GenState) : sameButConflicts st st.
Proof. done. Qed.

Lemma loopInv_dayStep (d : Z) (s : Staff.t) (st : GenState) :
  loopInv D N d st → Staff.id s ∉ assignedShifts st →
  loopInv D N d (dayStep variant input d s st).2
  ∧ assignedShifts (dayStep variant input d s st).2 ⊆ {[Staff.id s]} ∪ assignedShifts st.
Proof.
  intros Hinv Hfresh. unfold dayStep.
  set (hs0 := if existsb _ _ then _ else _).
  assert (sameButConflicts st hs0.2) as H0 by (subst hs0; by destruct (existsb _ _)).
  set (hs := checkWeekly _ _ _ _).
  assert (sameButConflicts st hs.2) as H1 by by apply sameButConflicts_checks.
  pose proof H1 as (_ & _ & _ & _ & Ha).
  destruct (mayAssign _ _ _ _); simpl.
  - split; [|simpl; rewrite Ha; set_solver].
    apply loopInv_assign; [by apply (loopInv_same d st)|by rewrite Ha|].
    rewrite HD. intros [=]. done.
  - split; [by apply (loopInv_same d st)|]. rewrite Ha. apply union_subseteq_r.
Qed.

Lemma loopInv_eveningStep (d : Z) (s : Staff.t) (st : GenState) :
  loopInv D N d st → Staff.id s ∉ assignedShifts st →
  loopInv D N d (eveningStep variant input d s st).2
  ∧ assignedShifts (eveningStep variant input d s st).2
    ⊆ {[Staff.id s]} ∪ assignedShifts st.
Proof.
  intros Hinv Hfresh. unfold eveningStep.
  set (hs := checkWeekly _ _ _ _).
  assert (sameButConflicts st hs.2) as H1
    by (apply sameButConflicts_checks, sameButConflicts_refl).
  pose proof H1 as (_ & _ & _ & _ & Ha).
  destruct (mayAssign _ _ _ _); simpl.
  - split; [|simpl; rewrite Ha; set_solver].
    apply loopInv_assign; [by apply (loopInv_same d st)|by rewrite Ha|done].
  - split; [by apply (loopInv_same d st)|]. rewrite Ha. apply union_subseteq_r.
Qed.

Lemma dayBefore_lastIsDay (d : Z) (st : GenState) (i : Z) :
  lastIsDay D st (d - 1) i → dayBefore input d (getLoad st i) = true.
Proof.
  intros [Hd Ht]. unfold dayBefore. rewrite (getPreviousDay_steady c Hsteady), Ht, HD, Hd.
  by rewrite !bool_decide_eq_true_2.
Qed.

Lemma loopInv_nightStep (d : Z) (s : Staff.t) (st : GenState) :
  loopInv D N d st → Staff.id s ∉ assignedShifts st →
  loopInv D N d (nightStep variant input d s st).2
  ∧ assignedShifts (nightStep variant input d s st).2
    ⊆ {[Staff.id s]} ∪ assignedShifts st.
Proof.
  intros Hinv Hfresh. unfold nightStep.
  set (hs := checkWeekly _ _ _ _).
  assert (sameButConflicts st hs.2) as H1
    by (apply sameButConflicts_checks, sameButConflicts_refl).
  pose proof H1 as (Hs & _ & _ & _ & Ha).
  destruct (dayBefore _ _ _) eqn:Hbefore; simpl.
  { destruct variant; simpl.
    - split; [by apply (loopInv_same d st)|]. rewrite Ha. apply union_subseteq_r.
    - split; [by apply (loopInv_same d st)|]. rewrite Ha. apply union_subseteq_r. }
  destruct (mayAssign _ _ _ _); simpl.
  - split; [|simpl; rewrite Ha; set_solver].
    apply loopInv_assign; [by apply (loopInv_same d st)|by rewrite Ha|].
    intros _ e He Hid Hd Hday. rewrite Hs in He.
    destruct (loop_prev _ _ _ _ Hinv e He Hd Hday) as [Hin|Hlast].
    + apply Hfresh. by rewrite <- Hid.
    + rewrite Hid in Hlast. apply dayBefore_lastIsDay in Hlast. congruence.
  - split; [by apply (loopInv_same d st)|]. rewrite Ha. apply union_subseteq_r.
Qed.

Hypothesis Hroster : NoDup (Staff.id <$> ScheduleInput.staff input).

Lemma NoDup_availableStaff (d : Z) (st : GenState) :
  NoDup (Staff.id <$> availableStaff input d st).
Proof. by apply NoDup_fmap_sortBy, NoDup_fmap_filter. Qed.

Lemma NoDup_unassigned (pool : list Staff.t) (st : GenState) :
  NoDup (Staff.id <$> pool) → NoDup (Staff.id <$> unassigned st pool).
Proof. apply NoDup_fmap_filter. Qed.

Lemma loopInv_phases (d : Z) (st : GenState) :
  loopInv D N d st → assignedShifts st = ∅ →
  let pool := dayPool input d st in
  let st1 := state (dayPhase variant input d pool st) in
  let st2 := state (eveningPhase variant input d pool st1) in
  loopInv D N d (state (nightPhase variant input d pool st2)).
Proof.
  intros Hinv Hempty pool st1 st2.
  assert (NoDup (Staff.id <$> pool)) as Hnd by apply NoDup_availableStaff.
  assert (loopInv D N d st1) as H1.
  { apply (assignLoop_invariant (loopInv D N d) _ _ _ (mkLoop 0 0 st)); simpl;
      [done| |intros; by apply loopInv_dayStep|done].
    intros s _. rewrite Hempty. set_solver. }
  assert (loopInv D N d st2) as H2.
  { apply (assignLoop_invariant (loopInv D N d) _ _ _ (mkLoop 0 0 st1)); simpl;
      [| |intros; by apply loopInv_eveningStep|done].
    - unfold eveningPool. destruct variant; [|apply NoDup_fmap_sortBy];
        by apply NoDup_unassigned.
    - intros s Hs. by apply elem_of_eveningPool in Hs as [? _]. }
  apply (assignLoop_invariant (loopInv D N d) _ _ _ (mkLoop 0 0 st2)); simpl;
    [| |intros; by apply loopInv_nightStep|done].
  - unfold nightPool. by apply NoDup_fmap_sortBy, NoDup_unassigned.
  - intros s Hs. by apply elem_of_nightPool in Hs as [? _].
Qed.

Lemma tailInv_dutyDayStep (d : Z) (dutyTypeId : Z) (bump : DutyPattern → DutyPattern)
    (sorted : list Staff.t) (st : GenState) :
  tailInv D N d st → tailInv D N d (dutyDayStep input d dutyTypeId bump sorted st).
Proof.
  intros Hinv. destruct sorted as [|s rest]; simpl; [done|].
  case_decide; [by apply (tailInv_same d st)|].
  rewrite HD. by apply tailInv_assign_day.
Qed.

(** A rest entry has a null shift and leaves the last shift of the load. *)
Lemma tailInv_restStep (d : Z) (dutyTypeId : Z) (bump : DutyPattern → DutyPattern)
    (s : Staff.t) (st : GenState) :
  tailInv D N d st → tailInv D N d (restStep input d dutyTypeId bump st s).
Proof.
  intros [H1 H2 H3]. unfold restStep. split; simpl.
  - intros e. rewrite elem_of_app, list_elem_of_singleton.
    intros [He| ->]; [by apply H1|simpl; lia].
  - intros e1 e2. rewrite !elem_of_app, !list_elem_of_singleton.
    intros [He1| ->] [He2| ->]; simpl; try done. by apply H2.
  - intros e. rewrite elem_of_app, list_elem_of_singleton.
    intros [He| ->] Hd Hday; [|done].
    specialize (H3 e He Hd Hday). unfold lastIsDay, getLoad in *. simpl.
    rewrite lookup_insert. case_decide as Heq; simpl; [rewrite Heq|]; done.
Qed.

Lemma tailInv_restUnassigned (d : Z) (s : Staff.t) (st : GenState) :
  tailInv D N d st → tailInv D N d (restUnassigned st s).
Proof.
  intros [H1 H2 H3]. unfold restUnassigned. case_decide; [done|].
  split; simpl; [done..|].
  intros e He Hd Hday.
  specialize (H3 e He Hd Hday). unfold lastIsDay, getLoad in *. simpl.
  rewrite lookup_insert. case_decide as Heq; simpl; [rewrite Heq|]; done.
Qed.

Lemma tailInv_fold (d : Z) (f : GenState → Staff.t → GenState) (l : list Staff.t)
    (st : GenState) :
  (∀ s st, tailInv D N d st → tailInv D N d (f st s)) →
  tailInv D N d st → tailInv D N d (fold_left f l st).
Proof.
  intros Hf. revert st. induction l as [|s l IH]; intros st Hinv; simpl; [done|].
  by apply IH, Hf.
Qed.

(** One date: from the end of the day before to the end of the day. *)
Lemma tailInv_processDate (d : Z) (st : GenState) :
  tailInv D N (d - 1) st → tailInv D N d (processDate variant input d st).
Proof.
  intros [H1 H2 H3]. unfold processDate.
  assert (loopInv D N d (clearAssigned st)) as H0.
  { split; [split|..]; simpl.
    - intros e He. apply H1 in He. lia.
    - done.
    - intros e He Hd. apply H1 in He. lia.
    - intros e He Hd. apply H1 in He. lia.
    - intros e He Hd Hday. right. by apply H3. }
  apply loopInv_phases in H0; [|done]. apply loop_tail in H0.
  destruct variant.
  - unfold basicTail, basicDuties. apply tailInv_fold; [apply tailInv_restUnassigned|].
    apply tailInv_fold; [intros; by apply tailInv_restStep|].
    apply tailInv_fold; [intros; by apply tailInv_restStep|done].
  - unfold enhancedPostDuty, enhancedPreDuty.
    repeat case_decide; repeat apply tailInv_dutyDayStep; done.
Qed.

Lemma tailInv_dates (n : nat) (start : Z) (st : GenState) :
  tailInv D N (start - 1) st →
  tailInv D N (start + Z.of_nat n - 1)
    (fold_left (λ st date, processDate variant input date st)
               ((λ i : nat, start + Z.of_nat i) <$> seq 0 n) st).
Proof.
  revert start st. induction n as [|n IH]; intros start st Hinv.
  - simpl. by replace (start + Z.of_nat 0 - 1) with (start - 1) by lia.
  - rewrite dateRange_fmap_S. simpl.
    replace (start + Z.of_nat (S n) - 1) with ((start + 1) + Z.of_nat n - 1) by lia.
    apply IH. replace (start + 1 - 1) with start by lia.
    by apply tailInv_processDate.
Qed.

Lemma generateState_rested : restedAfterDay D N (schedules (generateState variant input)).
Proof.
  unfold generateState, dates. rewrite (dateRange_steady c Hsteady).
  eapply tail_rested, tailInv_dates.
  destruct (seedState_logs variant input) as [Hs _].
  split; [intros e|intros e1 e2|intros e]; rewrite Hs; by intros ?%elem_of_nil.
Qed.
End DayNight.

Lemma NoDup_fmap_eq {A B : Type} (f : A → B) (l : list A) (x y : A) :
  NoDup (f <$> l) → x ∈ l → y ∈ l → f x = f y → x = y.
Proof.
  induction l as [|z l IH]; simpl; [by intros _ ?%elem_of_nil|].
  rewrite NoDup_cons, !elem_of_cons. intros [Hz Hnd] [->|Hx] [->|Hy] Heq; try done.
  - exfalso. apply Hz. rewrite Heq. by apply list_elem_of_fmap_2.
  - exfalso. apply Hz. rewrite <- Heq. by apply list_elem_of_fmap_2.
  - by apply IH.
Qed.

Lemma find_fmap_Some {A : Type} (f : A → bool) (g : A → Z) (l : list A) (k : Z) :
  g <$> List.find f l = Some k → ∃ x, x ∈ l ∧ f x = true ∧ g x = k.
Proof.
  destruct (List.find f l) as [x|] eqn:Hfind; [|done]. intros [= <-].
  apply find_some in Hfind as [Hin Hf]. exists x.
  by rewrite list_elem_of_In.
Qed.

Section CatalogFacts.
Variable variant : Variant.
Variable input : ScheduleInput.t.
Hypothesis Hcat : catalogKeyed (ScheduleInput.shiftTypes input).

Lemma dayShiftId_nonzero (D : Z) : dayShiftId input = Some D → D ≠ 0.
Proof.
  intros (t & Hin & _ & <-)%find_fmap_Some. destruct Hcat as [_ Hpos].
  apply (proj1 (Forall_forall _ _) Hpos) in Hin. lia.
Qed.

Lemma dayShiftId_not_night (D N : Z) :
  dayShiftId input = Some D → nightShiftId input = Some N → D ≠ N.
Proof.
  intros (t & Hin & Hname & <-)%find_fmap_Some (t' & Hin' & Hname' & <-)%find_fmap_Some Heq.
  destruct Hcat as [Hnd _].
  assert (t = t') as -> by by eapply NoDup_fmap_eq.
  apply bool_decide_eq_true_1 in Hname, Hname'. congruence.
Qed.

Lemma eveningShiftId_not_night (N : Z) :
  nightShiftId input = Some N → eveningShiftId variant input ≠ Some N.
Proof.
  intros (t' & Hin' & Hname' & <-)%find_fmap_Some (t & Hin & Hname & Heq)%find_fmap_Some.
  destruct Hcat as [Hnd _].
  assert (t = t') as -> by by eapply NoDup_fmap_eq.
  apply bool_decide_eq_true_1 in Hname'.
  destruct variant.
  - apply bool_decide_eq_true_1 in Hname. congruence.
  - apply orb_true_iff in Hname as [Hname|Hname];
      apply bool_decide_eq_true_1 in Hname; congruence.
Qed.
End CatalogFacts.

(** The skipped turn of the night loop: nothing is entered, the member's
    load and mark are untouched, and the turn does not count. *)
Lemma nightStep_skips (variant : Variant) (input : ScheduleInput.t) (date : Z)
    (s : Staff.t) (st : GenState) :
  dayBefore input date (getLoad st (Staff.id s)) = true →
  (nightStep variant input date s st).1 = false
  ∧ sameButConflicts st (nightStep variant input date s st).2.
Proof.
  intros Hb. unfold nightStep. rewrite Hb. simpl. split; [done|].
  set (hs := checkWeekly _ _ _ _).
  assert (sameButConflicts st hs.2) as H1
    by (apply sameButConflicts_checks, sameButConflicts_refl).
  by destruct variant.
Qed.

(** In a zone whose offset never changes, the output of either library
    has no staff member with the day shift on a date and the night shift on
    the next date. *)
Lemma steady_zone_no_night_shift_after_day_shift (variant : Variant)
    (input : ScheduleInput.t) (c D N : Z) (e1 e2 : Schedule.t) :
  steady c →
  catalogKeyed (ScheduleInput.shiftTypes input) →
  rosterKeyed (ScheduleInput.staff input) →
  dayShiftId input = Some D →
  nightShiftId input = Some N →
  e1 ∈ (generateSchedule variant input).1 →
  e2 ∈ (generateSchedule variant input).1 →
  Schedule.staffId e1 = Schedule.staffId e2 →
  Schedule.date e2 = Schedule.date e1 + 1 →
  Schedule.shiftTypeId e1 = Id D →
  Schedule.shiftTypeId e2 ≠ Id N.
Proof.
  intros Hsteady Hcat Hroster HD HN He1 He2 Hid Hdate Hday.
  pose proof (dayShiftId_nonzero input Hcat D HD) as HD0.
  by apply (generateState_rested variant input D N HD HN HD0
              (dayShiftId_not_night input Hcat D N HD HN)
              (eveningShiftId_not_night variant input Hcat N HN) c Hsteady Hroster e1 e2).
Qed.

(** The test of the night loop, on the load of the candidate. *)
Lemma dayBefore_true (input : ScheduleInput.t) (date D : Z) (l : StaffLoad) :
  dayShiftId input = Some D → D ≠ 0 →
  lastShiftType l = Some D → lastShiftDate l = Some (getPreviousDay date) →
  dayBefore input date l = true.
Proof.
  intros HD HD0 Ht Hd. unfold dayBefore. rewrite Ht, HD, Hd.
  by rewrite !bool_decide_eq_true_2.
Qed.

(** ** The conflict policy of the day-shift loop *)

Lemma find_app_fresh {A : Type} (f : A → bool) (l1 l2 : list A) :
  (∀ x, x ∈ l1 → f x = false) → List.find f (l1 ++ l2) = List.find f l2.
Proof.
  induction l1 as [|x l1 IH]; intros Hfresh; simpl; [done|].
  rewrite (Hfresh x) by by left. apply IH. intros y Hy. apply Hfresh. by right.
Qed.

Section DayPolicy.
Variable variant : Variant.
Variable input : ScheduleInput.t.
Variable date : Z.

Lemma checks_spec (l : StaffLoad) (w : Z) (s : Staff.t) (hs0 : bool * GenState) :
  let hs := checkWeekly date w s (checkStreak date l s hs0) in
  conflicts hs.2 = conflicts hs0.2 ++ warnings date l w s
  ∧ hs.1 = hs0.1 || bool_decide (warnings date l w s ≠ [])
  ∧ sameButConflicts hs0.2 hs.2.
Proof.
  unfold checkWeekly, checkStreak, warnings, sameButConflicts.
  destruct hs0 as [h st]. repeat case_decide; simpl;
    rewrite ?app_nil_r, <- ?app_assoc, ?orb_true_r, ?orb_false_r; done.
Qed.

Lemma warnings_head (l : StaffLoad) (w : Z) (s : Staff.t) :
  warnings date l w s ≠ [] →
  ∃ c rest, warnings date l w s = c :: rest ∧ matches date s c = true
            ∧ Conflict.severity c = Warning.
Proof.
  unfold warnings. repeat case_decide; simpl; intros Hne; try done;
    eexists _, _; (split; [done|]); split; try done;
    by apply bool_decide_eq_true_2.
Qed.

(** A turn of the day loop on a state that holds no conflict record for
    this member and date yet. *)
Lemma dayStep_policy (s : Staff.t) (st : GenState) :
  (∀ c, c ∈ conflicts st → matches date s c = false) →
  let r := dayStep variant input date s st in
  let ws := warnings date (getLoad st (Staff.id s)) (getWeekly st (weekKey date) (Staff.id s)) s in
  if hasShiftConflict (Staff.id s) date (ScheduleInput.existingSchedules input)
  then r.1 = false ∧ schedules r.2 = schedules st
       ∧ conflicts r.2 = conflicts st ++ existingError date s :: ws
       ∧ staffLoads r.2 = staffLoads st ∧ assignedShifts r.2 = assignedShifts st
  else r.1 = true ∧ schedules r.2 = schedules st ++ [dayEntry input date s]
       ∧ conflicts r.2 = conflicts st ++ ws
       ∧ Staff.id s ∈ assignedShifts r.2.
Proof.
  intros Hfresh r ws. subst r. unfold dayStep, hasShiftConflict.
  fold ws. set (l := getLoad st (Staff.id s)) in *.
  set (w := getWeekly st _ _) in *.
  unfold mayAssign. fold (matches date s).
  destruct (existsb _ (ScheduleInput.existingSchedules input)).
  - destruct (checks_spec l w s (true, pushConflict (existingError date s) st))
      as (Hc & Hh & Hs & Hl & _ & _ & Ha).
    fold (existingError date s). fold ws in Hc, Hh.
    set (hs := checkWeekly _ _ _ _) in *. simpl in Hc, Hh, Hs, Hl, Ha.
    rewrite Hc, Hh. simpl. rewrite <- app_assoc. simpl.
    rewrite find_app_fresh by done. simpl.
    assert (matches date s (existingError date s) = true) as Hm
      by by apply bool_decide_eq_true_2.
    rewrite Hm. simpl. rewrite <- app_assoc in Hc. done.
  - destruct (checks_spec l w s (false, st)) as (Hc & Hh & Hs & Hl & _ & _ & Ha).
    pose proof (warnings_head l w s) as Hhead.
    fold ws in Hc, Hh, Hhead.
    set (hs := checkWeekly _ _ _ _) in *. simpl in Hc, Hh, Hs, Hl, Ha.
    clearbody ws hs. rewrite Hh. simpl.
    assert (Staff.id s ∈ ({[Staff.id s]} ∪ assignedShifts hs.2 : gset Z)) as Hin
      by (apply elem_of_union_l; by apply elem_of_singleton).
    destruct (decide (ws = [])) as [->|Hne].
    + simpl. rewrite app_nil_r in *. by rewrite Hs, Hc.
    + rewrite (bool_decide_eq_true_2 _ Hne). simpl.
      destruct (Hhead Hne) as (c & rest & -> & Hm & Hsev).
      rewrite Hc, find_app_fresh by done. simpl. rewrite Hm, Hsev. simpl.
      by rewrite Hs, Hc.
Qed.
End DayPolicy.

(** ** Walking a pool in two parts *)

Lemma assignLoop_done (step : Staff.t → GenState → bool * GenState) (count : Z)
    (pool : list Staff.t) (ls : LoopState) :
  count ≤ assigned ls → assignLoop step count pool ls = ls.
Proof. intros Hle. destruct pool; simpl; [done|]. case_decide; [lia|done]. Qed.

Lemma assignLoop_app (step : Staff.t → GenState → bool * GenState) (count : Z)
    (p1 p2 : list Staff.t) (ls : LoopState) :
  assignLoop step count (p1 ++ p2) ls
  = assignLoop step count p2 (assignLoop step count p1 ls).
Proof.
  revert ls. induction p1 as [|s p1 IH]; intros ls; simpl; [done|].
  case_decide; [apply IH|]. rewrite assignLoop_done; [done|lia].
Qed.

(** The counter of a loop never decreases, and never passes the target by
    more than the start value did. *)
Lemma assignLoop_assigned (step : Staff.t → GenState → bool * GenState) (count : Z)
    (pool : list Staff.t) (ls : LoopState) :
  assigned ls ≤ assigned (assignLoop step count pool ls)
  ∧ assigned (assignLoop step count pool ls) ≤ Z.max count (assigned ls).
Proof.
  revert ls. induction pool as [|s pool IH]; intros ls; simpl; [lia|].
  case_decide; [|lia].
  destruct (IH (mkLoop (if (step s (state ls)).1 then assigned ls + 1 else assigned ls)
                       (S (index ls)) (step s (state ls)).2)) as [H1 H2].
  simpl in *. destruct (step s (state ls)).1; lia.
Qed.

Section RunConflicts.
Variable variant : Variant.
Variable input : ScheduleInput.t.

(** The conflict records of a run carry the dates processed so far. *)
Lemma conflicts_fold_dates (l : list Z) (st : GenState) (c : Conflict.t) :
  c ∈ conflicts (fold_left (λ st date, processDate variant input date st) l st) →
  c ∈ conflicts st ∨ Conflict.date c ∈ l.
Proof.
  revert st. induction l as [|d l IH]; intros st Hc; simpl in *; [by left|].
  destruct (IH _ Hc) as [Hc'|?]; [|right; by right].
  destruct (grows_conflicts _ _ _ _ _ (grows_processDate variant input d st) Hc')
    as [?|[<- _]]; [by left|right; by left].
Qed.

Lemma schedules_fold_dates (l : list Z) (st : GenState) (e : Schedule.t) :
  e ∈ schedules (fold_left (λ st date, processDate variant input date st) l st) →
  e ∈ schedules st ∨ Schedule.date e ∈ l.
Proof.
  revert st. induction l as [|d l IH]; intros st He; simpl in *; [by left|].
  destruct (IH _ He) as [He'|?]; [|right; by right].
  destruct (grows_schedules _ _ _ _ _ (grows_processDate variant input d st) He')
    as [?|[<- _]]; [by left|right; by left].
Qed.

(** Before a date is processed for the first time no record carries it. *)
Lemma stateBefore_fresh (pre : list Z) (d : Z) (c : Conflict.t) :
  d ∉ pre →
  c ∈ conflicts (stateBefore variant input pre) → Conflict.date c ≠ d.
Proof.
  intros Hpre Hc Heq. unfold stateBefore in Hc. simpl in Hc.
  apply conflicts_fold_dates in Hc as [Hc|Hc].
  - destruct (seedState_logs variant input) as [_ Hnil].
    rewrite Hnil in Hc. by apply elem_of_nil in Hc.
  - apply Hpre. by rewrite <- Heq.
Qed.

Lemma stateBefore_no_entry (pre : list Z) (d : Z) (e : Schedule.t) :
  d ∉ pre →
  e ∈ schedules (stateBefore variant input pre) → Schedule.date e ≠ d.
Proof.
  intros Hpre He Heq. unfold stateBefore in He. simpl in He.
  apply schedules_fold_dates in He as [He|He].
  - destruct (seedState_logs variant input) as [Hnil _].
    rewrite Hnil in He. by apply elem_of_nil in He.
  - apply Hpre. by rewrite <- Heq.
Qed.

Lemma generateState_split (pre post : list Z) (d : Z) :
  dates input = pre ++ d :: post →
  generateState variant input
  = fold_left (λ st date, processDate variant input date st) post
      (processDate variant input d
         (fold_left (λ st date, processDate variant input date st) pre
                    (seedState variant input))).
Proof. intros Hd. unfold generateState. by rewrite Hd, fold_left_app. Qed.
End RunConflicts.

(** The day-shift loop of either library, at a date that the run processes
    for the first time, and any member [s] of the ranked pool: the turn of
    [s] is [dayStep] on the state the loop has reached.  If [s] has an
    entry in [existingSchedules] on that date, the turn records the
    [existing_assignment] error first, enters nothing, leaves load and mark
    alone and does not count ([r.1 = false]); otherwise the turn records
    the warnings its two checks raise (streak >= 5, weekly count >= 5),
    enters the day shift all the same and counts. *)
Lemma day_shift_policy_on_first_visit (variant : Variant) (input : ScheduleInput.t)
    (pre : list Z) (d : Z) (p1 p2 : list Staff.t) (s : Staff.t) :
  rosterKeyed (ScheduleInput.staff input) →
  d ∉ pre →
  dayPool input d (stateBefore variant input pre) = p1 ++ s :: p2 →
  let st0 := stateBefore variant input pre in
  let target := shiftTarget (length (p1 ++ s :: p2)) 3 in
  let ls := assignLoop (dayStep variant input d) target p1 (mkLoop 0 0 st0) in
  let r := dayStep variant input d s (state ls) in
  let ws := warnings d (getLoad (state ls) (Staff.id s))
                     (getWeekly (state ls) (weekKey d) (Staff.id s)) s in
  dayPhase variant input d (p1 ++ s :: p2) st0
  = (if decide (assigned ls < target)
     then assignLoop (dayStep variant input d) target p2
            (mkLoop (if r.1 then assigned ls + 1 else assigned ls) (S (index ls)) r.2)
     else ls)
  ∧ (if hasShiftConflict (Staff.id s) d (ScheduleInput.existingSchedules input)
     then r.1 = false ∧ schedules r.2 = schedules (state ls)
          ∧ conflicts r.2 = conflicts (state ls) ++ existingError d s :: ws
          ∧ staffLoads r.2 = staffLoads (state ls)
          ∧ assignedShifts r.2 = assignedShifts (state ls)
     else r.1 = true ∧ schedules r.2 = schedules (state ls) ++ [dayEntry input d s]
          ∧ conflicts r.2 = conflicts (state ls) ++ ws
          ∧ Staff.id s ∈ assignedShifts r.2).
Proof.
  intros Hroster Hpre Hpool st0 target ls r ws. split.
  - unfold dayPhase. fold target. rewrite assignLoop_app. fold ls. simpl.
    by case_decide.
  - apply dayStep_policy. intros c Hc.
    apply bool_decide_eq_false_2. intros [Hid Hd].
    assert (grows d (Staff.id <$> p1) st0 (state ls)) as Hg.
    { apply (grows_assignLoop _ _ _ _ _ (mkLoop 0 0 st0)).
      intros s' st' Hs'. by apply grows_dayStep, list_elem_of_fmap_2. }
    destruct (grows_conflicts _ _ _ _ _ Hg Hc) as [Hc'|[_ Hin]].
    + by apply (stateBefore_fresh variant input pre d c).
    + pose proof (NoDup_availableStaff input Hroster d
                    (stateBefore variant input pre)) as Hnd.
      unfold dayPool in Hpool. rewrite Hpool, fmap_app in Hnd.
      apply NoDup_app in Hnd as (_ & Hnd & _).
      apply (Hnd _ Hin). rewrite Hid. simpl. by left.
Qed.

(** ** Targets of the three working-shift phases *)





(** ** The fairness comparator *)

Section Fairness.
Variable input : ScheduleInput.t.
Variable date : Z.
Variable st : GenState.

Lemma compareFairness_trans (a b c : Staff.t) :
  compareFairness input date st a b ≤ 0 → compareFairness input date st b c ≤ 0 →
  compareFairness input date st a c ≤ 0.
Proof.
  unfold compareFairness.
  generalize (bool_decide (Staff.id a ∈ unavailableStaffIds input date))
             (bool_decide (Staff.id b ∈ unavailableStaffIds input date))
             (bool_decide (Staff.id c ∈ unavailableStaffIds input date))
             (bool_decide (specialization (getLoad st (Staff.id a))
                           = Some (ScheduleInput.unit input)))
             (bool_decide (specialization (getLoad st (Staff.id b))
                           = Some (ScheduleInput.unit input)))
             (bool_decide (specialization (getLoad st (Staff.id c))
                           = Some (ScheduleInput.unit input))).
  intros ua ub uc sa sb sc.
  destruct ua, ub, uc; simpl; try lia;
    repeat (try lia; case_decide);
    destruct sa, sb, sc; simpl in *; intuition (try lia; try done).
Qed.

Lemma compareFairness_total (a b : Staff.t) :
  compareFairness input date st a b ≤ 0 ∨ compareFairness input date st b a ≤ 0.
Proof.
  unfold compareFairness.
  generalize (bool_decide (Staff.id a ∈ unavailableStaffIds input date))
             (bool_decide (Staff.id b ∈ unavailableStaffIds input date))
             (bool_decide (specialization (getLoad st (Staff.id a))
                           = Some (ScheduleInput.unit input)))
             (bool_decide (specialization (getLoad st (Staff.id b))
                           = Some (ScheduleInput.unit input))).
  intros ua ub sa sb.
  destruct ua, ub; simpl; try lia;
    repeat (try lia; case_decide);
    destruct sa, sb; simpl in *; intuition (try lia; try done).
Qed.

Lemma compareFairness_antisym (a b : Staff.t) :
  compareFairness input date st a b < 0 → 0 < compareFairness input date st b a.
Proof.
  unfold compareFairness.
  generalize (bool_decide (Staff.id a ∈ unavailableStaffIds input date))
             (bool_decide (Staff.id b ∈ unavailableStaffIds input date))
             (bool_decide (specialization (getLoad st (Staff.id a))
                           = Some (ScheduleInput.unit input)))
             (bool_decide (specialization (getLoad st (Staff.id b))
                           = Some (ScheduleInput.unit input))).
  intros ua ub sa sb.
  destruct ua, ub; simpl; try lia;
    repeat (try lia; case_decide);
    destruct sa, sb; simpl in *; intuition (try lia; try done).
Qed.

Lemma compareFairness_tied (a b : Staff.t) :
  tiedKeys input date st a b → compareFairness input date st a b = Staff.id a - Staff.id b.
Proof.
  intros (Hu & Ht & Hw & Hd & Hs & Hday & He & Hn & Hr & Hspec).
  unfold compareFairness.
  rewrite (decide_False (P := bool_decide _ ≠ bool_decide _)).
  2: { intros Hne. apply Hne. by apply bool_decide_ext. }
  rewrite !decide_False by (intros ?; congruence).
  rewrite decide_False; [done|].
  intros [Hunit Hne]. apply Hne. apply bool_decide_ext. by apply Hspec.
Qed.
End Fairness.

(** ** The basic library keeps one entry per member and date and rests the unassigned *)

Lemma fold_left_invariant (P : GenState → Prop) (f : GenState → Staff.t → GenState)
    (pool : list Staff.t) (st : GenState) :
  NoDup (Staff.id <$> pool) →
  (∀ s, s ∈ pool → Staff.id s ∉ assignedShifts st) →
  (∀ s st, s ∈ pool → P st → Staff.id s ∉ assignedShifts st →
     P (f st s) ∧ assignedShifts (f st s) ⊆ {[Staff.id s]} ∪ assignedShifts st) →
  P st → P (fold_left f pool st).
Proof.
  revert st. induction pool as [|s rest IH]; intros st Hnd Hfresh Hstep HP; simpl; [done|].
  apply NoDup_cons in Hnd as [Hs Hnd].
  destruct (Hstep s st) as [HP' Hsub]; [by left|done|apply Hfresh; by left|].
  apply IH; [done| | |done].
  - intros s' Hs' Hin. apply Hsub in Hin.
    apply elem_of_union in Hin as [Hin|Hin].
    + apply elem_of_singleton in Hin. apply Hs. rewrite <- Hin.
      by apply list_elem_of_fmap_2.
    + apply (Hfresh s'); [by right|done].
  - intros s' st' Hs'. apply Hstep. by right.
Qed.

Lemma uniqueInv_entersOrSkips (d : Z) (s : Staff.t) (st st' : GenState) :
  entersOrSkips d s st st' → uniqueInv d st → Staff.id s ∉ assignedShifts st →
  uniqueInv d st' ∧ assignedShifts st' ⊆ {[Staff.id s]} ∪ assignedShifts st.
Proof.
  intros [[Hs Ha]|(e & Hs & Hd & Hid & Ha)] [H1 H2 H3] Hfresh.
  - split; [|rewrite Ha; apply union_subseteq_r].
    split; rewrite ?Hs, ?Ha; done.
  - split; [|by rewrite Ha]. split; rewrite Hs.
    + intros e'. rewrite elem_of_app, list_elem_of_singleton.
      intros [?| ->]; [by apply H1|lia].
    + rewrite fmap_app. apply NoDup_app. split_and!; [done| |apply NoDup_singleton].
      intros k Hk Hk'. apply list_elem_of_singleton in Hk' as ->.
      apply list_elem_of_fmap in Hk as (e' & Hkey & He').
      injection Hkey as Hid' Hd'. apply Hfresh. rewrite <- Hid, Hid'.
      apply H3; [done|congruence].
    + intros e'. rewrite elem_of_app, list_elem_of_singleton, Ha.
      intros [He'| ->] Hd'.
      * apply elem_of_union_r. by apply H3.
      * apply elem_of_union_l, elem_of_singleton. done.
Qed.

Section Unique.
Variable variant : Variant.
Variable input : ScheduleInput.t.
Variable date : Z.

Lemma entersOrSkips_assign (night : bool) (shiftId : option Z) (dutyTypeId : Z)
    (bump : DutyPattern → DutyPattern) (s : Staff.t) (st st0 : GenState) :
  sameButConflicts st0 st →
  entersOrSkips date s st0
    (markAssigned (Staff.id s) (assign input date night shiftId dutyTypeId bump s st)).
Proof.
  intros (Hs & _ & _ & _ & Ha). right. eexists. simpl. rewrite Hs, Ha. done.
Qed.

Lemma entersOrSkips_same (s : Staff.t) (st st' : GenState) :
  sameButConflicts st st' → entersOrSkips date s st st'.
Proof. intros (Hs & _ & _ & _ & Ha). by left. Qed.

Lemma entersOrSkips_dayStep (s : Staff.t) (st : GenState) :
  entersOrSkips date s st (dayStep variant input date s st).2.
Proof.
  unfold dayStep.
  set (hs0 := if existsb _ _ then _ else _).
  assert (sameButConflicts st hs0.2) as H0 by (subst hs0; by destruct (existsb _ _)).
  set (hs := checkWeekly _ _ _ _).
  assert (sameButConflicts st hs.2) as H1 by by apply sameButConflicts_checks.
  destruct (mayAssign _ _ _ _); cbn [fst snd];
    [by apply entersOrSkips_assign|by apply entersOrSkips_same].
Qed.

Lemma entersOrSkips_eveningStep (s : Staff.t) (st : GenState) :
  entersOrSkips date s st (eveningStep variant input date s st).2.
Proof.
  unfold eveningStep.
  set (hs := checkWeekly _ _ _ _).
  assert (sameButConflicts st hs.2) as H1
    by (apply sameButConflicts_checks, sameButConflicts_refl).
  destruct (mayAssign _ _ _ _); cbn [fst snd];
    [by apply entersOrSkips_assign|by apply entersOrSkips_same].
Qed.

Lemma entersOrSkips_nightStep (s : Staff.t) (st : GenState) :
  entersOrSkips date s st (nightStep variant input date s st).2.
Proof.
  unfold nightStep.
  set (hs := checkWeekly _ _ _ _).
  assert (sameButConflicts st hs.2) as H1
    by (apply sameButConflicts_checks, sameButConflicts_refl).
  destruct (dayBefore _ _ _); cbn [fst snd].
  { apply entersOrSkips_same. by destruct variant. }
  destruct (mayAssign _ _ _ _); cbn [fst snd];
    [by apply entersOrSkips_assign|by apply entersOrSkips_same].
Qed.

Lemma entersOrSkips_restStep (dutyTypeId : Z) (bump : DutyPattern → DutyPattern)
    (s : Staff.t) (st : GenState) :
  entersOrSkips date s st (restStep input date dutyTypeId bump st s).
Proof. right. eexists. by simpl. Qed.

Hypothesis Hroster : rosterKeyed (ScheduleInput.staff input).

(** The three working phases keep the invariant, in either library. *)
Lemma uniqueInv_phases (st : GenState) :
  uniqueInv date st → assignedShifts st = ∅ →
  let pool := dayPool input date st in
  let st1 := state (dayPhase variant input date pool st) in
  let st2 := state (eveningPhase variant input date pool st1) in
  uniqueInv date (state (nightPhase variant input date pool st2)).
Proof.
  intros Hinv Hempty pool st1 st2.
  assert (NoDup (Staff.id <$> pool)) as Hnd by by apply NoDup_availableStaff.
  assert (uniqueInv date st1) as H1.
  { apply (assignLoop_invariant (uniqueInv date) _ _ _ (mkLoop 0 0 st)); simpl;
      [done| |intros; eapply uniqueInv_entersOrSkips; [apply entersOrSkips_dayStep|done|done]|done].
    intros s _. rewrite Hempty. apply not_elem_of_empty. }
  assert (uniqueInv date st2) as H2.
  { apply (assignLoop_invariant (uniqueInv date) _ _ _ (mkLoop 0 0 st1)); simpl;
      [| |intros; eapply uniqueInv_entersOrSkips; [apply entersOrSkips_eveningStep|done|done]|done].
    - unfold eveningPool. destruct variant; [|apply NoDup_fmap_sortBy];
        by apply NoDup_unassigned.
    - intros s Hs. by apply elem_of_eveningPool in Hs as [? _]. }
  apply (assignLoop_invariant (uniqueInv date) _ _ _ (mkLoop 0 0 st2)); simpl;
    [| |intros; eapply uniqueInv_entersOrSkips; [apply entersOrSkips_nightStep|done|done]|done].
  - unfold nightPool. by apply NoDup_fmap_sortBy, NoDup_unassigned.
  - intros s Hs. by apply elem_of_nightPool in Hs as [? _].
Qed.

(** So do the two rest-entry loops of the basic library. *)
Lemma uniqueInv_basicDuties (pool : list Staff.t) (st : GenState) :
  NoDup (Staff.id <$> pool) → uniqueInv date st →
  uniqueInv date (basicDuties input date pool st).
Proof.
  intros Hnd Hinv. unfold basicDuties.
  set (sorted := basicPreDutyPool pool st).
  assert (NoDup (Staff.id <$> sorted)) as Hsorted
    by by apply NoDup_fmap_sortBy, NoDup_unassigned.
  set (st1 := fold_left _ (take _ _) st).
  assert (uniqueInv date st1) as H1.
  { apply fold_left_invariant;
      [| |intros; eapply uniqueInv_entersOrSkips; [apply entersOrSkips_restStep|done|done]|done].
    - rewrite fmap_take. eapply sublist_NoDup; [exact Hsorted|apply sublist_take].
    - intros s Hs. apply elem_of_take in Hs as (i & Hs & _).
      apply list_elem_of_lookup_2 in Hs. unfold sorted, basicPreDutyPool in Hs.
      rewrite elem_of_sortBy in Hs. by apply elem_of_unassigned in Hs as [? _]. }
  apply fold_left_invariant;
    [| |intros; eapply uniqueInv_entersOrSkips; [apply entersOrSkips_restStep|done|done]|done].
  - by apply NoDup_unassigned.
  - intros s Hs. by apply elem_of_unassigned in Hs as [? _].
Qed.

Lemma restUnassigned_logs (l : list Staff.t) (st : GenState) :
  schedules (fold_left restUnassigned l st) = schedules st
  ∧ assignedShifts (fold_left restUnassigned l st) = assignedShifts st.
Proof.
  revert st. induction l as [|s l IH]; intros st; simpl; [done|].
  destruct (IH (restUnassigned st s)) as [-> ->].
  unfold restUnassigned. by case_decide.
Qed.

(** The last loop of a date in the basic library: a roster member left
    unmarked gets the rested load, a marked one keeps its load. *)
Lemma getLoad_restUnassigned (l : list Staff.t) (st : GenState) (s : Staff.t) :
  NoDup (Staff.id <$> l) → s ∈ l →
  getLoad (fold_left restUnassigned l st) (Staff.id s)
  = if decide (Staff.id s ∈ assignedShifts st) then getLoad st (Staff.id s)
    else restedLoad (getLoad st (Staff.id s)).
Proof.
  assert (∀ l st i, i ∉ Staff.id <$> l →
            getLoad (fold_left restUnassigned l st) i = getLoad st i) as Hother.
  { clear. induction l as [|s' l IH]; intros st i Hi; simpl; [done|].
    rewrite fmap_cons, not_elem_of_cons in Hi. destruct Hi as [Hne Hi].
    rewrite IH by done. unfold restUnassigned. case_decide; [done|].
    rewrite getLoad_setLoad. by rewrite decide_False. }
  revert st. induction l as [|s' l IH]; intros st Hnd Hs; [by apply elem_of_nil in Hs|].
  simpl in Hnd. apply NoDup_cons in Hnd as [Hs' Hnd].
  apply elem_of_cons in Hs as [->|Hs]; simpl.
  - rewrite Hother by done. unfold restUnassigned. case_decide; [done|].
    rewrite getLoad_setLoad. by rewrite decide_True.
  - rewrite IH by done.
    assert (Staff.id s' ≠ Staff.id s) as Hne.
    { intros Heq. apply Hs'. rewrite Heq. by apply list_elem_of_fmap_2. }
    assert (assignedShifts (restUnassigned st s') = assignedShifts st) as ->
      by (unfold restUnassigned; by case_decide).
    assert (getLoad (restUnassigned st s') (Staff.id s) = getLoad st (Staff.id s)) as ->.
    { unfold restUnassigned. case_decide; [done|].
      rewrite getLoad_setLoad. by rewrite decide_False. }
    done.
Qed.

End Unique.

(** One date of the basic library, up to its last loop. *)
Lemma uniqueInv_processDate_basic (input : ScheduleInput.t) (date : Z) (st : GenState) :
  rosterKeyed (ScheduleInput.staff input) →
  (∀ e, e ∈ schedules st → Schedule.date e < date) →
  NoDup (entryKey <$> schedules st) →
  let st0 := clearAssigned st in
  let pool := dayPool input date st0 in
  let st3 := state (nightPhase Basic input date pool
               (state (eveningPhase Basic input date pool
                  (state (dayPhase Basic input date pool st0))))) in
  uniqueInv date (basicDuties input date pool st3).
Proof.
  intros Hroster Hdates Hkeys st0 pool st3.
  apply uniqueInv_basicDuties; [by apply NoDup_availableStaff|].
  apply uniqueInv_phases; [done| |done].
  split; simpl; [|done|].
  - intros e He. apply Hdates in He. lia.
  - intros e He Hd. apply Hdates in He. lia.
Qed.

Lemma dates_fold_invariant (P : Z → GenState → Prop) (f : GenState → Z → GenState)
    (n : nat) (start : Z) (st : GenState) :
  (∀ d st, P d st → P (d + 1) (f st d)) →
  P start st →
  P (start + Z.of_nat n) (fold_left f ((λ i : nat, start + Z.of_nat i) <$> seq 0 n) st).
Proof.
  intros Hstep. revert start st. induction n as [|n IH]; intros start st HP.
  - simpl. by replace (start + Z.of_nat 0) with start by lia.
  - rewrite dateRange_fmap_S. simpl.
    replace (start + Z.of_nat (S n)) with ((start + 1) + Z.of_nat n) by lia.
    by apply IH, Hstep.
Qed.

(** In a zone whose offset never changes, the basic library never returns
    two entries for one member and date. *)
Lemma basic_one_entry_per_member_and_date (input : ScheduleInput.t) (c : Z) :
  steady c →
  rosterKeyed (ScheduleInput.staff input) →
  NoDup (entryKey <$> (generateSchedule Basic input).1).
Proof.
  intros Hsteady Hroster. simpl. unfold generateState, dates.
  rewrite (dateRange_steady c Hsteady).
  set (P := λ (d : Z) (st : GenState),
              (∀ e, e ∈ schedules st → Schedule.date e < d)
              ∧ NoDup (entryKey <$> schedules st)).
  apply (dates_fold_invariant P).
  - intros d st [Hdates Hkeys].
    destruct (uniqueInv_processDate_basic input d st Hroster Hdates Hkeys) as [H1 H2 _].
    unfold P, processDate, basicTail.
    destruct (restUnassigned_logs (ScheduleInput.staff input)
                (basicDuties input d (dayPool input d (clearAssigned st))
                   (state (nightPhase Basic input d (dayPool input d (clearAssigned st))
                      (state (eveningPhase Basic input d (dayPool input d (clearAssigned st))
                         (state (dayPhase Basic input d (dayPool input d (clearAssigned st))
                                   (clearAssigned st))))))))) as [-> _].
    split; [|done]. intros e He. apply H1 in He. lia.
  - destruct (seedState_logs Basic input) as [Hs _]. unfold P. rewrite Hs.
    split; [by intros e ?%elem_of_nil|constructor].
Qed.

(** The basic library at the end of a date: a roster member not marked by
    any phase has no entry on that date, a streak of 0 and one more rest
    day. *)
Lemma basic_rests_unassigned (input : ScheduleInput.t) (date : Z) (st : GenState)
    (s : Staff.t) :
  rosterKeyed (ScheduleInput.staff input) →
  (∀ e, e ∈ schedules st → Schedule.date e < date) →
  NoDup (entryKey <$> schedules st) →
  s ∈ ScheduleInput.staff input →
  let st0 := clearAssigned st in
  let pool := dayPool input date st0 in
  let st3 := state (nightPhase Basic input date pool
               (state (eveningPhase Basic input date pool
                  (state (dayPhase Basic input date pool st0))))) in
  let st7 := basicDuties input date pool st3 in
  let final := processDate Basic input date st in
  Staff.id s ∉ assignedShifts st7 →
  consecutiveShifts (getLoad final (Staff.id s)) = 0
  ∧ restDays (getLoad final (Staff.id s)) = restDays (getLoad st7 (Staff.id s)) + 1
  ∧ ∀ e, e ∈ schedules final →
         ¬ (Schedule.staffId e = Staff.id s ∧ Schedule.date e = date).
Proof.
  intros Hroster Hdates Hkeys Hs st0 pool st3 st7 final Hfree.
  destruct (uniqueInv_processDate_basic input date st Hroster Hdates Hkeys)
    as [_ _ Hmarked].
  fold st0 pool st3 st7 in Hmarked.
  assert (final = fold_left restUnassigned (ScheduleInput.staff input) st7) as Hfinal
    by done.
  rewrite Hfinal, getLoad_restUnassigned by done.
  rewrite decide_False by done. split_and!; [done..|].
  intros e He [Hid Hd].
  destruct (restUnassigned_logs (ScheduleInput.staff input) st7) as [Hlog _].
  rewrite Hlog in He. apply Hfree. rewrite <- Hid. by apply Hmarked.
Qed.

(** * Properties of the detector *)

(** ** Reads and writes on the store *)






Section ReadStable.
Variables h h' : gmap ref Cell.
Hypothesis Hsub : h ⊆ h'.






End ReadStable.




(** ** The loops of the basic detector *)

Section RunLength.
Variable schedule : Schedule.t.
Variable allSchedules : list (ref * Schedule.t).

Lemma worksOn_date (d : Z) :
  worksOn schedule allSchedules d = true →
  d ∈ (λ s : ref * Schedule.t, Schedule.date s.2) <$> allSchedules.
Proof.
  unfold worksOn. rewrite existsb_exists. intros (s & Hin & Hs).
  apply bool_decide_eq_true_1 in Hs as (_ & <- & _).
  apply list_elem_of_fmap. exists s. split; [done|by apply list_elem_of_In].
Qed.

(** A loop that has ended within some number of turns gives the same count
    when it is allowed more. *)
Lemma runLength_more_fuel (fuel more : nat) (step : Z → Z) (d n : Z) :
  runLength schedule allSchedules fuel step d = Some n →
  runLength schedule allSchedules (fuel + more) step d = Some n.
Proof.
  revert d n. induction fuel as [|fuel IH]; intros d n; simpl; [done|].
  destruct (worksOn _ _ d); [|done].
  destruct (runLength _ _ fuel step (step d)) as [k|] eqn:Hk; [|done].
  by rewrite (IH _ _ Hk).
Qed.

Lemma runLength_nonneg (fuel : nat) (step : Z → Z) (d n : Z) :
  runLength schedule allSchedules fuel step d = Some n → 0 ≤ n.
Proof.
  revert d n. induction fuel as [|fuel IH]; intros d n; simpl; [done|].
  destruct (worksOn _ _ d); [|intros [= <-]; lia].
  destruct (runLength _ _ fuel step (step d)) as [k|] eqn:Hk; [|done].
  intros [= <-]. apply IH in Hk. lia.
Qed.

(** A loop that moves the date by a fixed number of days, not zero. *)
Section FixedStep.
Variable step : Z → Z.
Variable dir : Z.
Hypothesis Hstep : ∀ d, step d = d + dir.
Hypothesis Hdir : dir ≠ 0.

(** The dates a run of the loop has met: distinct, and all in the array. *)
Lemma runLength_dates (fuel : nat) (d : Z) :
  ∃ l : list Z,
    match runLength schedule allSchedules fuel step d with
    | Some n => n = Z.of_nat (length l)
    | None => length l = fuel
    end
    ∧ NoDup l
    ∧ ∀ x, x ∈ l →
        x ∈ (λ s : ref * Schedule.t, Schedule.date s.2) <$> allSchedules
        ∧ 0 ≤ (x - d) * dir.
Proof.
  revert d. induction fuel as [|fuel IH]; intros d; simpl.
  - exists []. split_and!; [done|constructor|]. by intros x ?%elem_of_nil.
  - destruct (worksOn _ _ d) eqn:Hw.
    + destruct (IH (step d)) as (l & Hlen & Hnd & Hall).
      exists (d :: l). split_and!.
      * destruct (runLength _ _ fuel step (step d)); simpl; [lia|by rewrite Hlen].
      * constructor; [|done]. intros Hin. apply Hall in Hin as [_ Hin].
        rewrite Hstep in Hin. nia.
      * intros x [->|Hx]%elem_of_cons.
        -- split; [by apply worksOn_date|lia].
        -- destruct (Hall x Hx) as [? Hx']. split; [done|]. rewrite Hstep in Hx'. nia.
    + exists []. split_and!; [done|constructor|]. by intros x ?%elem_of_nil.
Qed.

(** With more turns than [allSchedules] has entries the loop has ended. *)
Lemma runLength_returns (fuel : nat) (d : Z) :
  (length allSchedules < fuel)%nat →
  is_Some (runLength schedule allSchedules fuel step d).
Proof.
  intros Hfuel. destruct (runLength_dates fuel d) as (l & Hlen & Hnd & Hall).
  destruct (runLength _ _ fuel step d) as [n|]; [done|exfalso].
  assert (length l ≤ length ((λ s : ref * Schedule.t, Schedule.date s.2) <$> allSchedules))%nat
    as Hle.
  { apply submseteq_length, NoDup_submseteq; [done|]. intros x Hx. by apply Hall. }
  rewrite length_fmap in Hle. lia.
Qed.
End FixedStep.
End RunLength.

(** In a zone whose offset never changes the two loops of the basic
    detector end, and so does the call. *)
Lemma consecutiveAround_returns (c : Z) (schedule : Schedule.t)
    (allSchedules : list (ref * Schedule.t)) (fuel : nat) :
  steady c → (length allSchedules < fuel)%nat →
  is_Some (consecutiveAround schedule allSchedules fuel).
Proof.
  intros Hsteady Hfuel. unfold consecutiveAround.
  destruct (runLength_returns schedule allSchedules getPreviousDay (-1)
              (getPreviousDay_steady c Hsteady) ltac:(done) fuel
              (getPreviousDay (Schedule.date schedule)) Hfuel) as [nb ->].
  destruct (runLength_returns schedule allSchedules getNextDay 1
              (getNextDay_steady c Hsteady) ltac:(done) fuel
              (getNextDay (Schedule.date schedule)) Hfuel) as [nf ->].
  done.
Qed.

Lemma detectBasic_returns (c : Z) (self : ref) (schedule : Schedule.t)
    (allSchedules : list (ref * Schedule.t)) (staffList : list Staff.t)
    (availabilities : list Availability.t) (shiftTypes : list ShiftType.t)
    (fuel : nat) :
  steady c → (length allSchedules < fuel)%nat →
  is_Some (detectBasic self schedule allSchedules staffList availabilities shiftTypes
                       fuel).
Proof.
  intros Hsteady Hfuel. unfold detectBasic.
  destruct (findStaff _ _); [|done].
  by destruct (consecutiveAround_returns c schedule allSchedules fuel Hsteady Hfuel)
    as [n ->].
Qed.

(** The enhanced detector has no such loop. *)
Lemma conflictsOf_returns (v : Variant) (fuel : nat) (self : ref) (a : DetectArgs) :
  v = Enhanced ∨ ((∃ c, steady c) ∧ (length (argSchedules a) < fuel)%nat) →
  is_Some (conflictsOf v fuel self a).
Proof.
  intros [->|[[c Hsteady] Hfuel]]; [done|].
  destruct v; [|done]. by apply (detectBasic_returns c).
Qed.


(** ** Unavailable staff in the detector *)

Lemma detectEnhancedWith_types (schedule : Schedule.t)
    (allSchedules : list (ref * Schedule.t)) (staffList : list Staff.t)
    (sortedDates : list Z) (c : Conflict.t) :
  c ∈ detectEnhancedWith schedule allSchedules staffList sortedDates →
  Conflict.type c = EXISTING_ASSIGNMENT ∨ Conflict.type c = CONSECUTIVE_SHIFTS.
Proof.
  unfold detectEnhancedWith. destruct (findStaff _ _); [|by intros ?%elem_of_nil].
  rewrite elem_of_app. intros [Hc|Hc].
  - destruct (List.find _ _); [|by apply elem_of_nil in Hc].
    apply list_elem_of_singleton in Hc as ->. by left.
  - destruct (maxConsecutiveOf _); [|by apply elem_of_nil in Hc].
    case_decide; [|by apply elem_of_nil in Hc].
    apply list_elem_of_singleton in Hc as ->. by right.
Qed.


(** ** Unavailable staff in the suggester *)

(** C10, as the code has it.  The suggester of [scheduling-algorithm.ts]
    returns no member with an availability record [isAvailable = false] for
    the requested date.  The suggester of
    [enhanced-scheduling-algorithm.ts] does not read the availability
    records: its result is the one for no records at all. *)
Theorem suggest_excludes_unavailable_staff :
  (∀ (staffId date : Z) (shiftTypeId : NullableId) (staff : list Staff.t)
     (schedules : list Schedule.t) (availabilities : list Availability.t)
     (unit : option string) (s : Staff.t) (a : Availability.t),
     s ∈ suggestBasic staffId date shiftTypeId staff schedules availabilities unit →
     a ∈ availabilities →
     Availability.staffId a = Staff.id s →
     Availability.date a = date →
     Availability.isAvailable a = true)
  ∧ (∀ (staffId date : Z) (shiftTypeId : NullableId) (staff : list Staff.t)
       (schedules : list Schedule.t) (availabilities : list Availability.t)
       (unit : option string),
       suggestEnhanced staffId date shiftTypeId staff schedules availabilities unit
       = suggestEnhanced staffId date shiftTypeId staff schedules [] unit).
Proof.
  split; [|done].
  intros staffId date shiftTypeId staff schedules availabilities unit s a Hs Ha Hid Hd.
  unfold suggestBasic in Hs. rewrite elem_of_sortBy in Hs.
  apply list_elem_of_filter in Hs as [Hkeep _].
  destruct (Availability.isAvailable a) eqn:Hav; [done|exfalso].
  rewrite bool_decide_eq_true_2 in Hkeep; [done|].
  apply list_elem_of_fmap. exists a. split; [done|].
  by apply list_elem_of_filter.
Qed.

(** * Further properties *)

(** * What the generator puts in its two output arrays *)

Lemma logsGain_same (P : Schedule.t → Prop) (Q : Conflict.t → Prop) (st st' : GenState) :
  schedules st' = schedules st → conflicts st' = conflicts st → logsGain P Q st st'.
Proof.
  intros Hs Hc. split; exists []; rewrite ?Hs, ?Hc, app_nil_r; by split.
Qed.

Lemma logsGain_refl (P : Schedule.t → Prop) (Q : Conflict.t → Prop) (st : GenState) :
  logsGain P Q st st.
Proof. by apply logsGain_same. Qed.

Lemma logsGain_trans (P : Schedule.t → Prop) (Q : Conflict.t → Prop)
    (st1 st2 st3 : GenState) :
  logsGain P Q st1 st2 → logsGain P Q st2 st3 → logsGain P Q st1 st3.
Proof.
  intros [(n1 & E1 & F1) (m1 & G1 & H1)] [(n2 & E2 & F2) (m2 & G2 & H2)].
  split.
  - exists (n1 ++ n2). rewrite E2, E1, <- app_assoc. split; [done|]. by apply Forall_app.
  - exists (m1 ++ m2). rewrite G2, G1, <- app_assoc. split; [done|]. by apply Forall_app.
Qed.

Lemma logsGain_mono (P P' : Schedule.t → Prop) (Q Q' : Conflict.t → Prop)
    (st st' : GenState) :
  (∀ e, P e → P' e) → (∀ c, Q c → Q' c) → logsGain P Q st st' → logsGain P' Q' st st'.
Proof.
  intros HP HQ [(n & E & F) (m & G & H)]. split.
  - exists n. split; [done|]. eapply Forall_impl; [exact F|exact HP].
  - exists m. split; [done|]. eapply Forall_impl; [exact H|exact HQ].
Qed.

Lemma logsGain_pushSchedule (P : Schedule.t → Prop) (Q : Conflict.t → Prop)
    (e : Schedule.t) (st : GenState) :
  P e → logsGain P Q st (pushSchedule e st).
Proof.
  intros He. split; simpl.
  - exists [e]. split; [done|]. by constructor.
  - exists []. by rewrite app_nil_r.
Qed.

Lemma logsGain_pushConflict (P : Schedule.t → Prop) (Q : Conflict.t → Prop)
    (c : Conflict.t) (st : GenState) :
  Q c → logsGain P Q st (pushConflict c st).
Proof.
  intros Hc. split; simpl.
  - exists []. by rewrite app_nil_r.
  - exists [c]. split; [done|]. by constructor.
Qed.

Lemma logsGain_schedules (P : Schedule.t → Prop) (Q : Conflict.t → Prop)
    (st st' : GenState) :
  logsGain P Q st st' → Forall P (schedules st) → Forall P (schedules st').
Proof. intros [(n & E & F) _] H. rewrite E. by apply Forall_app. Qed.

Lemma logsGain_conflicts (P : Schedule.t → Prop) (Q : Conflict.t → Prop)
    (st st' : GenState) :
  logsGain P Q st st' → Forall Q (conflicts st) → Forall Q (conflicts st').
Proof. intros [_ (n & E & F)] H. rewrite E. by apply Forall_app. Qed.

Lemma logsGain_assignLoop (P : Schedule.t → Prop) (Q : Conflict.t → Prop)
    (step : Staff.t → GenState → bool * GenState) (count : Z)
    (pool : list Staff.t) (ls : LoopState) :
  (∀ s st, s ∈ pool → logsGain P Q st (step s st).2) →
  logsGain P Q (state ls) (state (assignLoop step count pool ls)).
Proof.
  revert ls. induction pool as [|s rest IH]; intros ls Hstep; simpl.
  - apply logsGain_refl.
  - case_decide; [|apply logsGain_refl].
    eapply logsGain_trans; [apply (Hstep s (state ls)); by left|].
    apply (IH (mkLoop _ _ _)). intros s' st' Hs'. apply Hstep. by right.
Qed.

Lemma logsGain_fold (P : Schedule.t → Prop) (Q : Conflict.t → Prop)
    (f : GenState → Staff.t → GenState) (pool : list Staff.t) (st : GenState) :
  (∀ s st, s ∈ pool → logsGain P Q st (f st s)) →
  logsGain P Q st (fold_left f pool st).
Proof.
  revert st. induction pool as [|s rest IH]; intros st Hf; simpl.
  - apply logsGain_refl.
  - eapply logsGain_trans; [apply Hf; by left|].
    apply IH. intros s' st' Hs'. apply Hf. by right.
Qed.

Section Shapes.
Variable input : ScheduleInput.t.
Variable date : Z.

Local Abbreviation gain variant pool :=
  (logsGain (entryAmong variant input date pool) (conflictAmong variant input date pool)).

Lemma entryAmong_intro (variant : Variant) (pool : list Staff.t) (s : Staff.t)
    (shift : NullableId) (dt : Z) :
  s ∈ pool → (shift, dt) ∈ entryKinds variant input →
  entryAmong variant input date pool
    (Schedule.mk None (Staff.id s) date shift dt (Some (ScheduleInput.unit input))).
Proof. intros Hs Hk. by exists s, (shift, dt). Qed.

Lemma conflictAmong_intro (variant : Variant) (pool : list Staff.t) (s : Staff.t) (t : ConflictType)
    (m : Message) (sev : Severity) :
  s ∈ pool → (t, m, sev) ∈ conflictKinds variant input date s →
  conflictAmong variant input date pool (conflictRecord date t s m sev).
Proof. intros Hs Hk. by exists s, (t, m, sev). Qed.

Lemma streak_kind (variant : Variant) (s : Staff.t) :
  (CONSECUTIVE_SHIFTS, MsgExceedsConsecutive MAX_CONSECUTIVE_SHIFTS, Warning)
  ∈ conflictKinds variant input date s.
Proof. unfold conflictKinds. rewrite !elem_of_app. right. left. by left. Qed.

Lemma weekly_kind (variant : Variant) (s : Staff.t) :
  (EXCEEDS_WEEKLY_HOURS, MsgExceedsWeekly MAX_SHIFTS_PER_WEEK, Warning)
  ∈ conflictKinds variant input date s.
Proof. unfold conflictKinds. rewrite !elem_of_app. right. left. right. by left. Qed.

Lemma gain_checks (variant : Variant) (pool : list Staff.t) (l : StaffLoad) (w : Z) (s : Staff.t)
    (st : GenState) (hs : bool * GenState) :
  s ∈ pool → gain variant pool st hs.2 →
  gain variant pool st (checkWeekly date w s (checkStreak date l s hs)).2.
Proof.
  intros Hs H. unfold checkWeekly, checkStreak.
  repeat case_decide; simpl; try done.
  - eapply logsGain_trans; [|apply logsGain_pushConflict, conflictAmong_intro;
                              [done|apply weekly_kind]].
    eapply logsGain_trans; [exact H|].
    apply logsGain_pushConflict, conflictAmong_intro; [done|apply streak_kind].
  - eapply logsGain_trans; [exact H|].
    apply logsGain_pushConflict, conflictAmong_intro; [done|apply weekly_kind].
  - eapply logsGain_trans; [exact H|].
    apply logsGain_pushConflict, conflictAmong_intro; [done|apply streak_kind].
Qed.

Lemma gain_assign (variant : Variant) (pool : list Staff.t) (night : bool) (shiftId : option Z)
    (dutyTypeId : Z) (bump : DutyPattern → DutyPattern) (s : Staff.t) (i : Z)
    (st : GenState) :
  s ∈ pool → (ofOption shiftId, dutyTypeId) ∈ entryKinds variant input →
  gain variant pool st (markAssigned i (assign input date night shiftId dutyTypeId bump s st)).
Proof.
  intros Hs Hk. split; simpl.
  - eexists. split; [done|]. constructor; [|done]. by apply entryAmong_intro.
  - exists []. by rewrite app_nil_r.
Qed.

Lemma gain_assign_unmarked (variant : Variant) (pool : list Staff.t) (night : bool)
    (shiftId : option Z)
    (dutyTypeId : Z) (bump : DutyPattern → DutyPattern) (s : Staff.t)
    (st : GenState) :
  s ∈ pool → (ofOption shiftId, dutyTypeId) ∈ entryKinds variant input →
  gain variant pool st (assign input date night shiftId dutyTypeId bump s st).
Proof.
  intros Hs Hk. split; simpl.
  - eexists. split; [done|]. constructor; [|done]. by apply entryAmong_intro.
  - exists []. by rewrite app_nil_r.
Qed.

Lemma day_kind (variant : Variant) :
  (ofOption (dayShiftId input), dutyId input) ∈ entryKinds variant input.
Proof. unfold entryKinds. rewrite elem_of_app. left. by left. Qed.

Lemma evening_kind (variant : Variant) :
  (ofOption (eveningShiftId variant input), dutyId input) ∈ entryKinds variant input.
Proof. unfold entryKinds. rewrite elem_of_app. left. right. by left. Qed.

Lemma night_kind (variant : Variant) :
  (ofOption (nightShiftId input), dutyId input) ∈ entryKinds variant input.
Proof. unfold entryKinds. rewrite elem_of_app. left. right. right. by left. Qed.

Lemma gain_dayStep (variant : Variant) (pool : list Staff.t) (s : Staff.t) (st : GenState) :
  s ∈ pool → gain variant pool st (dayStep variant input date s st).2.
Proof.
  intros Hs. unfold dayStep.
  set (hs0 := if existsb _ _ then _ else _).
  assert (gain variant pool st hs0.2) as H0.
  { subst hs0.
    destruct (existsb _ _) eqn:Hex; simpl; [|apply logsGain_refl].
    apply logsGain_pushConflict, conflictAmong_intro; [done|].
    unfold conflictKinds, hasShiftConflict. rewrite Hex, elem_of_app. left. by left. }
  set (hs := checkWeekly _ _ _ _).
  assert (gain variant pool st hs.2) as H1 by (subst hs; by apply gain_checks).
  destruct (mayAssign _ _ _ _); simpl; [|done].
  eapply logsGain_trans; [exact H1|]. apply gain_assign; [done|apply day_kind].
Qed.

Lemma gain_eveningStep (variant : Variant) (pool : list Staff.t) (s : Staff.t) (st : GenState) :
  s ∈ pool → gain variant pool st (eveningStep variant input date s st).2.
Proof.
  intros Hs. unfold eveningStep.
  set (hs := checkWeekly _ _ _ _).
  assert (gain variant pool st hs.2) as H1.
  { subst hs. apply gain_checks; [done|]. apply logsGain_refl. }
  destruct (mayAssign _ _ _ _); simpl; [|done].
  eapply logsGain_trans; [exact H1|]. apply gain_assign; [done|apply evening_kind].
Qed.

Lemma gain_nightStep (variant : Variant) (pool : list Staff.t) (s : Staff.t) (st : GenState) :
  s ∈ pool → gain variant pool st (nightStep variant input date s st).2.
Proof.
  intros Hs. unfold nightStep.
  set (hs := checkWeekly _ _ _ _).
  assert (gain variant pool st hs.2) as H1.
  { subst hs. apply gain_checks; [done|]. apply logsGain_refl. }
  destruct (dayBefore _ _ _); simpl.
  - destruct variant eqn:Hv; [|done].
    eapply logsGain_trans; [exact H1|].
    apply logsGain_pushConflict, conflictAmong_intro; [done|].
    unfold conflictKinds. rewrite !elem_of_app. right. right. by left.
  - destruct (mayAssign _ _ _ _); simpl; [|done].
    eapply logsGain_trans; [exact H1|]. apply gain_assign; [done|apply night_kind].
Qed.

Lemma gain_dutyDayStep (variant : Variant) (pool sorted : list Staff.t) (dutyTypeId : Z)
    (bump : DutyPattern → DutyPattern) (st : GenState) :
  (∀ s, s ∈ sorted → s ∈ pool) →
  (ofOption (dayShiftId input), dutyTypeId) ∈ entryKinds variant input →
  gain variant pool st (dutyDayStep input date dutyTypeId bump sorted st).
Proof.
  intros Hsub Hk. destruct sorted as [|s rest]; simpl; [apply logsGain_refl|].
  assert (s ∈ pool) as Hs by (apply Hsub; by left).
  case_decide.
  - apply logsGain_pushConflict, conflictAmong_intro; [done|apply weekly_kind].
  - by apply gain_assign_unmarked.
Qed.

Lemma gain_restStep (variant : Variant) (pool : list Staff.t) (dutyTypeId : Z)
    (bump : DutyPattern → DutyPattern) (s : Staff.t) (st : GenState) :
  s ∈ pool → (Null, dutyTypeId) ∈ entryKinds variant input →
  gain variant pool st (restStep input date dutyTypeId bump st s).
Proof.
  intros Hs Hk. split; simpl.
  - eexists. split; [done|]. constructor; [|done]. by apply entryAmong_intro.
  - exists []. by rewrite app_nil_r.
Qed.

Lemma gain_restUnassigned (variant : Variant) (pool : list Staff.t) (l : list Staff.t)
    (st : GenState) :
  gain variant pool st (fold_left restUnassigned l st).
Proof.
  apply logsGain_fold. intros s st' _. unfold restUnassigned.
  case_decide; [apply logsGain_refl|]. by apply logsGain_same.
Qed.

(** Processing one date adds entries and conflict records of that date,
    for available staff, of the kinds of the library. *)
Lemma gain_processDate (variant : Variant) (st : GenState) :
  gain variant (availablePool input date) st (processDate variant input date st).
Proof.
  unfold processDate.
  set (st0 := clearAssigned st).
  set (pool := dayPool input date st0).
  assert (∀ s, s ∈ pool → s ∈ availablePool input date) as Hpool.
  { intros s. subst pool. unfold dayPool. by rewrite elem_of_availableStaff. }
  set (ls1 := dayPhase variant input date pool st0).
  set (ls2 := eveningPhase variant input date pool (state ls1)).
  set (ls3 := nightPhase variant input date pool (state ls2)).
  assert (gain variant (availablePool input date) st (state ls1)) as H1.
  { eapply logsGain_trans; [by apply logsGain_same|].
    apply (logsGain_assignLoop _ _ _ _ _ (mkLoop 0 0 st0)).
    intros s st' Hs. apply gain_dayStep, Hpool, Hs. }
  assert (gain variant (availablePool input date) (state ls1) (state ls2)) as H2.
  { apply (logsGain_assignLoop _ _ _ _ _ (mkLoop 0 0 (state ls1))).
    intros s st' Hs. apply gain_eveningStep, Hpool.
    by apply (elem_of_eveningPool variant) in Hs as [_ ?]. }
  assert (gain variant (availablePool input date) (state ls2) (state ls3)) as H3.
  { apply (logsGain_assignLoop _ _ _ _ _ (mkLoop 0 0 (state ls2))).
    intros s st' Hs. apply gain_nightStep, Hpool.
    by apply (elem_of_nightPool variant) in Hs as [_ ?]. }
  eapply logsGain_trans; [exact H1|].
  eapply logsGain_trans; [exact H2|].
  eapply logsGain_trans; [exact H3|].
  destruct variant eqn:Hv.
  - unfold basicTail.
    eapply logsGain_trans; [|apply gain_restUnassigned].
    unfold basicDuties.
    set (un := basicPreDutyPool pool (state ls3)).
    assert (∀ s, s ∈ un → s ∈ availablePool input date) as Hun.
    { intros s. subst un. unfold basicPreDutyPool.
      rewrite elem_of_sortBy, elem_of_unassigned. intros [_ ?]. by apply Hpool. }
    eapply logsGain_trans.
    + apply (logsGain_fold _ _ (restStep input date (preDutyId input) bumpPreDuty)).
      intros s st' Hs. apply gain_restStep.
      * apply Hun. apply elem_of_take in Hs as (i & Hi & _).
        by eapply list_elem_of_lookup_2.
      * unfold entryKinds. rewrite elem_of_app. right. by left.
    + apply logsGain_fold. intros s st' Hs. apply gain_restStep.
      * apply Hun. by apply elem_of_unassigned in Hs as [_ ?].
      * unfold entryKinds. rewrite elem_of_app. right. right. by left.
  - apply (logsGain_trans _ _ _ (enhancedPreDuty input date pool (state ls3))).
    + unfold enhancedPreDuty. case_decide; [|apply logsGain_refl].
      apply gain_dutyDayStep.
      * intros s. rewrite elem_of_sortBy, elem_of_unassigned. intros [_ ?]. by apply Hpool.
      * unfold entryKinds. rewrite elem_of_app. right. by left.
    + unfold enhancedPostDuty. case_decide; [|apply logsGain_refl].
      apply gain_dutyDayStep.
      * intros s. rewrite elem_of_sortBy, elem_of_unassigned. intros [_ ?]. by apply Hpool.
      * unfold entryKinds. rewrite elem_of_app. right. right. by left.
Qed.
End Shapes.

Section ShapeRun.
Variable variant : Variant.
Variable input : ScheduleInput.t.

(** The two arrays a run returns hold records of the dates of the range,
    for staff available on the date, of the kinds of the library. *)
Lemma generateState_shapes :
  Forall (λ e, ∃ d, d ∈ dates input
                    ∧ entryAmong variant input d (availablePool input d) e)
         (schedules (generateState variant input))
  ∧ Forall (λ c, ∃ d, d ∈ dates input
                      ∧ conflictAmong variant input d (availablePool input d) c)
           (conflicts (generateState variant input)).
Proof.
  apply generateState_ind.
  - destruct (seedState_logs variant input) as [-> ->]. by split.
  - intros d st Hd [Hs Hc].
    pose proof (gain_processDate input d variant st) as Hg.
    assert (logsGain
              (λ e, ∃ d, d ∈ dates input
                         ∧ entryAmong variant input d (availablePool input d) e)
              (λ c, ∃ d, d ∈ dates input
                         ∧ conflictAmong variant input d (availablePool input d) c)
              st (processDate variant input d st)) as Hg'.
    { eapply logsGain_mono; [| |exact Hg]; intros x Hx; by exists d. }
    split; [by eapply logsGain_schedules|by eapply logsGain_conflicts].
Qed.
End ShapeRun.

(** X1.  Every entry either library returns: it has no [id] yet and carries the
    [unit] of the input; its date is a date of the range; its staff id is
    that of a roster member; it is a working shift (day, evening or night
    shift id, duty type "Duty") or a pre-duty or post-duty entry, the
    latter two with a null shift in the basic library and with the day
    shift id in the enhanced one. *)
Theorem generated_entry_shape (variant : Variant) (input : ScheduleInput.t)
    (e : Schedule.t) :
  e ∈ (generateSchedule variant input).1 →
  Schedule.id e = None
  ∧ Schedule.unit e = Some (ScheduleInput.unit input)
  ∧ ScheduleInput.startDate input ≤ Schedule.date e ≤ ScheduleInput.endDate input
  ∧ (∃ s, s ∈ ScheduleInput.staff input ∧ Staff.id s = Schedule.staffId e)
  ∧ ((Schedule.dutyTypeId e = dutyId input
      ∧ Schedule.shiftTypeId e
        ∈ [ofOption (dayShiftId input); ofOption (eveningShiftId variant input);
           ofOption (nightShiftId input)])
     ∨ (Schedule.dutyTypeId e ∈ [preDutyId input; postDutyId input]
        ∧ Schedule.shiftTypeId e
          = match variant with
            | Basic => Null
            | Enhanced => ofOption (dayShiftId input)
            end)).
Proof.
  intros He. simpl in He.
  destruct (generateState_shapes variant input) as [Hs _].
  apply (proj1 (Forall_forall _ _) Hs) in He as (d & Hd & s & k & Hpool & Hk & ->).
  apply elem_of_dateRange in Hd. apply elem_of_availablePool in Hpool as [_ Hstaff].
  simpl. split_and!; [done|done|lia|lia|by exists s|].
  unfold entryKinds in Hk. apply elem_of_app in Hk as [Hk|Hk].
  - left. set_unfold. destruct Hk as [->|[->|[->|[]]]]; simpl; auto.
  - right. destruct variant; set_unfold; destruct Hk as [->|[->|[]]]; simpl; auto.
Qed.

(** X2.  Every conflict record either library's generator returns: its date is
    a date of the range; its staff id and name are those of a roster member
    who is not recorded as unavailable on that date; it is an
    [existing_assignment] error for a member with an entry in
    [existingSchedules] on that date, a [consecutive_shifts] or
    [exceeds_weekly_hours] warning, or, in the basic library only, a
    [rest_period_violation] error.  The generator records no
    [unavailable_staff] and no [specialization_mismatch] conflict. *)
Theorem generated_conflict_shape (variant : Variant) (input : ScheduleInput.t)
    (c : Conflict.t) :
  c ∈ (generateSchedule variant input).2 →
  ScheduleInput.startDate input ≤ Conflict.date c ≤ ScheduleInput.endDate input
  ∧ (∃ s, s ∈ ScheduleInput.staff input
          ∧ (Staff.id s ∉ unavailableStaffIds input (Conflict.date c))
          ∧ Conflict.staffId c = Staff.id s ∧ Conflict.staffName c = fullName s)
  ∧ ((Conflict.type c = EXISTING_ASSIGNMENT ∧ Conflict.severity c = Error
      ∧ Conflict.message c = MsgAlreadyHasAssignmentOn (Conflict.date c)
      ∧ hasShiftConflict (Conflict.staffId c) (Conflict.date c)
          (ScheduleInput.existingSchedules input) = true)
     ∨ (Conflict.type c = CONSECUTIVE_SHIFTS ∧ Conflict.severity c = Warning
        ∧ Conflict.message c = MsgExceedsConsecutive MAX_CONSECUTIVE_SHIFTS)
     ∨ (Conflict.type c = EXCEEDS_WEEKLY_HOURS ∧ Conflict.severity c = Warning
        ∧ Conflict.message c = MsgExceedsWeekly MAX_SHIFTS_PER_WEEK)
     ∨ (variant = Basic ∧ Conflict.type c = REST_PERIOD_VIOLATION
        ∧ Conflict.severity c = Error ∧ Conflict.message c = MsgRestDayNight)).
Proof.
  intros Hc. simpl in Hc.
  destruct (generateState_shapes variant input) as [_ Hs].
  apply (proj1 (Forall_forall _ _) Hs) in Hc as (d & Hd & s & k & Hpool & Hk & ->).
  apply elem_of_dateRange in Hd. apply elem_of_availablePool in Hpool as [Hav Hstaff].
  simpl. split_and!; [lia|lia|by exists s|].
  unfold conflictKinds in Hk. rewrite !elem_of_app in Hk.
  destruct Hk as [Hk|[Hk|Hk]].
  - left. destruct (hasShiftConflict _ _ _) eqn:Hex; set_unfold; [|done].
    destruct Hk as [->|[]]. by simpl.
  - set_unfold. destruct Hk as [->|[->|[]]]; simpl; auto 10.
  - destruct variant; set_unfold; [|done]. destruct Hk as [->|[]]. simpl. auto 10.
Qed.

(** X3.  With no roster member, or with an end date before the start date,
    either library returns no entry and no conflict. *)
Theorem nothing_generated_without_staff_or_dates (variant : Variant)
    (input : ScheduleInput.t) :
  ScheduleInput.staff input = []
  ∨ ScheduleInput.endDate input < ScheduleInput.startDate input →
  generateSchedule variant input = ([], []).
Proof.
  intros [Hstaff|Hdates].
  - destruct (generateState_shapes variant input) as [Hs Hc].
    unfold generateSchedule. f_equal.
    + destruct (schedules _) as [|e l]; [done|exfalso].
      apply Forall_cons in Hs as [(d & _ & s & _ & Hpool & _) _].
      apply elem_of_availablePool in Hpool as [_ Hin]. rewrite Hstaff in Hin.
      by apply elem_of_nil in Hin.
    + destruct (conflicts _) as [|c l]; [done|exfalso].
      apply Forall_cons in Hc as [(d & _ & s & _ & Hpool & _) _].
      apply elem_of_availablePool in Hpool as [_ Hin]. rewrite Hstaff in Hin.
      by apply elem_of_nil in Hin.
  - unfold generateSchedule, generateState, dates.
    rewrite dateRange_empty by done. simpl.
    by destruct (seedState_logs variant input) as [-> ->].
Qed.

(** * Who gets the working shifts of a date *)

Lemma find_app_none_r {A : Type} (f : A → bool) (l1 l2 : list A) :
  (∀ x, x ∈ l2 → f x = false) → List.find f (l1 ++ l2) = List.find f l1.
Proof.
  intros H. induction l1 as [|x l1 IH]; simpl.
  - induction l2 as [|y l2 IH2]; simpl; [done|].
    rewrite (H y) by by left. apply IH2. intros z Hz. apply H. by right.
  - by destruct (f x).
Qed.

Lemma find_app_Some {A : Type} (f : A → bool) (l1 l2 : list A) (x : A) :
  List.find f l1 = Some x → List.find f (l1 ++ l2) = Some x.
Proof.
  induction l1 as [|y l1 IH]; simpl; [done|]. by destruct (f y).
Qed.

Lemma filter_ext_elem {A : Type} (P Q : A → Prop) `{∀ x, Decision (P x)}
    `{∀ x, Decision (Q x)} (l : list A) :
  (∀ x, x ∈ l → P x ↔ Q x) → filter P l = filter Q l.
Proof.
  induction l as [|x l IH]; intros Hext; [done|].
  rewrite !filter_cons.
  assert (filter P l = filter Q l) as -> by (apply IH; intros; apply Hext; by right).
  destruct (decide (P x)) as [HP|HP], (decide (Q x)) as [HQ|HQ]; try done.
  - exfalso. apply HQ. apply Hext; [by left|done].
  - exfalso. apply HP. apply Hext; [by left|done].
Qed.

Section Frames.
Variable input : ScheduleInput.t.
Variable date : Z.

Lemma getWeekly_assign (night : bool) (shiftId : option Z) (dutyTypeId : Z)
    (bump : DutyPattern → DutyPattern) (s : Staff.t) (st : GenState) (k j : Z) :
  j ≠ Staff.id s →
  getWeekly (assign input date night shiftId dutyTypeId bump s st) k j = getWeekly st k j.
Proof.
  intros Hne. unfold assign, getWeekly. simpl.
  rewrite lookup_insert_ne; [done|]. intros [= _ ?]. by apply Hne.
Qed.

Lemma getWeekly_same (st st' : GenState) (k j : Z) :
  sameButConflicts st st' → getWeekly st' k j = getWeekly st k j.
Proof. intros (_ & _ & _ & Hw & _). unfold getWeekly. by rewrite Hw. Qed.

Lemma sameFor_refl (s : Staff.t) (st : GenState) : sameFor date s st st.
Proof. by split_and!. Qed.

Lemma sameFor_trans (s : Staff.t) (st1 st2 st3 : GenState) :
  sameFor date s st1 st2 → sameFor date s st2 st3 → sameFor date s st1 st3.
Proof.
  intros (L1 & W1 & F1) (L2 & W2 & F2). split_and!; congruence.
Qed.

Lemma warned_same (s : Staff.t) (st st' : GenState) :
  sameFor date s st st' → warned date st' s = warned date st s.
Proof. intros (L & W & _). unfold warned. by rewrite L, W. Qed.

Lemma errorFirst_same (s : Staff.t) (st st' : GenState) :
  sameFor date s st st' → errorFirst date st' s = errorFirst date st s.
Proof. intros (_ & _ & F). unfold errorFirst. by rewrite F. Qed.

Lemma dayPassesOver_same (s : Staff.t) (st st' : GenState) :
  sameFor date s st st' → dayPassesOver input date st' s = dayPassesOver input date st s.
Proof.
  intros Hs. unfold dayPassesOver. rewrite (warned_same _ _ _ Hs).
  destruct Hs as (_ & _ & F). by rewrite F.
Qed.

Lemma eveningPassesOver_same (s : Staff.t) (st st' : GenState) :
  sameFor date s st st' → eveningPassesOver date st' s = eveningPassesOver date st s.
Proof.
  intros Hs. unfold eveningPassesOver.
  by rewrite (warned_same _ _ _ Hs), (errorFirst_same _ _ _ Hs).
Qed.

Lemma nightPassesOver_same (s : Staff.t) (st st' : GenState) :
  sameFor date s st st' →
  nightPassesOver input date st' s = nightPassesOver input date st s.
Proof.
  intros Hs. unfold nightPassesOver.
  rewrite (warned_same _ _ _ Hs), (errorFirst_same _ _ _ Hs).
  destruct Hs as (L & _ & _). by rewrite L.
Qed.

(** Records of one member do not show in the search for another. *)
Lemma matches_other (s s' : Staff.t) (c : Conflict.t) :
  Staff.id s' ≠ Staff.id s → matches date s c = true → matches date s' c = false.
Proof.
  intros Hne Hm. apply bool_decide_eq_true_1 in Hm as [Hid _].
  apply bool_decide_eq_false_2. intros [Hid' _]. congruence.
Qed.

(** What a turn that appended records of [s] and entered at most [s]
    leaves of another member. *)
Lemma sameFor_turn (s s' : Staff.t) (st hs st' : GenState) (new : list Conflict.t) :
  Staff.id s' ≠ Staff.id s →
  sameButConflicts st hs → conflicts hs = conflicts st ++ new →
  Forall (λ c, matches date s c = true) new →
  (∀ j, j ≠ Staff.id s → getLoad st' j = getLoad hs j
                        ∧ getWeekly st' (weekKey date) j = getWeekly hs (weekKey date) j) →
  conflicts st' = conflicts hs →
  sameFor date s' st st'.
Proof.
  intros Hne Hsame Hc Hnew Hframe Hc'.
  destruct (Hframe (Staff.id s') Hne) as [HL HW].
  split_and!.
  - by rewrite HL, (getLoad_same st hs).
  - by rewrite HW, (getWeekly_same st hs).
  - unfold firstRecord. rewrite Hc', Hc. apply find_app_none_r.
    intros c Hin. eapply matches_other; [done|].
    by apply (proj1 (Forall_forall _ _) Hnew).
Qed.

Lemma frame_assign (night : bool) (shiftId : option Z) (dutyTypeId : Z)
    (bump : DutyPattern → DutyPattern) (s : Staff.t) (st : GenState) (j : Z) :
  j ≠ Staff.id s →
  getLoad (markAssigned (Staff.id s)
             (assign input date night shiftId dutyTypeId bump s st)) j = getLoad st j
  ∧ getWeekly (markAssigned (Staff.id s)
                 (assign input date night shiftId dutyTypeId bump s st)) (weekKey date) j
    = getWeekly st (weekKey date) j.
Proof.
  intros Hne. split.
  - change (getLoad (markAssigned _ ?x) j) with (getLoad x j).
    rewrite getLoad_assign. by case_decide.
  - change (getWeekly (markAssigned _ ?x) ?k j) with (getWeekly x k j).
    by apply getWeekly_assign.
Qed.

Lemma Forall_warnings (l : StaffLoad) (w : Z) (s : Staff.t) :
  Forall (λ c, matches date s c = true ∧ Conflict.severity c = Warning)
         (warnings date l w s).
Proof.
  unfold warnings. repeat case_decide; simpl; repeat constructor;
    by apply bool_decide_eq_true_2.
Qed.
End Frames.

Section Turns.
Variable input : ScheduleInput.t.
Variable date : Z.

Lemma find_None_fresh {A : Type} (f : A → bool) (l : list A) :
  List.find f l = None → ∀ x, x ∈ l → f x = false.
Proof.
  intros Hnone x Hx. apply (find_none f l Hnone). by apply list_elem_of_In.
Qed.

(** The test [!hasConflict || conflicts.find(..)?.severity === "warning"]
    after the two warning checks, when nothing else was recorded in the
    turn. *)
Lemma mayAssign_after_warnings (s : Staff.t) (st hs : GenState) (ws : list Conflict.t) :
  conflicts hs = conflicts st ++ ws →
  Forall (λ c, matches date s c = true ∧ Conflict.severity c = Warning) ws →
  mayAssign date (bool_decide (ws ≠ [])) hs s
  = negb (bool_decide (ws ≠ []) && errorFirst date st s).
Proof.
  intros Hc Hws. unfold mayAssign, errorFirst, firstRecord.
  fold (matches date s). rewrite Hc.
  destruct ws as [|c rest].
  - by rewrite bool_decide_eq_false_2 by (intros H; by apply H).
  - rewrite bool_decide_eq_true_2 by done. simpl.
    destruct (List.find (matches date s) (conflicts st)) as [c0|] eqn:Hfind.
    + rewrite (find_app_Some _ _ _ _ Hfind).
      by destruct (Conflict.severity c0).
    + rewrite find_app_fresh by by apply find_None_fresh.
      apply Forall_cons in Hws as [[Hm Hsev] _]. simpl. rewrite Hm.
      by apply bool_decide_eq_true_2.
Qed.

Lemma schedules_mark_assign (night : bool) (shiftId : option Z) (dutyTypeId : Z)
    (bump : DutyPattern → DutyPattern) (s : Staff.t) (hs : GenState) :
  schedules (markAssigned (Staff.id s)
               (assign input date night shiftId dutyTypeId bump s hs))
  = schedules hs ++ [Schedule.mk None (Staff.id s) date (ofOption shiftId) dutyTypeId
                       (Some (ScheduleInput.unit input))].
Proof. done. Qed.

(** The part of a turn after the checks: assign and mark, or leave. *)
Lemma turn_outcome (night : bool) (shiftId : option Z) (bump : DutyPattern → DutyPattern)
    (s : Staff.t) (st hs : GenState) (new : list Conflict.t) (over : bool) :
  sameButConflicts st hs → conflicts hs = conflicts st ++ new →
  Forall (λ c, matches date s c = true) new →
  let r := if negb over
           then (true, markAssigned (Staff.id s)
                         (assign input date night shiftId (dutyId input) bump s hs))
           else (false, hs) in
  r.1 = negb over
  ∧ schedules r.2
    = schedules st ++ (if over then []
                       else [Schedule.mk None (Staff.id s) date (ofOption shiftId)
                               (dutyId input) (Some (ScheduleInput.unit input))])
  ∧ assignedShifts r.2
    = (if over then assignedShifts st else {[Staff.id s]} ∪ assignedShifts st)
  ∧ (over = true → staffLoads r.2 = staffLoads st)
  ∧ ∀ s', Staff.id s' ≠ Staff.id s → sameFor date s' st r.2.
Proof.
  intros Hsame Hc Hnew. pose proof Hsame as (Hs & Hl & _ & _ & Ha).
  destruct over; simpl.
  - rewrite app_nil_r. split_and!; [done..|].
    intros s' Hne. by eapply (sameFor_turn date s s' st hs hs new).
  - rewrite Hs, Ha. split_and!; [done..|].
    intros s' Hne. eapply (sameFor_turn date s s' st hs _ new); try done.
    intros j Hj. by apply frame_assign.
Qed.

Lemma dayStep_turn (variant : Variant) :
  turnSpec date (dayStep variant input date) (dayEntry input date)
           (dayPassesOver input date).
Proof.
  intros s st. unfold dayStep, dayPassesOver, booked, hasShiftConflict.
  set (l := getLoad st (Staff.id s)). set (w := getWeekly st _ _).
  pose proof (Forall_warnings date l w s) as Hws.
  assert (warned date st s = bool_decide (warnings date l w s ≠ [])) as Hwarned by done.
  destruct (existsb _ (ScheduleInput.existingSchedules input)).
  - destruct (checks_spec date l w s (true, pushConflict (existingError date s) st))
      as (Hc & Hh & Hsame).
    fold (existingError date s).
    set (hs := checkWeekly _ _ _ _) in *. simpl in Hc, Hh, Hsame.
    assert (sameButConflicts st hs.2) as Hsame' by (by destruct Hsame as (?&?&?&?&?)).
    rewrite <- app_assoc in Hc.
    assert (Forall (λ c, matches date s c = true)
                   ([existingError date s] ++ warnings date l w s)) as Hnew.
    { apply Forall_app. split; [repeat constructor; by apply bool_decide_eq_true_2|].
      eapply Forall_impl; [exact Hws|]. by intros c [? _]. }
    assert (mayAssign date hs.1 hs.2 s
            = negb (match firstRecord date st s with
                    | Some c => true && bool_decide (Conflict.severity c ≠ Warning)
                    | None => true
                    end)) as ->.
    { rewrite Hh. unfold mayAssign, firstRecord. fold (matches date s). rewrite Hc. simpl.
      destruct (List.find (matches date s) (conflicts st)) as [c0|] eqn:Hfind.
      - rewrite (find_app_Some _ _ _ _ Hfind).
        by destruct (Conflict.severity c0).
      - rewrite find_app_fresh by by apply find_None_fresh.
        assert (matches date s (existingError date s) = true) as Hm
          by by apply bool_decide_eq_true_2.
        simpl. by rewrite Hm. }
    apply (turn_outcome false (dayShiftId input)
             (bumpShift variant bumpDayShift) s st hs.2 _ _ Hsame' Hc Hnew).
  - destruct (checks_spec date l w s (false, st)) as (Hc & Hh & Hsame).
    set (hs := checkWeekly _ _ _ _) in *. simpl in Hc, Hh, Hsame.
    assert (Forall (λ c, matches date s c = true) (warnings date l w s)) as Hnew.
    { eapply Forall_impl; [exact Hws|]. by intros c [? _]. }
    assert (mayAssign date hs.1 hs.2 s
            = negb (match firstRecord date st s with
                    | Some c => (false || warned date st s)
                                && bool_decide (Conflict.severity c ≠ Warning)
                    | None => false
                    end)) as ->.
    { rewrite Hh. simpl. rewrite (mayAssign_after_warnings s st hs.2 _ Hc Hws).
      rewrite Hwarned. unfold errorFirst.
      destruct (firstRecord date st s); [done|]. by rewrite andb_false_r. }
    apply (turn_outcome false (dayShiftId input)
             (bumpShift variant bumpDayShift) s st hs.2 _ _ Hsame Hc Hnew).
Qed.

Lemma eveningStep_turn (variant : Variant) :
  turnSpec date (eveningStep variant input date) (eveningEntry variant input date)
           (eveningPassesOver date).
Proof.
  intros s st. unfold eveningStep, eveningPassesOver.
  set (l := getLoad st (Staff.id s)). set (w := getWeekly st _ _).
  pose proof (Forall_warnings date l w s) as Hws.
  assert (warned date st s = bool_decide (warnings date l w s ≠ [])) as Hwarned by done.
  destruct (checks_spec date l w s (false, st)) as (Hc & Hh & Hsame).
  set (hs := checkWeekly _ _ _ _) in *. simpl in Hc, Hh, Hsame.
  assert (Forall (λ c, matches date s c = true) (warnings date l w s)) as Hnew.
  { eapply Forall_impl; [exact Hws|]. by intros c [? _]. }
  rewrite Hh. simpl. rewrite (mayAssign_after_warnings s st hs.2 _ Hc Hws), <- Hwarned.
  apply (turn_outcome false (eveningShiftId variant input)
           (bumpShift variant bumpEveningShift) s st hs.2 _ _ Hsame Hc Hnew).
Qed.

Lemma nightStep_turn (variant : Variant) :
  turnSpec date (nightStep variant input date) (nightEntry input date)
           (nightPassesOver input date).
Proof.
  intros s st. unfold nightStep, nightPassesOver.
  set (l := getLoad st (Staff.id s)). set (w := getWeekly st _ _).
  pose proof (Forall_warnings date l w s) as Hws.
  assert (warned date st s = bool_decide (warnings date l w s ≠ [])) as Hwarned by done.
  destruct (checks_spec date l w s (false, st)) as (Hc & Hh & Hsame).
  set (hs := checkWeekly _ _ _ _) in *. simpl in Hc, Hh, Hsame.
  assert (Forall (λ c, matches date s c = true) (warnings date l w s)) as Hnew.
  { eapply Forall_impl; [exact Hws|]. by intros c [? _]. }
  destruct (dayBefore input date l).
  - simpl. pose proof Hsame as (Hs & Hl & _ & _ & Ha).
    rewrite app_nil_r. destruct variant; simpl.
    + split_and!; [done..|]. intros s' Hne.
      set (c := conflictRecord date REST_PERIOD_VIOLATION s MsgRestDayNight Error).
      apply (sameFor_turn date s s' st (pushConflict c hs.2) (pushConflict c hs.2)
               (warnings date l w s ++ [c])); [done| | | |done|done].
      * by destruct Hsame as (?&?&?&?&?).
      * simpl. by rewrite Hc, app_assoc.
      * apply Forall_app. split; [done|]. repeat constructor.
        by apply bool_decide_eq_true_2.
    + split_and!; [done..|]. intros s' Hne.
      by eapply (sameFor_turn date s s' st hs.2 hs.2 (warnings date l w s)).
  - rewrite Hh. simpl. rewrite (mayAssign_after_warnings s st hs.2 _ Hc Hws), <- Hwarned.
    apply (turn_outcome true (nightShiftId input)
             (bumpShift variant bumpNightShift) s st hs.2 _ _ Hsame Hc Hnew).
Qed.
End Turns.

(** A loop whose turns follow [turnSpec], over a pool with pairwise
    different ids: it enters the first [count - assigned] members of the
    pool that it does not pass over, judged on the state it starts in. *)
Lemma assignLoop_chosen (date : Z) (step : Staff.t → GenState → bool * GenState)
    (entryOf : Staff.t → Schedule.t) (over : GenState → Staff.t → bool)
    (count : Z) (pool : list Staff.t) (ls : LoopState) :
  turnSpec date step entryOf over →
  (∀ s st st', sameFor date s st st' → over st' s = over st s) →
  NoDup (Staff.id <$> pool) →
  let cs := chosen over (count - assigned ls) pool (state ls) in
  let ls' := assignLoop step count pool ls in
  schedules (state ls') = schedules (state ls) ++ (entryOf <$> cs)
  ∧ assigned ls' = assigned ls + Z.of_nat (length cs)
  ∧ assignedShifts (state ls') = list_to_set (Staff.id <$> cs) ∪ assignedShifts (state ls)
  ∧ (∀ j, j ∉ Staff.id <$> cs → getLoad (state ls') j = getLoad (state ls) j)
  ∧ ∀ s', Staff.id s' ∉ Staff.id <$> pool → sameFor date s' (state ls) (state ls').
Proof.
  intros Hturn Hover. revert ls.
  induction pool as [|s rest IH]; intros ls Hnd; simpl.
  - unfold chosen. rewrite filter_nil, take_nil. simpl.
    rewrite app_nil_r. split_and!; [done|lia|by rewrite (left_id_L ∅ (∪))|done|].
    intros s' _. apply sameFor_refl.
  - apply NoDup_cons in Hnd as [Hs Hnd].
    case_decide as Hlt.
    + destruct (Hturn s (state ls)) as (H1 & H2 & H3 & H5 & H4).
      set (r := step s (state ls)) in *.
      set (ls1 := mkLoop (if r.1 then assigned ls + 1 else assigned ls) (S (index ls)) r.2).
      destruct (IH ls1 Hnd) as (I1 & I2 & I3 & I5 & I4).
      assert (∀ j, j ≠ Staff.id s → getLoad r.2 j = getLoad (state ls) j) as Hload.
      { intros j Hj. by destruct (H4 (Staff.mk j None "" "") Hj) as (HL & _). }
      assert (filter (λ s', over r.2 s' = false) rest
              = filter (λ s', over (state ls) s' = false) rest) as Hfilter.
      { apply filter_ext_elem. intros x Hx.
        rewrite (Hover x (state ls) r.2); [done|]. apply H4.
        intros Heq. apply Hs. rewrite <- Heq. by apply list_elem_of_fmap_2. }
      assert (∀ s', Staff.id s' ∉ Staff.id <$> s :: rest →
                    sameFor date s' (state ls) (state (assignLoop step count rest ls1)))
        as Hframe.
      { intros s' Hs'. apply not_elem_of_cons in Hs' as [Hne Hs'].
        eapply sameFor_trans; [by apply H4|]. by apply I4. }
      unfold chosen in *. simpl in I1, I2, I3, I5. rewrite Hfilter in I1, I2, I3, I5.
      destruct (over (state ls) s) eqn:Hov.
      * rewrite filter_cons_False by (by rewrite Hov).
        rewrite H1 in *. simpl in *. rewrite H2, app_nil_r in I1. rewrite H3 in I3.
        split_and!; [done..| |done].
        intros j Hj. rewrite (I5 j Hj). unfold getLoad. by rewrite (H5 eq_refl).
      * rewrite filter_cons_True by done.
        rewrite H1 in *. simpl in *.
        replace (Z.to_nat (count - assigned ls))
          with (S (Z.to_nat (count - (assigned ls + 1)))) by lia.
        simpl. rewrite H2, <- app_assoc in I1. rewrite H3 in I3.
        split_and!; [done|lia| | |done].
        -- rewrite I3, (assoc_L (∪)). f_equal. apply (comm_L (∪)).
        -- intros j Hj. apply not_elem_of_cons in Hj as [Hne Hj].
           rewrite (I5 j Hj). by apply Hload.
    + unfold chosen. replace (Z.to_nat (count - assigned ls)) with 0%nat by lia.
      rewrite take_0. simpl. rewrite app_nil_r.
      split_and!; [done|lia|by rewrite (left_id_L ∅ (∪))|done|].
      intros s' _. apply sameFor_refl.
Qed.

Lemma assignLoop_preserves (P : GenState → Prop)
    (step : Staff.t → GenState → bool * GenState) (count : Z)
    (pool : list Staff.t) (ls : LoopState) :
  (∀ s st, s ∈ pool → P st → P (step s st).2) →
  P (state ls) → P (state (assignLoop step count pool ls)).
Proof.
  revert ls. induction pool as [|s rest IH]; intros ls Hstep HP; simpl; [done|].
  case_decide; [|done]. apply (IH (mkLoop _ _ _)).
  - intros s' st' Hs'. apply Hstep. by right.
  - simpl. apply Hstep; [by left|done].
Qed.

Section Phases.
Variable variant : Variant.
Variable input : ScheduleInput.t.
Variable date : Z.

(** The three loops from any state, over a pool with pairwise different
    ids. *)
Lemma dayPhase_chosen (pool : list Staff.t) (st : GenState) :
  NoDup (Staff.id <$> pool) →
  let cs := chosen (dayPassesOver input date) (shiftTarget (length pool) 3) pool st in
  let ls := dayPhase variant input date pool st in
  schedules (state ls) = schedules st ++ (dayEntry input date <$> cs)
  ∧ assigned ls = Z.of_nat (length cs)
  ∧ assignedShifts (state ls) = list_to_set (Staff.id <$> cs) ∪ assignedShifts st
  ∧ ∀ j, j ∉ Staff.id <$> cs → getLoad (state ls) j = getLoad st j.
Proof.
  intros Hnd.
  destruct (assignLoop_chosen date (dayStep variant input date) (dayEntry input date)
              (dayPassesOver input date) (shiftTarget (length pool) 3) pool
              (mkLoop 0 0 st) (dayStep_turn input date variant)
              (λ s st st', dayPassesOver_same input date s st st') Hnd)
    as (H1 & H2 & H3 & H4 & _).
  simpl in H1, H2, H3, H4. rewrite Z.sub_0_r in H1, H2, H3, H4. by split_and!.
Qed.

Lemma eveningLoop_chosen (pool : list Staff.t) (st : GenState) :
  NoDup (Staff.id <$> pool) →
  let cs := chosen (eveningPassesOver date) (shiftTarget (length pool) 2) pool st in
  let ls := assignLoop (eveningStep variant input date) (shiftTarget (length pool) 2)
              pool (mkLoop 0 0 st) in
  schedules (state ls) = schedules st ++ (eveningEntry variant input date <$> cs)
  ∧ assigned ls = Z.of_nat (length cs)
  ∧ assignedShifts (state ls) = list_to_set (Staff.id <$> cs) ∪ assignedShifts st
  ∧ ∀ j, j ∉ Staff.id <$> cs → getLoad (state ls) j = getLoad st j.
Proof.
  intros Hnd.
  destruct (assignLoop_chosen date (eveningStep variant input date)
              (eveningEntry variant input date)
              (eveningPassesOver date) (shiftTarget (length pool) 2) pool
              (mkLoop 0 0 st) (eveningStep_turn input date variant)
              (λ s st st', eveningPassesOver_same date s st st') Hnd)
    as (H1 & H2 & H3 & H4 & _).
  simpl in H1, H2, H3, H4. rewrite Z.sub_0_r in H1, H2, H3, H4. by split_and!.
Qed.

Lemma nightLoop_chosen (pool : list Staff.t) (st : GenState) :
  NoDup (Staff.id <$> pool) →
  let cs := chosen (nightPassesOver input date) (shiftTarget (length pool) 3) pool st in
  let ls := assignLoop (nightStep variant input date) (shiftTarget (length pool) 3)
              pool (mkLoop 0 0 st) in
  schedules (state ls) = schedules st ++ (nightEntry input date <$> cs)
  ∧ assigned ls = Z.of_nat (length cs)
  ∧ assignedShifts (state ls) = list_to_set (Staff.id <$> cs) ∪ assignedShifts st
  ∧ ∀ j, j ∉ Staff.id <$> cs → getLoad (state ls) j = getLoad st j.
Proof.
  intros Hnd.
  destruct (assignLoop_chosen date (nightStep variant input date)
              (nightEntry input date)
              (nightPassesOver input date) (shiftTarget (length pool) 3) pool
              (mkLoop 0 0 st) (nightStep_turn input date variant)
              (λ s st st', nightPassesOver_same input date s st st') Hnd)
    as (H1 & H2 & H3 & H4 & _).
  simpl in H1, H2, H3, H4. rewrite Z.sub_0_r in H1, H2, H3, H4. by split_and!.
Qed.

Lemma NoDup_eveningPool (pool : list Staff.t) (st : GenState) :
  NoDup (Staff.id <$> pool) → NoDup (Staff.id <$> eveningPool variant pool st).
Proof.
  intros Hnd. unfold eveningPool.
  destruct variant; [|apply NoDup_fmap_sortBy]; by apply NoDup_fmap_filter.
Qed.

Lemma NoDup_nightPool (pool : list Staff.t) (st : GenState) :
  NoDup (Staff.id <$> pool) → NoDup (Staff.id <$> nightPool variant pool st).
Proof. intros Hnd. by apply NoDup_fmap_sortBy, NoDup_fmap_filter. Qed.

(** The records a turn appends. *)
Lemma dayStep_records (s : Staff.t) (st : GenState) :
  conflicts (dayStep variant input date s st).2
  = conflicts st
    ++ (if booked input date s then [existingError date s] else [])
    ++ warnings date (getLoad st (Staff.id s)) (getWeekly st (weekKey date) (Staff.id s)) s.
Proof.
  unfold dayStep, booked, hasShiftConflict.
  set (l := getLoad st (Staff.id s)). set (w := getWeekly st _ _).
  destruct (existsb _ (ScheduleInput.existingSchedules input)).
  - destruct (checks_spec date l w s (true, pushConflict (existingError date s) st))
      as (Hc & _ & _).
    fold (existingError date s).
    set (hs := checkWeekly _ _ _ _) in *. simpl in Hc. rewrite <- app_assoc in Hc.
    by destruct (mayAssign _ _ _ _).
  - destruct (checks_spec date l w s (false, st)) as (Hc & _ & _).
    set (hs := checkWeekly _ _ _ _) in *. simpl in Hc.
    by destruct (mayAssign _ _ _ _).
Qed.

Lemma eveningStep_records (s : Staff.t) (st : GenState) :
  conflicts (eveningStep variant input date s st).2
  = conflicts st
    ++ warnings date (getLoad st (Staff.id s)) (getWeekly st (weekKey date) (Staff.id s)) s.
Proof.
  unfold eveningStep.
  set (l := getLoad st (Staff.id s)). set (w := getWeekly st _ _).
  destruct (checks_spec date l w s (false, st)) as (Hc & _ & _).
  set (hs := checkWeekly _ _ _ _) in *. simpl in Hc.
  by destruct (mayAssign _ _ _ _).
Qed.
End Phases.

(** A date's records hold no error. *)
Lemma warningsOnly_app (d : Z) (l ws : list Conflict.t) :
  (∀ c, c ∈ l → Conflict.date c = d → Conflict.severity c = Warning) →
  Forall (λ c, Conflict.severity c = Warning) ws →
  ∀ c, c ∈ l ++ ws → Conflict.date c = d → Conflict.severity c = Warning.
Proof.
  intros Hl Hws c Hc Hd. apply elem_of_app in Hc as [Hc|Hc]; [by apply Hl|].
  by apply (proj1 (Forall_forall _ _) Hws).
Qed.

Lemma errorFirst_warningsOnly (d : Z) (st : GenState) (s : Staff.t) :
  (∀ c, c ∈ conflicts st → Conflict.date c = d → Conflict.severity c = Warning) →
  errorFirst d st s = false.
Proof.
  intros Hw. unfold errorFirst, firstRecord.
  destruct (List.find _ _) as [c|] eqn:Hfind; [|done].
  apply find_some in Hfind as [Hin Hm].
  apply bool_decide_eq_true_1 in Hm as [_ Hd].
  apply bool_decide_eq_false_2. intros Hne. apply Hne, Hw; [|done].
  by apply list_elem_of_In.
Qed.

Lemma filter_none {A : Type} (P : A → Prop) `{∀ x, Decision (P x)} (l : list A) :
  (∀ x, x ∈ l → ¬ P x) → filter P l = [].
Proof.
  induction l as [|x l IH]; intros Hl; [done|].
  rewrite filter_cons_False by (apply Hl; by left).
  apply IH. intros y Hy. apply Hl. by right.
Qed.

Lemma filter_all {A : Type} (P : A → Prop) `{∀ x, Decision (P x)} (l : list A) :
  (∀ x, x ∈ l → P x) → filter P l = l.
Proof.
  induction l as [|x l IH]; intros Hl; [done|].
  rewrite filter_cons_True by (apply Hl; by left).
  f_equal. apply IH. intros y Hy. apply Hl. by right.
Qed.

(** With pairwise different ids, those left unmarked once the first [n]
    of a pool are marked are the rest of the pool, in its order. *)
Lemma filter_unmarked_app (l1 l2 : list Staff.t) :
  NoDup (Staff.id <$> l1 ++ l2) →
  filter (λ s, Staff.id s ∉ (list_to_set (Staff.id <$> l1) : gset Z)) (l1 ++ l2) = l2.
Proof.
  intros Hnd. rewrite fmap_app in Hnd.
  apply NoDup_app in Hnd as (_ & Hdisj & _).
  rewrite filter_app, filter_none, filter_all; [done| |].
  - intros s Hs Hin. apply elem_of_list_to_set in Hin.
    apply (Hdisj _ Hin). by apply list_elem_of_fmap_2.
  - intros s Hs Hnot. apply Hnot.
    apply elem_of_list_to_set. by apply list_elem_of_fmap_2.
Qed.

Lemma filter_unmarked_drop (n : nat) (pool : list Staff.t) :
  NoDup (Staff.id <$> pool) →
  filter (λ s, Staff.id s ∉ (list_to_set (Staff.id <$> take n pool) : gset Z)) pool
  = drop n pool.
Proof.
  intros Hnd.
  pose proof (filter_unmarked_app (take n pool) (drop n pool)) as H.
  rewrite take_drop in H. by apply H.
Qed.

Lemma find_fresh_None {A : Type} (f : A → bool) (l : list A) :
  (∀ x, x ∈ l → f x = false) → List.find f l = None.
Proof.
  intros H. rewrite <- (app_nil_r l). by rewrite find_app_fresh.
Qed.

Section RunPhases.
Variable variant : Variant.
Variable input : ScheduleInput.t.
Variables (pre : list Z) (d : Z).
Hypothesis Hroster : rosterKeyed (ScheduleInput.staff input).
Hypothesis Hpre : d ∉ pre.

(** When a date is processed for the first time, no record of that date is
    held yet. *)
Lemma firstRecord_stateBefore (s : Staff.t) :
  firstRecord d (stateBefore variant input pre) s = None.
Proof.
  apply find_fresh_None. intros c Hc. apply bool_decide_eq_false_2. intros [_ Hd].
  by apply (stateBefore_fresh variant input pre d c Hpre Hc).
Qed.

Lemma dayPhase_in_run :
  let st0 := stateBefore variant input pre in
  let pool := dayPool input d st0 in
  let taken := take (Z.to_nat (shiftTarget (length pool) 3))
                    (filter (λ s, booked input d s = false) pool) in
  let ls := dayPhase variant input d pool st0 in
  schedules (state ls) = schedules st0 ++ (dayEntry input d <$> taken)
  ∧ assigned ls = Z.of_nat (length taken)
  ∧ assignedShifts (state ls) = list_to_set (Staff.id <$> taken).
Proof.
  intros st0 pool taken ls.
  assert (NoDup (Staff.id <$> pool)) as Hnd by by apply NoDup_availableStaff.
  destruct (dayPhase_chosen variant input d pool st0 Hnd) as (H1 & H2 & H3 & _).
  fold ls in H1, H2, H3. unfold chosen in H1, H2, H3.
  assert (filter (λ s, dayPassesOver input d st0 s = false) pool
          = filter (λ s, booked input d s = false) pool) as Hfilter.
  { apply filter_ext_elem. intros s _. unfold dayPassesOver.
    by rewrite firstRecord_stateBefore. }
  rewrite Hfilter in H1, H2, H3. fold taken in H1, H2, H3.
  split_and!; [done|done|]. rewrite H3. simpl. by rewrite (right_id_L ∅ (∪)).
Qed.

Lemma warningsOnly_stateBefore (c : Conflict.t) :
  c ∈ conflicts (stateBefore variant input pre) → Conflict.date c = d →
  Conflict.severity c = Warning.
Proof.
  intros Hc Hd. by destruct (stateBefore_fresh variant input pre d c Hpre Hc).
Qed.
End RunPhases.

(** X4.  In a run of either library, at a date of the range that the date
    loop has not pushed before: the day shift goes to the first
    [max(1, ceil(n / 3))] members of the ranked pool of [n] available staff
    that have no entry in [existingSchedules] on the date, in the order of
    the ranking; they are the ones marked when the loop ends. *)
Theorem day_shift_goes_to_first_unbooked (variant : Variant) (input : ScheduleInput.t)
    (pre post : list Z) (d : Z) :
  rosterKeyed (ScheduleInput.staff input) →
  dates input = pre ++ d :: post →
  d ∉ pre →
  let st0 := stateBefore variant input pre in
  let pool := dayPool input d st0 in
  let taken := take (Z.to_nat (shiftTarget (length pool) 3))
                    (filter (λ s, booked input d s = false) pool) in
  let ls := dayPhase variant input d pool st0 in
  schedules (state ls) = schedules st0 ++ (dayEntry input d <$> taken)
  ∧ assigned ls = Z.of_nat (length taken)
  ∧ assignedShifts (state ls) = list_to_set (Staff.id <$> taken).
Proof. intros Hroster Hdates Hpre. by apply (dayPhase_in_run variant input pre d). Qed.

Lemma evening_and_night_shift_takers_aux (variant : Variant) (input : ScheduleInput.t)
    (d : Z) (pool : list Staff.t) (st : GenState) :
  NoDup (Staff.id <$> pool) →
  let eveningStaff := eveningPool variant pool st in
  let nightStaff := nightPool variant pool st in
  schedules (state (eveningPhase variant input d pool st))
  = schedules st
    ++ (eveningEntry variant input d
        <$> take (Z.to_nat (shiftTarget (length eveningStaff) 2))
                 (filter (λ s, (warned d st s && errorFirst d st s) = false) eveningStaff))
  ∧ schedules (state (nightPhase variant input d pool st))
    = schedules st
      ++ (nightEntry input d
          <$> take (Z.to_nat (shiftTarget (length nightStaff) 3))
                   (filter (λ s, (dayBefore input d (getLoad st (Staff.id s))
                                  || (warned d st s && errorFirst d st s)) = false)
                           nightStaff)).
Proof.
  intros Hnd eveningStaff nightStaff. split.
  - by destruct (eveningLoop_chosen variant input d eveningStaff st
                   (NoDup_eveningPool variant pool st Hnd)) as (H1 & _).
  - by destruct (nightLoop_chosen variant input d nightStaff st
                   (NoDup_nightPool variant pool st Hnd)) as (H1 & _).
Qed.

(** X5.  The evening and the night loop of either library, from any state and
    over any pool with pairwise different ids: the evening loop enters the
    first [max(1, ceil(r / 2))] members of its pool of [r], the night loop
    the first [max(1, ceil(q / 3))] of its pool of [q], other than those
    they pass over.  The evening loop passes over a member who raises a
    warning while the first record held for the member and the date is an
    error; the night loop also passes over a member for whom the test
    [dayBefore] holds: the load says that the last shift was the day shift
    and gives as its date the one that [getPreviousDay] returns for the
    date of the loop.  Neither reads [existingSchedules]. *)
Theorem evening_and_night_shift_takers (variant : Variant) (input : ScheduleInput.t)
    (d : Z) (pool : list Staff.t) (st : GenState) :
  NoDup (Staff.id <$> pool) →
  let eveningStaff := eveningPool variant pool st in
  let nightStaff := nightPool variant pool st in
  schedules (state (eveningPhase variant input d pool st))
  = schedules st
    ++ (eveningEntry variant input d
        <$> take (Z.to_nat (shiftTarget (length eveningStaff) 2))
                 (filter (λ s, (warned d st s && errorFirst d st s) = false) eveningStaff))
  ∧ schedules (state (nightPhase variant input d pool st))
    = schedules st
      ++ (nightEntry input d
          <$> take (Z.to_nat (shiftTarget (length nightStaff) 3))
                   (filter (λ s, (dayBefore input d (getLoad st (Staff.id s))
                                  || (warned d st s && errorFirst d st s)) = false)
                           nightStaff)).
Proof. apply evening_and_night_shift_takers_aux. Qed.

(** X6.  In a run of either library, at a date of the range that the date
    loop has not pushed before and on which no roster member has an entry
    in [existingSchedules]: the day shift goes to the first
    [max(1, ceil(n / 3))] of the ranked pool; those left are the rest of
    the ranked pool; the evening shift goes to the first
    [max(1, ceil(r / 2))] of the evening pool; the night shift goes to the
    first [max(1, ceil(q / 3))] of those of the night pool that the test
    [dayBefore] lets through: those whose load does not say that the last
    shift was the day shift, on the date [getPreviousDay] gives. *)
Theorem working_shifts_without_bookings (variant : Variant) (input : ScheduleInput.t)
    (pre post : list Z) (d : Z) :
  rosterKeyed (ScheduleInput.staff input) →
  dates input = pre ++ d :: post →
  d ∉ pre →
  (∀ s, s ∈ ScheduleInput.staff input →
        hasShiftConflict (Staff.id s) d (ScheduleInput.existingSchedules input) = false) →
  let st0 := stateBefore variant input pre in
  let pool := dayPool input d st0 in
  let day := dayPhase variant input d pool st0 in
  let eveningStaff := eveningPool variant pool (state day) in
  let evening := eveningPhase variant input d pool (state day) in
  let nightStaff := nightPool variant pool (state evening) in
  let night := nightPhase variant input d pool (state evening) in
  let dayCount := Z.to_nat (shiftTarget (length pool) 3) in
  schedules (state day) = schedules st0 ++ (dayEntry input d <$> take dayCount pool)
  ∧ unassigned (state day) pool = drop dayCount pool
  ∧ schedules (state evening)
    = schedules (state day)
      ++ (eveningEntry variant input d
          <$> take (Z.to_nat (shiftTarget (length eveningStaff) 2)) eveningStaff)
  ∧ schedules (state night)
    = schedules (state evening)
      ++ (nightEntry input d
          <$> take (Z.to_nat (shiftTarget (length nightStaff) 3))
                   (filter (λ s, dayBefore input d (getLoad (state evening) (Staff.id s))
                                 = false) nightStaff)).
Proof.
  intros Hroster Hdates Hpre Hfree st0 pool day eveningStaff evening nightStaff night
         dayCount.
  assert (NoDup (Staff.id <$> pool)) as Hnd by by apply NoDup_availableStaff.
  assert (∀ s, s ∈ pool → booked input d s = false) as Hpool.
  { intros s Hs. apply Hfree. unfold pool, dayPool in Hs.
    apply elem_of_availableStaff, elem_of_availablePool in Hs. by destruct Hs. }
  destruct (dayPhase_in_run variant input pre d Hroster Hpre) as (D1 & _ & D3).
  fold st0 pool day in D1, D3.
  rewrite (filter_all _ pool) in D1, D3 by done. fold dayCount in D1, D3.
  assert (∀ c, c ∈ conflicts (state day) → Conflict.date c = d →
               Conflict.severity c = Warning) as Hw1.
  { apply (assignLoop_preserves
             (λ st, ∀ c, c ∈ conflicts st → Conflict.date c = d →
                         Conflict.severity c = Warning)).
    - intros s st Hs Hst. rewrite dayStep_records, (Hpool s Hs). simpl.
      apply warningsOnly_app; [done|].
      eapply Forall_impl; [apply Forall_warnings|]. by intros c [_ ?].
    - apply (warningsOnly_stateBefore variant input pre d Hpre). }
  assert (∀ c, c ∈ conflicts (state evening) → Conflict.date c = d →
               Conflict.severity c = Warning) as Hw2.
  { apply (assignLoop_preserves
             (λ st, ∀ c, c ∈ conflicts st → Conflict.date c = d →
                         Conflict.severity c = Warning)); [|done].
    intros s st Hs Hst. rewrite eveningStep_records.
    apply warningsOnly_app; [done|].
    eapply Forall_impl; [apply Forall_warnings|]. by intros c [_ ?]. }
  destruct (evening_and_night_shift_takers_aux variant input d pool (state day) Hnd)
    as [E _].
  destruct (evening_and_night_shift_takers_aux variant input d pool (state evening) Hnd)
    as [_ N].
  split_and!.
  - exact D1.
  - unfold unassigned. rewrite D3. by apply filter_unmarked_drop.
  - fold eveningStaff evening in E. rewrite E. do 3 f_equal.
    apply filter_all. intros s _.
    by rewrite (errorFirst_warningsOnly d (state day) s Hw1), andb_false_r.
  - fold nightStaff night in N. rewrite N. do 3 f_equal.
    apply filter_ext_elem. intros s _.
    by rewrite (errorFirst_warningsOnly d (state evening) s Hw2), andb_false_r,
      orb_false_r.
Qed.

(** ** Targets of the three working-shift phases *)



(** ** The fairness tie-break and the day shift *)

Lemma lookup_split_two {A : Type} (l : list A) (a b : A) (i j : nat) :
  l !! i = Some a → l !! j = Some b → (i < j)%nat →
  ∃ l1 l2 l3, l = l1 ++ a :: l2 ++ b :: l3.
Proof.
  intros Hi Hj Hij.
  pose proof (take_drop_middle _ _ _ Hi) as Hsplit.
  assert (drop (S i) l !! (j - S i)%nat = Some b) as Hj'.
  { rewrite lookup_drop. by replace (S i + (j - S i))%nat with j by lia. }
  pose proof (take_drop_middle _ _ _ Hj') as Hsplit'.
  eexists _, _, _. by rewrite Hsplit'.
Qed.

Lemma elem_of_take_inv {A : Type} (n : nat) (l : list A) (x : A) :
  x ∈ take n l → x ∈ l.
Proof. intros (i & Hi & _)%elem_of_take. by eapply list_elem_of_lookup_2. Qed.

Lemma take_through {A : Type} (n : nat) (l1 l2 : list A) (x : A) :
  NoDup (l1 ++ x :: l2) → x ∈ take n (l1 ++ x :: l2) →
  take n (l1 ++ x :: l2) = l1 ++ x :: take (n - S (length l1)) l2.
Proof.
  intros Hnd Hx. apply NoDup_app in Hnd as (_ & Hdisj & _).
  destruct (decide (n ≤ length l1)%nat) as [Hle|Hgt].
  - exfalso. rewrite take_app_le in Hx by done.
    apply (Hdisj x); [by eapply elem_of_take_inv|by left].
  - rewrite take_app_ge by lia.
    replace (n - length l1)%nat with (S (n - S (length l1))) by lia. by simpl.
Qed.

(** C8, as the code has it.  Two members of the assignable pool that tie on
    every ranking key before the id, at a date that the date loop has not
    pushed before (staff ids pairwise different): the comparator puts the
    lower id first (its result is negative), and the lower id stands before
    the higher one in the ranked pool.  When the lower id has no entry in
    [existingSchedules] on the date and the day loop assigns the higher id,
    it has assigned the lower id before: the day-shift entry of the lower
    id precedes that of the higher one in the output. *)
Theorem lower_id_ranked_first (variant : Variant) (input : ScheduleInput.t)
    (pre post : list Z) (d : Z) (a b : Staff.t) (i j : nat) :
  rosterKeyed (ScheduleInput.staff input) →
  dates input = pre ++ d :: post →
  d ∉ pre →
  let st := stateBefore variant input pre in
  let pool := dayPool input d st in
  let day := dayPhase variant input d pool st in
  tiedKeys input d st a b →
  Staff.id a < Staff.id b →
  pool !! i = Some a →
  pool !! j = Some b →
  compareFairness input d st a b < 0
  ∧ (i < j)%nat
  ∧ (hasShiftConflict (Staff.id a) d (ScheduleInput.existingSchedules input) = false →
     Staff.id b ∈ assignedShifts (state day) →
     ∃ l1 l2 l3,
       schedules (state day)
       = schedules st ++ l1 ++ dayEntry input d a :: l2 ++ dayEntry input d b :: l3).
Proof.
  intros Hroster Hdates Hpre st pool day Htied Hlt Hi Hj.
  assert (compareFairness input d st a b < 0) as Hcmp
    by (rewrite compareFairness_tied by done; lia).
  assert (i < j)%nat as Hij.
  { eapply (sortBy_strict_before (compareFairness input d st));
      [apply compareFairness_trans|apply compareFairness_total|exact Hcmp
      |apply compareFairness_antisym|exact Hi|exact Hj]. }
  split_and!; [done|done|].
  intros Hfree Hb.
  assert (NoDup (Staff.id <$> pool)) as Hnd by by apply NoDup_availableStaff.
  destruct (dayPhase_in_run variant input pre d Hroster Hpre) as (D1 & _ & D3).
  fold st pool day in D1, D3.
  set (t := Z.to_nat (shiftTarget (length pool) 3)) in *.
  rewrite D3, elem_of_list_to_set in Hb.
  apply list_elem_of_fmap in Hb as (b' & Hid & Hb').
  assert (b' ∈ pool) as Hpool.
  { apply elem_of_take_inv in Hb'. by apply list_elem_of_filter in Hb' as [_ ?]. }
  assert (b' = b) as ->.
  { apply (NoDup_fmap_eq Staff.id pool); [done|done| |done].
    by eapply list_elem_of_lookup_2. }
  assert (booked input d b = false) as Hbfree.
  { apply elem_of_take_inv in Hb'. by apply list_elem_of_filter in Hb' as [? _]. }
  destruct (lookup_split_two pool a b i j Hi Hj Hij) as (p1 & p2 & p3 & Hsplit).
  set (P := λ s : Staff.t, booked input d s = false) in *.
  assert (filter P pool = (filter P p1 ++ a :: filter P p2) ++ b :: filter P p3) as HF.
  { rewrite Hsplit, filter_app, filter_cons_True by done.
    rewrite filter_app, filter_cons_True by done. by rewrite <- app_assoc. }
  rewrite HF in Hb', D1.
  rewrite take_through in D1;
    [|rewrite <- HF; apply NoDup_filter; by apply NoDup_fmap_1 in Hnd|done].
  rewrite D1. rewrite fmap_app, !fmap_cons, fmap_app, fmap_cons, <- !app_assoc.
  simpl. by eexists _, _, _.
Qed.

(** * The rest entries and the rest days of the basic library *)

Section RestSteps.
Variable input : ScheduleInput.t.
Variable date : Z.
Variable dutyTypeId : Z.
Variable bump : DutyPattern → DutyPattern.

Lemma getLoad_restStep (st : GenState) (s : Staff.t) (j : Z) :
  getLoad (restStep input date dutyTypeId bump st s) j
  = if decide (Staff.id s = j) then restedLoad (getLoad st (Staff.id s)) else getLoad st j.
Proof.
  unfold restStep.
  change (getLoad (markAssigned _ (setPattern _ _ (pushSchedule _ ?x))) j)
    with (getLoad x j).
  apply getLoad_setLoad.
Qed.

Lemma fold_restStep (l : list Staff.t) (st : GenState) :
  let st' := fold_left (restStep input date dutyTypeId bump) l st in
  schedules st' = schedules st ++ (restEntry input date dutyTypeId <$> l)
  ∧ assignedShifts st' = list_to_set (Staff.id <$> l) ∪ assignedShifts st
  ∧ (∀ j, j ∉ Staff.id <$> l → getLoad st' j = getLoad st j)
  ∧ (NoDup (Staff.id <$> l) →
     ∀ s, s ∈ l → getLoad st' (Staff.id s) = restedLoad (getLoad st (Staff.id s))).
Proof.
  revert st. induction l as [|s l IH]; intros st; simpl.
  - rewrite app_nil_r, (left_id_L ∅ (∪)). split_and!; [done..|].
    intros _ s Hs. by apply elem_of_nil in Hs.
  - destruct (IH (restStep input date dutyTypeId bump st s)) as (I1 & I2 & I3 & I4).
    split_and!.
    + rewrite I1. simpl. by rewrite <- app_assoc.
    + rewrite I2. simpl. rewrite (assoc_L (∪)). f_equal. apply (comm_L (∪)).
    + intros j Hj. apply not_elem_of_cons in Hj as [Hne Hj].
      rewrite (I3 j Hj), getLoad_restStep. by rewrite decide_False.
    + intros Hnd s' Hs'. apply NoDup_cons in Hnd as [Hs Hnd].
      apply elem_of_cons in Hs' as [->|Hs'].
      * rewrite (I3 _ Hs), getLoad_restStep. by rewrite decide_True.
      * rewrite (I4 Hnd s' Hs'), getLoad_restStep.
        rewrite decide_False; [done|].
        intros Heq. apply Hs. rewrite Heq. by apply list_elem_of_fmap_2.
Qed.
End RestSteps.

Section BasicDuties.
Variable input : ScheduleInput.t.
Variable date : Z.

Lemma basicDuties_closed_form (pool : list Staff.t) (st : GenState) :
  NoDup (Staff.id <$> pool) →
  let un := basicPreDutyPool pool st in
  let half := (length un / 2)%nat in
  let st' := basicDuties input date pool st in
  schedules st'
  = schedules st ++ (restEntry input date (preDutyId input) <$> take half un)
                 ++ (restEntry input date (postDutyId input) <$> drop half un)
  ∧ assignedShifts st' = list_to_set (Staff.id <$> un) ∪ assignedShifts st
  ∧ (∀ s, s ∈ un → getLoad st' (Staff.id s) = restedLoad (getLoad st (Staff.id s)))
  ∧ (∀ j, j ∉ Staff.id <$> un → getLoad st' j = getLoad st j).
Proof.
  intros Hnd un half st'.
  assert (NoDup (Staff.id <$> un)) as Hun by by apply NoDup_fmap_sortBy, NoDup_unassigned.
  assert (∀ s, s ∈ un → Staff.id s ∉ assignedShifts st) as Hfree.
  { intros s Hs. unfold un, basicPreDutyPool in Hs.
    rewrite elem_of_sortBy in Hs. by apply elem_of_unassigned in Hs as [? _]. }
  unfold st', basicDuties. fold un. fold half.
  destruct (fold_restStep input date (preDutyId input) bumpPreDuty (take half un) st)
    as (A1 & A2 & A3 & A4).
  set (st1 := fold_left _ (take half un) st) in *.
  assert (unassigned st1 un = drop half un) as ->.
  { unfold unassigned. rewrite A2. rewrite <- (filter_unmarked_drop half un Hun).
    apply filter_ext_elem. intros s Hs. rewrite elem_of_union.
    split; [tauto|]. intros Hn [?|?]; [done|]. by apply (Hfree s). }
  destruct (fold_restStep input date (postDutyId input) bumpPostDuty (drop half un) st1)
    as (B1 & B2 & B3 & B4).
  assert (NoDup (Staff.id <$> take half un ++ drop half un)) as Hsplit
    by by rewrite take_drop.
  rewrite fmap_app in Hsplit. apply NoDup_app in Hsplit as (Ht & Hdisj & Hd).
  split_and!.
  - by rewrite B1, A1, <- app_assoc.
  - rewrite B2, A2, (assoc_L (∪)). f_equal.
    rewrite <- (take_drop half un) at 3. rewrite fmap_app, list_to_set_app_L.
    apply (comm_L (∪)).
  - intros s Hs. rewrite <- (take_drop half un) in Hs.
    apply elem_of_app in Hs as [Hs|Hs].
    + rewrite B3, (A4 Ht s Hs); [done|].
      apply Hdisj. by apply list_elem_of_fmap_2.
    + rewrite (B4 Hd s Hs), A3; [done|].
      intros Hin. apply (Hdisj _ Hin). by apply list_elem_of_fmap_2.
  - intros j Hj. rewrite <- (take_drop half un), fmap_app, not_elem_of_app in Hj.
    destruct Hj as [Hj1 Hj2]. by rewrite (B3 j Hj2), (A3 j Hj1).
Qed.
End BasicDuties.

(** X7.  The basic library, from any state and over any pool with pairwise
    different ids: the members left unmarked by the three loops, ordered
    by their pre-duty count, are all entered with a null shift, the first
    half (rounded down) for pre-duty and the others for post-duty; each of
    them is marked, has its streak reset and gets one more rest day. *)
Theorem basic_rest_entries (input : ScheduleInput.t) (date : Z) (pool : list Staff.t)
    (st : GenState) :
  NoDup (Staff.id <$> pool) →
  let un := basicPreDutyPool pool st in
  let half := (length un / 2)%nat in
  let st' := basicDuties input date pool st in
  un ≡ₚ unassigned st pool
  ∧ schedules st'
    = schedules st ++ (restEntry input date (preDutyId input) <$> take half un)
                   ++ (restEntry input date (postDutyId input) <$> drop half un)
  ∧ assignedShifts st' = list_to_set (Staff.id <$> un) ∪ assignedShifts st
  ∧ ∀ s, s ∈ un →
         consecutiveShifts (getLoad st' (Staff.id s)) = 0
         ∧ restDays (getLoad st' (Staff.id s)) = restDays (getLoad st (Staff.id s)) + 1
         ∧ totalShifts (getLoad st' (Staff.id s)) = totalShifts (getLoad st (Staff.id s)).
Proof.
  intros Hnd un half st'.
  destruct (basicDuties_closed_form input date pool st Hnd) as (H1 & H2 & H3 & _).
  split_and!; [apply sortBy_perm|done|done|].
  intros s Hs. fold un in H3. unfold st'. by rewrite (H3 s Hs).
Qed.

(** ** Every available member is entered once *)

Lemma markedHaveEntry_entersOrSkips (d : Z) (s : Staff.t) (st st' : GenState) :
  entersOrSkips d s st st' → markedHaveEntry d st → markedHaveEntry d st'.
Proof.
  intros [[Hs Ha]|(e & Hs & Hd & Hid & Ha)] Hinv i Hi.
  - rewrite Ha in Hi. rewrite Hs. by apply Hinv.
  - rewrite Ha in Hi. rewrite Hs. apply elem_of_union in Hi as [Hi|Hi].
    + apply elem_of_singleton in Hi as ->. exists e.
      split_and!; [|done..]. apply elem_of_app. right. by left.
    + destruct (Hinv i Hi) as (e' & He' & ?). exists e'.
      split; [|done]. apply elem_of_app. by left.
Qed.

Lemma fold_left_preserves (P : GenState → Prop) (f : GenState → Staff.t → GenState)
    (l : list Staff.t) (st : GenState) :
  (∀ s st, s ∈ l → P st → P (f st s)) → P st → P (fold_left f l st).
Proof.
  revert st. induction l as [|s l IH]; intros st Hf HP; simpl; [done|].
  apply IH; [intros; apply Hf; [by right|done]|]. apply Hf; [by left|done].
Qed.

Section BasicCoverage.
Variable input : ScheduleInput.t.
Hypothesis Hroster : rosterKeyed (ScheduleInput.staff input).

(** One date of the basic library: every available member has an entry. *)
Lemma basic_processDate_covers (d : Z) (st : GenState) (s : Staff.t) :
  s ∈ availablePool input d →
  ∃ e, e ∈ schedules (processDate Basic input d st)
       ∧ Schedule.staffId e = Staff.id s ∧ Schedule.date e = d.
Proof.
  intros Hs. unfold processDate, basicTail.
  set (st0 := clearAssigned st).
  set (pool := dayPool input d st0).
  set (st1 := state (dayPhase Basic input d pool st0)).
  set (st2 := state (eveningPhase Basic input d pool st1)).
  set (st3 := state (nightPhase Basic input d pool st2)).
  set (st7 := basicDuties input d pool st3).
  assert (NoDup (Staff.id <$> pool)) as Hnd by by apply NoDup_availableStaff.
  assert (s ∈ pool) as Hpool by by apply elem_of_availableStaff.
  assert (markedHaveEntry d st0) as H0 by (by intros i Hi%elem_of_empty).
  assert (markedHaveEntry d st1) as H1.
  { apply (assignLoop_preserves (markedHaveEntry d)); [|done].
    intros s' st' _. apply markedHaveEntry_entersOrSkips with s', entersOrSkips_dayStep. }
  assert (markedHaveEntry d st2) as H2.
  { apply (assignLoop_preserves (markedHaveEntry d)); [|done].
    intros s' st' _.
    apply markedHaveEntry_entersOrSkips with s', entersOrSkips_eveningStep. }
  assert (markedHaveEntry d st3) as H3.
  { apply (assignLoop_preserves (markedHaveEntry d)); [|done].
    intros s' st' _.
    apply markedHaveEntry_entersOrSkips with s', entersOrSkips_nightStep. }
  assert (markedHaveEntry d st7) as H7.
  { unfold st7, basicDuties.
    apply (fold_left_preserves (markedHaveEntry d)).
    - intros s' st' _. apply markedHaveEntry_entersOrSkips with s', entersOrSkips_restStep.
    - apply (fold_left_preserves (markedHaveEntry d)); [|done].
      intros s' st' _.
      apply markedHaveEntry_entersOrSkips with s', entersOrSkips_restStep. }
  destruct (basicDuties_closed_form input d pool st3 Hnd) as (_ & Hmarks & _).
  fold st7 in Hmarks.
  destruct (restUnassigned_logs (ScheduleInput.staff input) st7) as [-> _].
  apply H7. rewrite Hmarks.
  destruct (decide (Staff.id s ∈ assignedShifts st3)) as [Hin|Hout].
  - by apply elem_of_union_r.
  - apply elem_of_union_l, elem_of_list_to_set, list_elem_of_fmap_2.
    unfold basicPreDutyPool. rewrite elem_of_sortBy. by apply elem_of_unassigned.
Qed.

Lemma schedules_fold_mono (variant : Variant) (l : list Z) (st : GenState)
    (e : Schedule.t) :
  e ∈ schedules st →
  e ∈ schedules (fold_left (λ st date, processDate variant input date st) l st).
Proof.
  revert st. induction l as [|d l IH]; intros st He; simpl; [done|].
  apply IH. eapply grows_schedules_mono; [apply grows_processDate|done].
Qed.
End BasicCoverage.

(** X8.  In a zone whose offset never changes, the basic library gives every
    roster member exactly one entry on each date of the range on which no
    availability record marks the member unavailable. *)
Theorem basic_exactly_one_entry_per_available_member (input : ScheduleInput.t)
    (c d : Z) (s : Staff.t) :
  steady c →
  rosterKeyed (ScheduleInput.staff input) →
  ScheduleInput.startDate input ≤ d ≤ ScheduleInput.endDate input →
  s ∈ ScheduleInput.staff input →
  Staff.id s ∉ unavailableStaffIds input d →
  ∃ e, e ∈ (generateSchedule Basic input).1
       ∧ Schedule.staffId e = Staff.id s ∧ Schedule.date e = d
       ∧ ∀ e', e' ∈ (generateSchedule Basic input).1 →
               Schedule.staffId e' = Staff.id s → Schedule.date e' = d → e' = e.
Proof.
  intros Hsteady Hroster Hd Hs Hav.
  assert (d ∈ dates input) as Hin by by apply (elem_of_dateRange_steady c).
  apply list_elem_of_split in Hin as (pre & post & Hsplit).
  destruct (basic_processDate_covers input Hroster d
              (fold_left (λ st date, processDate Basic input date st) pre
                         (seedState Basic input)) s) as (e & He & Hid & Hdate).
  { by apply elem_of_availablePool. }
  assert (e ∈ (generateSchedule Basic input).1) as Hout.
  { simpl. rewrite (generateState_split Basic input pre post d Hsplit).
    by apply schedules_fold_mono. }
  exists e. split_and!; [done..|].
  intros e' He' Hid' Hdate'.
  apply (NoDup_fmap_eq entryKey (generateSchedule Basic input).1);
    [by apply (basic_one_entry_per_member_and_date input c)|done|done|].
  unfold entryKey. congruence.
Qed.

(** X9.  In the basic library, a roster member whom the three loops of a date
    leave unmarked (entered for pre-duty or post-duty, or not available)
    ends the date with a streak of 0, one more rest day than before the
    date and the same total of shifts. *)
Theorem basic_day_without_working_shift_is_rest (input : ScheduleInput.t) (d : Z)
    (st : GenState) (s : Staff.t) :
  rosterKeyed (ScheduleInput.staff input) →
  s ∈ ScheduleInput.staff input →
  let st0 := clearAssigned st in
  let pool := dayPool input d st0 in
  let st3 := state (nightPhase Basic input d pool
               (state (eveningPhase Basic input d pool
                  (state (dayPhase Basic input d pool st0))))) in
  let final := processDate Basic input d st in
  Staff.id s ∉ assignedShifts st3 →
  consecutiveShifts (getLoad final (Staff.id s)) = 0
  ∧ restDays (getLoad final (Staff.id s)) = restDays (getLoad st (Staff.id s)) + 1
  ∧ totalShifts (getLoad final (Staff.id s)) = totalShifts (getLoad st (Staff.id s)).
Proof.
  intros Hroster Hs st0 pool st3 final Hfree.
  assert (NoDup (Staff.id <$> pool)) as Hnd by by apply NoDup_availableStaff.
  set (st1 := state (dayPhase Basic input d pool st0)) in *.
  set (st2 := state (eveningPhase Basic input d pool st1)) in *.
  destruct (dayPhase_chosen Basic input d pool st0 Hnd) as (_ & _ & M1 & L1).
  destruct (eveningLoop_chosen Basic input d (eveningPool Basic pool st1) st1
              (NoDup_eveningPool Basic pool st1 Hnd)) as (_ & _ & M2 & L2).
  destruct (nightLoop_chosen Basic input d (nightPool Basic pool st2) st2
              (NoDup_nightPool Basic pool st2 Hnd)) as (_ & _ & M3 & L3).
  fold st1 in M1, L1.
  change (state (assignLoop _ _ (eveningPool Basic pool st1) _)) with st2 in M2, L2.
  change (state (assignLoop _ _ (nightPool Basic pool st2) _)) with st3 in M3, L3.
  rewrite M3, M2, M1 in Hfree. rewrite !not_elem_of_union in Hfree.
  destruct Hfree as (F3 & F2 & F1 & _). rewrite elem_of_list_to_set in F1, F2, F3.
  assert (getLoad st3 (Staff.id s) = getLoad st (Staff.id s)) as Hload.
  { by rewrite (L3 _ F3), (L2 _ F2), (L1 _ F1). }
  destruct (basicDuties_closed_form input d pool st3 Hnd) as (_ & M7 & L7 & L7').
  set (st7 := basicDuties input d pool st3) in *.
  assert (final = fold_left restUnassigned (ScheduleInput.staff input) st7) as -> by done.
  rewrite getLoad_restUnassigned by done.
  destruct (decide (Staff.id s ∈ Staff.id <$> basicPreDutyPool pool st3)) as [Hin|Hout].
  - apply list_elem_of_fmap in Hin as (s' & Hid & Hs').
    rewrite decide_True
      by (rewrite M7; apply elem_of_union_l, elem_of_list_to_set; rewrite Hid;
          by apply list_elem_of_fmap_2).
    rewrite Hid, (L7 s' Hs'), <- Hid, Hload. done.
  - rewrite decide_False.
    + rewrite (L7' _ Hout), Hload. done.
    + rewrite M7, M3, M2, M1, !not_elem_of_union, !elem_of_list_to_set.
      by split_and!.
Qed.

(** * Existing schedules of staff who are not on the roster *)

Lemma assignLoop_ext (step1 step2 : Staff.t → GenState → bool * GenState) (count : Z)
    (pool : list Staff.t) (ls : LoopState) :
  (∀ s st, s ∈ pool → step1 s st = step2 s st) →
  assignLoop step1 count pool ls = assignLoop step2 count pool ls.
Proof.
  revert ls. induction pool as [|s rest IH]; intros ls Hext; simpl; [done|].
  case_decide; [|done]. rewrite (Hext s (state ls)) by by left.
  apply IH. intros s' st' Hs'. apply Hext. by right.
Qed.

Lemma fold_left_ext_elem {A B : Type} (f g : A → B → A) (l : list B) (a : A) :
  (∀ x a, x ∈ l → f a x = g a x) → fold_left f l a = fold_left g l a.
Proof.
  revert a. induction l as [|x l IH]; intros a Hext; simpl; [done|].
  rewrite (Hext x a) by by left. apply IH. intros y b Hy. apply Hext. by right.
Qed.

Section Strangers.
Variable variant : Variant.
Variable input : ScheduleInput.t.

Let input' := withExisting input (knownExisting input).

Lemma existsb_knownExisting (s : Staff.t) (d : Z) :
  s ∈ ScheduleInput.staff input →
  existsb (λ e, bool_decide (Schedule.staffId e = Staff.id s ∧ Schedule.date e = d))
          (knownExisting input)
  = existsb (λ e, bool_decide (Schedule.staffId e = Staff.id s ∧ Schedule.date e = d))
            (ScheduleInput.existingSchedules input).
Proof.
  intros Hs. unfold knownExisting.
  induction (ScheduleInput.existingSchedules input) as [|e l IH]; [done|].
  rewrite filter_cons. case_decide as Hin; simpl; rewrite IH; [done|].
  rewrite bool_decide_eq_false_2; [done|].
  intros [Hid _]. apply Hin. rewrite Hid. by apply list_elem_of_fmap_2.
Qed.

Lemma dayStep_knownExisting (d : Z) (s : Staff.t) (st : GenState) :
  s ∈ ScheduleInput.staff input →
  dayStep variant input' d s st = dayStep variant input d s st.
Proof.
  intros Hs. unfold dayStep.
  change (ScheduleInput.existingSchedules input') with (knownExisting input).
  by rewrite (existsb_knownExisting s d Hs).
Qed.

Lemma processDate_knownExisting (d : Z) (st : GenState) :
  processDate variant input' d st = processDate variant input d st.
Proof.
  unfold processDate.
  change (dayPool input' d) with (dayPool input d).
  set (st0 := clearAssigned st). set (pool := dayPool input d st0).
  assert (dayPhase variant input' d pool st0 = dayPhase variant input d pool st0) as ->.
  { apply assignLoop_ext. intros s st' Hs. apply dayStep_knownExisting.
    unfold pool, dayPool in Hs.
    apply elem_of_availableStaff, elem_of_availablePool in Hs. by destruct Hs. }
  reflexivity.
Qed.

(** Seeding keeps the keys of [staffLoads]: the ids of the roster. *)
Lemma seedSchedule_dom (st : GenState) (e : Schedule.t) :
  dom (staffLoads (seedSchedule variant input st e)) = dom (staffLoads st).
Proof.
  unfold seedSchedule.
  destruct (staffLoads st !! Schedule.staffId e) as [load|] eqn:Hl; [|done].
  match goal with |- context [let '(_, _) := ?x in _] => destruct x end.
  simpl. rewrite dom_insert_L.
  apply (elem_of_dom_2 (D := gset Z)) in Hl.
  apply subseteq_union_1_L. by apply singleton_subseteq_l.
Qed.

Lemma initState_dom :
  dom (staffLoads (initState input))
  = (list_to_set (Staff.id <$> ScheduleInput.staff input) : gset Z).
Proof.
  unfold initState.
  assert (∀ l st, dom (staffLoads (fold_left initStaff l st))
                  = (list_to_set (Staff.id <$> l) : gset Z) ∪ dom (staffLoads st)) as H.
  { induction l as [|s l IH]; intros st; simpl; [by rewrite (left_id_L ∅ (∪))|].
    rewrite IH. simpl. rewrite dom_insert_L, (assoc_L (∪)). f_equal. apply (comm_L (∪)). }
  rewrite H. simpl. by rewrite dom_empty_L, (right_id_L ∅ (∪)).
Qed.

Lemma seed_knownExisting (l : list Schedule.t) (st : GenState) :
  dom (staffLoads st) = (list_to_set (Staff.id <$> ScheduleInput.staff input) : gset Z) →
  fold_left (seedSchedule variant input)
            (filter (λ e, Schedule.staffId e ∈ Staff.id <$> ScheduleInput.staff input) l) st
  = fold_left (seedSchedule variant input) l st.
Proof.
  revert st. induction l as [|e l IH]; intros st Hdom; [done|].
  rewrite filter_cons. case_decide as Hin; simpl.
  - apply IH. by rewrite seedSchedule_dom.
  - rewrite IH by done. f_equal. unfold seedSchedule.
    destruct (staffLoads st !! Schedule.staffId e) eqn:Hl; [|done].
    exfalso. apply Hin. apply (elem_of_dom_2 (D := gset Z)) in Hl.
    rewrite Hdom in Hl. by apply elem_of_list_to_set in Hl.
Qed.

Lemma seedState_knownExisting : seedState variant input' = seedState variant input.
Proof.
  unfold seedState.
  change (ScheduleInput.existingSchedules input') with (knownExisting input).
  change (initState input') with (initState input).
  change (seedSchedule variant input') with (seedSchedule variant input).
  apply seed_knownExisting, initState_dom.
Qed.

Lemma generateState_knownExisting :
  generateState variant input' = generateState variant input.
Proof.
  unfold generateState. rewrite seedState_knownExisting.
  change (dates input') with (dates input).
  apply fold_left_ext_elem. intros d st _. apply processDate_knownExisting.
Qed.
End Strangers.

(** X10.  An entry of [existingSchedules] whose staff id is not on the roster
    has no effect: either library returns what it returns for the input
    without such entries. *)
Theorem existing_schedules_of_strangers_are_ignored (variant : Variant)
    (input : ScheduleInput.t) :
  generateSchedule variant (withExisting input (knownExisting input))
  = generateSchedule variant input.
Proof. unfold generateSchedule. by rewrite generateState_knownExisting. Qed.

(** * What the existing schedules leave in the bookkeeping *)

Section Seeding.
Variable variant : Variant.
Variable input : ScheduleInput.t.

Lemma getWeekly_bumpWeekly (w i k j : Z) (st : GenState) :
  getWeekly (bumpWeekly w i st) k j
  = getWeekly st k j + (if bool_decide (i = j) && bool_decide (w = k) then 1 else 0).
Proof.
  unfold getWeekly, bumpWeekly. simpl. rewrite lookup_insert.
  case_decide as Hk.
  - injection Hk as -> ->. rewrite !bool_decide_eq_true_2 by done. done.
  - destruct (decide (i = j)) as [->|Hij].
    + rewrite (bool_decide_eq_true_2 (j = j)) by done.
      rewrite bool_decide_eq_false_2 by congruence. simpl. lia.
    + rewrite (bool_decide_eq_false_2 (i = j)) by done. simpl. lia.
Qed.

(** One turn of the loop over [existingSchedules], for a member with a
    load. *)
Lemma seedSchedule_effect (st : GenState) (e : Schedule.t) (i k : Z) :
  is_Some (staffLoads st !! i) →
  let st' := seedSchedule variant input st e in
  let own := bool_decide (Schedule.staffId e = i) in
  let worked := own && truthyId (Schedule.shiftTypeId e) in
  getWeekly st' k i
  = getWeekly st k i
    + (if own && bool_decide (getWeekKey (Schedule.date e) = k) then 1 else 0)
  ∧ totalShifts (getLoad st' i) = totalShifts (getLoad st i) + (if worked then 1 else 0)
  ∧ lastShiftDate (getLoad st' i)
    = (if worked then Some (Schedule.date e) else lastShiftDate (getLoad st i))
  ∧ consecutiveShifts (getLoad st' i) = consecutiveShifts (getLoad st i)
  ∧ restDays (getLoad st' i) = restDays (getLoad st i).
Proof.
  intros [l0 Hl0] st' own worked. subst st' own worked. unfold seedSchedule.
  destruct (staffLoads st !! Schedule.staffId e) as [load|] eqn:Hl.
  - match goal with
    | |- context [let '(_, _) := ?x in _] => destruct x as [load1 pat1] eqn:Hm
    end.
    rewrite getWeekly_bumpWeekly.
    change (getWeekly (setPattern _ _ (setLoad _ _ st)) k i) with (getWeekly st k i).
    change (getLoad (bumpWeekly _ _ (setPattern _ _ ?x)) i) with (getLoad x i).
    rewrite getLoad_setLoad.
    destruct (decide (Schedule.staffId e = i)) as [Heq|Hne].
    + rewrite (bool_decide_eq_true_2 _ Heq). simpl.
      assert (getLoad st i = load) as -> by (unfold getLoad; by rewrite <- Heq, Hl).
      split; [done|].
      destruct (Schedule.shiftTypeId e) as [| |z]; simpl in *;
        [simplify_eq; split_and!; try done; lia..|].
      destruct (decide (z = 0)) as [Hz|Hz].
      * rewrite bool_decide_eq_false_2 by (intros H; by apply H).
        simplify_eq. split_and!; try done; lia.
      * rewrite bool_decide_eq_true_2 by done.
        repeat case_decide; simplify_eq; simpl; split_and!; try done; lia.
    + rewrite (bool_decide_eq_false_2 _ Hne). simpl. split_and!; try done; lia.
  - assert (Schedule.staffId e ≠ i) as Hne by (intros Heq; by rewrite Heq, Hl0 in Hl).
    rewrite (bool_decide_eq_false_2 _ Hne). simpl. split_and!; try done; lia.
Qed.

Lemma seed_counts (l : list Schedule.t) (st : GenState) (i k : Z) :
  is_Some (staffLoads st !! i) →
  let st' := fold_left (seedSchedule variant input) l st in
  getWeekly st' k i
  = getWeekly st k i
    + Z.of_nat (length (filter (λ e, Schedule.staffId e = i
                                     ∧ getWeekKey (Schedule.date e) = k) l))
  ∧ totalShifts (getLoad st' i)
    = totalShifts (getLoad st i)
      + Z.of_nat (length (filter (λ e, Schedule.staffId e = i
                                       ∧ truthyId (Schedule.shiftTypeId e) = true) l))
  ∧ lastShiftDate (getLoad st' i)
    = match last (filter (λ e, Schedule.staffId e = i
                               ∧ truthyId (Schedule.shiftTypeId e) = true) l) with
      | Some e => Some (Schedule.date e)
      | None => lastShiftDate (getLoad st i)
      end
  ∧ consecutiveShifts (getLoad st' i) = consecutiveShifts (getLoad st i)
  ∧ restDays (getLoad st' i) = restDays (getLoad st i).
Proof.
  revert st. induction l as [|e l IH]; intros st Hi; simpl.
  - split_and!; try done; lia.
  - assert (is_Some (staffLoads (seedSchedule variant input st e) !! i)) as Hi'.
    { apply (elem_of_dom (D := gset Z)). rewrite seedSchedule_dom.
      by apply (elem_of_dom (D := gset Z)). }
    destruct (IH _ Hi') as (I1 & I2 & I3 & I4 & I5).
    destruct (seedSchedule_effect st e i k Hi) as (E1 & E2 & E3 & E4 & E5).
    rewrite I1, I2, I3, I4, I5, E1, E2, E3, E4, E5. rewrite !filter_cons.
    destruct (decide (Schedule.staffId e = i)) as [Heq|Hne].
    + rewrite (bool_decide_eq_true_2 _ Heq). simpl.
      split_and!; try done.
      * destruct (decide (getWeekKey (Schedule.date e) = k)) as [Hk|Hk].
        -- rewrite (bool_decide_eq_true_2 _ Hk), decide_True by done. simpl. lia.
        -- rewrite (bool_decide_eq_false_2 _ Hk), decide_False by tauto. lia.
      * destruct (truthyId (Schedule.shiftTypeId e)) eqn:Ht.
        -- rewrite decide_True by done. simpl. lia.
        -- rewrite decide_False by (intros [_ ?]; done). lia.
      * destruct (truthyId (Schedule.shiftTypeId e)) eqn:Ht.
        -- rewrite decide_True by done. rewrite last_cons.
           by destruct (last _).
        -- by rewrite decide_False by (intros [_ ?]; done).
    + rewrite (bool_decide_eq_false_2 _ Hne). simpl.
      rewrite !decide_False by tauto. split_and!; try done; lia.
Qed.

Lemma initState_loads (i : Z) :
  i ∈ Staff.id <$> ScheduleInput.staff input →
  is_Some (staffLoads (initState input) !! i)
  ∧ totalShifts (getLoad (initState input) i) = 0
  ∧ lastShiftDate (getLoad (initState input) i) = None
  ∧ consecutiveShifts (getLoad (initState input) i) = 0
  ∧ restDays (getLoad (initState input) i) = 0.
Proof.
  intros Hi. unfold initState.
  assert (∀ l st,
            (i ∈ Staff.id <$> l ∨ (is_Some (staffLoads st !! i)
               ∧ totalShifts (getLoad st i) = 0 ∧ lastShiftDate (getLoad st i) = None
               ∧ consecutiveShifts (getLoad st i) = 0 ∧ restDays (getLoad st i) = 0)) →
            let st' := fold_left initStaff l st in
            is_Some (staffLoads st' !! i)
            ∧ totalShifts (getLoad st' i) = 0 ∧ lastShiftDate (getLoad st' i) = None
            ∧ consecutiveShifts (getLoad st' i) = 0 ∧ restDays (getLoad st' i) = 0) as H.
  { induction l as [|s l IH]; intros st Hor; simpl.
    - destruct Hor as [Hin|?]; [by apply elem_of_nil in Hin|done].
    - apply IH. destruct (decide (Staff.id s = i)) as [<-|Hne].
      + right. unfold initStaff, getLoad. simpl. rewrite lookup_insert_eq. by simpl.
      + destruct Hor as [Hin|Hst].
        * left. apply elem_of_cons in Hin as [?|?]; [congruence|done].
        * right. unfold initStaff, getLoad in *. simpl.
          by rewrite lookup_insert_ne by done. }
  apply H. by left.
Qed.

Lemma initState_weekly (k i : Z) : getWeekly (initState input) k i = 0.
Proof.
  unfold initState.
  assert (∀ l st, weeklySchedules (fold_left initStaff l st) = weeklySchedules st) as H.
  { induction l as [|s l IH]; intros st; simpl; [done|]. by rewrite IH. }
  unfold getWeekly. by rewrite H.
Qed.
End Seeding.

(** X11.  The bookkeeping with which a run of either library starts, for a
    roster member: the count kept under a week key is the number of the
    member's entries in [existingSchedules] whose date [getWeekKey] maps to
    that key, with or without a shift; [totalShifts] is the number of those
    with a shift; [lastShiftDate] is the date of the last of these in the
    order of the array; the streak and the rest days are 0 whatever the
    existing entries are. *)
Theorem bookkeeping_from_existing_schedules (variant : Variant) (input : ScheduleInput.t)
    (i weekKey : Z) :
  i ∈ Staff.id <$> ScheduleInput.staff input →
  let st := seedState variant input in
  getWeekly st weekKey i = Z.of_nat (length (existingInWeek input i weekKey))
  ∧ totalShifts (getLoad st i) = Z.of_nat (length (existingShifts input i))
  ∧ lastShiftDate (getLoad st i) = Schedule.date <$> last (existingShifts input i)
  ∧ consecutiveShifts (getLoad st i) = 0
  ∧ restDays (getLoad st i) = 0.
Proof.
  intros Hi st.
  destruct (initState_loads input i Hi) as (Hsome & T0 & L0 & C0 & R0).
  destruct (seed_counts variant input (ScheduleInput.existingSchedules input)
              (initState input) i weekKey Hsome) as (S1 & S2 & S3 & S4 & S5).
  fold (seedState variant input) in S1, S2, S3, S4, S5. fold st in S1, S2, S3, S4, S5.
  rewrite initState_weekly in S1. rewrite T0 in S2. rewrite L0 in S3.
  rewrite C0 in S4. rewrite R0 in S5.
  unfold existingInWeek, existingShifts.
  split_and!; [lia|lia| |done|done].
  rewrite S3. by destruct (last _).
Qed.

(** * The consecutive-shift counts of the two detectors *)

Section BasicCount.
Variable schedule : Schedule.t.
Variable allSchedules : list (ref * Schedule.t).
Variable step : Z → Z.
Variable dir : Z.
Hypothesis Hstep : ∀ d, step d = d + dir.

(** What a loop that has ended has counted. *)
Lemma runLength_spec (fuel : nat) (checkDate n : Z) :
  runLength schedule allSchedules fuel step checkDate = Some n →
  0 ≤ n
  ∧ (∀ k, 0 ≤ k < n → worksOn schedule allSchedules (checkDate + k * dir) = true)
  ∧ worksOn schedule allSchedules (checkDate + n * dir) = false.
Proof.
  revert checkDate n. induction fuel as [|fuel IH]; intros d n; simpl; [done|].
  destruct (worksOn schedule allSchedules d) eqn:Hw.
  - destruct (runLength _ _ fuel step (step d)) as [n'|] eqn:Hn'; [|done].
    intros [= <-]. destruct (IH _ _ Hn') as (I0 & I1 & I2).
    rewrite Hstep in I1, I2. split_and!; [lia| |].
    + intros k Hk. destruct (decide (k = 0)) as [->|Hne].
      * by rewrite Z.mul_0_l, Z.add_0_r.
      * replace (d + k * dir) with (d + dir + (k - 1) * dir) by lia.
        apply I1. lia.
    + replace (d + (1 + n') * dir) with (d + dir + n' * dir) by lia. exact I2.
  - intros [= <-]. split_and!; [lia|intros; lia|]. by rewrite Z.mul_0_l, Z.add_0_r.
Qed.
End BasicCount.

(** X12.  The count of the detector of [scheduling-algorithm.ts], in a zone
    whose offset never changes and with more turns allowed than the list
    has entries: the two loops end; the candidate's date lies in an
    interval [a, b] of dates such that the list holds, for each other date
    of the interval, an entry of the member whose [shiftTypeId] is not
    [null]; the interval cannot be extended on either side; the count is
    the number of dates of the interval.  The warning is given when the
    count is above 5. *)
Theorem basic_consecutive_count_is_longest_run (self : ref) (schedule : Schedule.t)
    (allSchedules : list (ref * Schedule.t)) (staffList : list Staff.t)
    (availabilities : list Availability.t) (shiftTypes : list ShiftType.t)
    (c : Z) (fuel : nat) :
  steady c →
  (length allSchedules < fuel)%nat →
  let d := Schedule.date schedule in
  let works := worksOn schedule allSchedules in
  ∃ n, consecutiveAround schedule allSchedules fuel = Some n
       ∧ (∃ a b, a ≤ d ≤ b ∧ n = b - a + 1
                 ∧ (∀ x, a ≤ x ≤ b → x ≠ d → works x = true)
                 ∧ works (a - 1) = false ∧ works (b + 1) = false)
       ∧ ∀ m, findStaff schedule staffList = Some m →
              ∃ found,
                detectBasic self schedule allSchedules staffList availabilities
                            shiftTypes fuel = Some found
                ∧ (detectRecord schedule CONSECUTIVE_SHIFTS
                     (MsgConsecutiveExceedsMaximum n MAX_CONSECUTIVE_SHIFTS) Warning m
                   ∈ found ↔ 5 < n).
Proof.
  intros Hsteady Hfuel d works.
  pose proof (getPreviousDay_steady c Hsteady) as Hprev.
  pose proof (getNextDay_steady c Hsteady) as Hnext.
  destruct (runLength_returns schedule allSchedules getPreviousDay (-1) Hprev
              ltac:(done) fuel (getPreviousDay d) Hfuel) as [nb Hnb].
  destruct (runLength_returns schedule allSchedules getNextDay 1 Hnext
              ltac:(done) fuel (getNextDay d) Hfuel) as [nf Hnf].
  destruct (runLength_spec schedule allSchedules getPreviousDay (-1) Hprev fuel _ _ Hnb)
    as (B0 & B1 & B2).
  destruct (runLength_spec schedule allSchedules getNextDay 1 Hnext fuel _ _ Hnf)
    as (F0 & F1 & F2).
  rewrite Hprev in B1, B2. rewrite Hnext in F1, F2.
  assert (consecutiveAround schedule allSchedules fuel = Some (1 + nb + nf)) as Hn.
  { unfold consecutiveAround. fold d. by rewrite Hnb, Hnf. }
  exists (1 + nb + nf). split_and!; [done| |].
  - exists (d - nb), (d + nf). split_and!; [lia|lia|lia| | |].
    + intros x Hx Hne. destruct (decide (x < d)) as [Hlt|Hge].
      * replace x with (d - 1 + (d - 1 - x) * -1) by lia. apply B1. lia.
      * replace x with (d + 1 + (x - d - 1) * 1) by lia. apply F1. lia.
    + replace (d - nb - 1) with (d - 1 + nb * -1) by lia. exact B2.
    + replace (d + nf + 1) with (d + 1 + nf * 1) by lia. exact F2.
  - intros m Hm. unfold detectBasic. rewrite Hm, Hn. simpl.
    eexists. split; [done|].
    rewrite !elem_of_app. unfold MAX_CONSECUTIVE_SHIFTS. split.
    + intros H. destruct (decide (5 < 1 + nb + nf)) as [|Hle]; [done|exfalso].
      repeat (destruct H as [H|H]; [by repeat case_match; set_unfold; destruct H|]).
      by apply elem_of_nil in H.
    + intros Hgt. do 5 right. rewrite decide_True by done. by left.
Qed.

(** ** The loop over the sorted dates *)

Lemma runUpTo_first (l : list Z) (x m : Z) : 0 < m → runUpTo l x m → x ∈ l.
Proof. intros Hm H. replace x with (x - 0) by lia. apply H. lia. Qed.

(** Whatever the loop returns is the length of a run of listed dates. *)
Lemma maxRun_sound (l rest : list Z) (prev consecutiveCount maxConsecutive : Z) :
  (∀ y, y ∈ rest → y ∈ l) →
  runUpTo l prev consecutiveCount →
  (∃ x, runUpTo l x maxConsecutive) →
  ∃ x, runUpTo l x (maxRun prev rest consecutiveCount maxConsecutive).
Proof.
  revert prev consecutiveCount maxConsecutive.
  induction rest as [|curr rest IH]; intros prev cc mc Hin Hcc Hmc; simpl; [done|].
  assert (runUpTo l curr (if decide (curr - prev = 1) then cc + 1 else 1)) as Hcc'.
  { case_decide as Hstep; intros k Hk.
    - destruct (decide (k = 0)) as [->|Hne].
      + rewrite Z.sub_0_r. apply Hin. by left.
      + replace (curr - k) with (prev - (k - 1)) by lia. apply Hcc. lia.
    - replace k with 0 by lia. rewrite Z.sub_0_r. apply Hin. by left. }
  apply IH; [intros y Hy; apply Hin; by right|done|].
  destruct (Z.max_spec mc (if decide (curr - prev = 1) then cc + 1 else 1))
    as [[_ ->]|[_ ->]]; [by exists curr|done].
Qed.

(** On dates in strictly ascending order, no run of listed dates is longer
    than what the loop returns. *)
Lemma maxRun_complete (l rest : list Z) (prev consecutiveCount maxConsecutive : Z) :
  StronglySorted Z.lt (prev :: rest) →
  0 ≤ maxConsecutive →
  (∀ y, y ∈ l → y ≤ prev ∨ y ∈ rest) →
  (∀ m, runUpTo l prev m → m ≤ consecutiveCount) →
  (∀ x m, x ≤ prev → runUpTo l x m → m ≤ maxConsecutive) →
  ∀ x m, runUpTo l x m → m ≤ maxRun prev rest consecutiveCount maxConsecutive.
Proof.
  revert prev consecutiveCount maxConsecutive.
  induction rest as [|curr rest IH]; intros prev cc mc Hsorted Hmc0 Hl Hcc Hmc x m Hrun;
    simpl.
  - destruct (decide (0 < m)) as [Hm|]; [|lia].
    apply (Hmc x); [|done].
    destruct (Hl x (runUpTo_first l x m Hm Hrun)) as [|Hx]; [done|].
    by apply elem_of_nil in Hx.
  - apply StronglySorted_inv in Hsorted as [Hsorted Hprev].
    pose proof Hsorted as Hsorted'.
    apply StronglySorted_inv in Hsorted' as [_ Hcurr].
    apply Forall_cons in Hprev as [Hlt Hprev].
    assert (∀ y, y ∈ l → y ≤ prev ∨ curr ≤ y) as Hgap.
    { intros y Hy. destruct (Hl y Hy) as [|Hy']; [by left|right].
      apply elem_of_cons in Hy' as [->|Hy']; [lia|].
      pose proof (proj1 (Forall_forall _ _) Hcurr y Hy'). lia. }
    assert (∀ m', runUpTo l curr m' →
                  m' ≤ (if decide (curr - prev = 1) then cc + 1 else 1)) as Hcc'.
    { intros m' Hm'. case_decide as Hstep.
      - assert (m' - 1 ≤ cc); [|lia]. apply Hcc. intros k Hk.
        replace (prev - k) with (curr - (k + 1)) by lia. apply Hm'. lia.
      - destruct (decide (m' ≤ 1)) as [|Hgt]; [done|exfalso].
        destruct (Hgap (curr - 1)); [apply Hm'|..]; lia. }
    apply (IH curr _ _ Hsorted) with (x := x); [lia| | | |done].
    + intros y Hy. destruct (Hl y Hy) as [|Hy']; [left; lia|].
      apply elem_of_cons in Hy' as [->|Hy']; [left; lia|by right].
    + done.
    + intros x' m' Hx' Hm'.
      destruct (decide (x' ≤ prev)) as [Hle|Hgt].
      { pose proof (Hmc x' m' Hle Hm'). lia. }
      destruct (decide (x' = curr)) as [->|Hne].
      { pose proof (Hcc' m' Hm'). lia. }
      destruct (decide (0 < m')) as [Hpos|]; [exfalso|lia].
      destruct (Hgap x' (runUpTo_first l x' m' Hpos Hm')); lia.
Qed.

Lemma sorted_NoDup_strict (l : list Z) :
  StronglySorted (λ a b, a - b ≤ 0) l → NoDup l → StronglySorted Z.lt l.
Proof.
  induction 1 as [|x l Hs IH Hall]; intros Hnd; [constructor|].
  apply NoDup_cons in Hnd as [Hx Hnd]. constructor; [by apply IH|].
  apply Forall_forall. intros y Hy.
  pose proof (proj1 (Forall_forall _ _) Hall y Hy) as Hle. simpl in Hle.
  assert (x ≠ y) by (intros ->; done). lia.
Qed.

Lemma sortBy_dates_sorted (l : list Z) :
  StronglySorted (λ a b, a - b ≤ 0) (sortBy (λ a b, a - b) l).
Proof. apply (sortBy_sorted (λ a b : Z, a - b)); intros; lia. Qed.

(** The result of the loop on the dates of a list, sorted. *)
Lemma maxConsecutiveOf_sortBy (l : list Z) :
  match maxConsecutiveOf (sortBy (λ a b, a - b) l) with
  | None => l = []
  | Some n =>
    (∃ x, runUpTo l x n)
    ∧ (NoDup l → ∀ x m, runUpTo l x m → m ≤ n)
  end.
Proof.
  pose proof (sortBy_perm (λ a b : Z, a - b) l) as Hperm.
  pose proof (sortBy_dates_sorted l) as Hsorted.
  destruct (sortBy (λ a b, a - b) l) as [|d rest] eqn:Hsort; simpl.
  - symmetry in Hperm. by apply Permutation_nil_r in Hperm.
  - assert (∀ y, y ∈ l ↔ y ∈ d :: rest) as Hmem by (intros y; by rewrite Hperm).
    assert (runUpTo l d 1) as Hone.
    { intros k Hk. replace (d - k) with d by lia. apply Hmem. by left. }
    split.
    + apply maxRun_sound; [intros y Hy; apply Hmem; by right|done|by exists d].
    + intros Hnd.
      assert (StronglySorted Z.lt (d :: rest)) as Hstrict.
      { apply sorted_NoDup_strict; [done|]. by rewrite Hperm. }
      assert (∀ y, y ∈ l → d ≤ y) as Hmin.
      { intros y Hy. apply Hmem in Hy. apply StronglySorted_inv in Hstrict as [_ Hall].
        apply elem_of_cons in Hy as [->|Hy]; [lia|].
        pose proof (proj1 (Forall_forall _ _) Hall y Hy). lia. }
      assert (∀ x m, x ≤ d → runUpTo l x m → m ≤ 1) as Hstart.
      { intros x m Hx Hm. destruct (decide (m ≤ 1)) as [|Hgt]; [done|exfalso].
        assert (d ≤ x - 1); [apply Hmin, Hm|]; lia. }
      apply maxRun_complete; [done|lia| | |done].
      * intros y Hy. apply Hmem in Hy.
        apply elem_of_cons in Hy as [->|Hy]; [left; lia|by right].
      * intros m. by apply Hstart.
Qed.

(** X13.  The warning of the detector of [enhanced-scheduling-algorithm.ts], for
    a candidate whose member is on the roster.  When it is given, the list
    holds entries of the member on six dates in a row.  When the member's
    entries of the list have pairwise different dates, six dates in a row
    with entries give the warning.  The candidate's own date plays no
    part. *)
Theorem enhanced_consecutive_warning_means_six_in_a_row (schedule : Schedule.t)
    (allSchedules : list (ref * Schedule.t)) (staffList : list Staff.t) (m : Staff.t) :
  findStaff schedule staffList = Some m →
  let dates := ownDates schedule allSchedules in
  let warning :=
    detectRecord schedule CONSECUTIVE_SHIFTS (MsgExceedsConsecutive MAX_CONSECUTIVE_SHIFTS)
                 Warning m in
  (warning ∈ detectEnhanced schedule allSchedules staffList → ∃ x, runUpTo dates x 6)
  ∧ (NoDup dates → (∃ x, runUpTo dates x 6) →
     warning ∈ detectEnhanced schedule allSchedules staffList).
Proof.
  intros Hm dates warning. unfold detectEnhanced, detectEnhancedWith. rewrite Hm.
  fold (ownDates schedule allSchedules). fold dates.
  pose proof (maxConsecutiveOf_sortBy dates) as Hspec.
  rewrite elem_of_app.
  destruct (maxConsecutiveOf (sortBy (λ a b, a - b) dates)) as [n|].
  - destruct Hspec as [[x0 Hsound] Hcomplete]. unfold MAX_CONSECUTIVE_SHIFTS. split.
    + intros [Hin|Hin].
      { destruct (List.find _ _); [|by apply elem_of_nil in Hin].
        by apply list_elem_of_singleton in Hin. }
      case_decide; [|by apply elem_of_nil in Hin].
      exists x0. intros k Hk. apply Hsound. lia.
    + intros Hnd [x Hx]. right. pose proof (Hcomplete Hnd x 6 Hx).
      rewrite decide_True by lia. by left.
  - split.
    + intros [Hin|Hin]; [|by apply elem_of_nil in Hin].
      destruct (List.find _ _); [|by apply elem_of_nil in Hin].
      by apply list_elem_of_singleton in Hin.
    + intros _ [x Hx]. exfalso. apply runUpTo_first in Hx; [|lia].
      rewrite Hspec in Hx. by apply elem_of_nil in Hx.
Qed.

(** ** What a reported conflict says *)

(** X14.  Either detector reports at most one conflict of each type, and only
    for a candidate whose member is on the roster; every conflict carries
    the candidate's staff id and date and the name of that member, and its
    severity follows from its type.  The enhanced detector always returns
    its list; the basic one does when its two loops end, as they do in a
    zone whose offset never changes. *)
Theorem conflicts_concern_the_candidate_once_per_type (v : Variant) (fuel : nat)
    (self : ref) (a : DetectArgs) :
  (∀ cs, conflictsOf v fuel self a = Some cs →
     NoDup (Conflict.type <$> cs)
     ∧ ∀ c, c ∈ cs →
         ∃ m, findStaff (argSchedule a) (argStaff a).*2 = Some m
              ∧ Conflict.staffId c = Schedule.staffId (argSchedule a)
              ∧ Conflict.date c = Schedule.date (argSchedule a)
              ∧ Conflict.staffName c = fullName m
              ∧ Conflict.severity c
                = match Conflict.type c with
                  | UNAVAILABLE_STAFF | EXISTING_ASSIGNMENT | REST_PERIOD_VIOLATION => Error
                  | _ => Warning
                  end)
  ∧ (v = Enhanced ∨ ((∃ c, steady c) ∧ (length (argSchedules a) < fuel)%nat) →
     is_Some (conflictsOf v fuel self a)).
Proof.
  split; [|apply conflictsOf_returns].
  intros cs. destruct v; simpl.
  - unfold detectBasic.
    destruct (findStaff (argSchedule a) (argStaff a).*2) as [m|];
      [|intros [= <-]; split; [constructor|by intros c ?%elem_of_nil]].
    set (cur := shiftOf (argShiftTypes a).*2 (Schedule.shiftTypeId (argSchedule a))).
    set (prev := match scheduleOn _ _ _ with Some p => _ | None => None end).
    assert (hasName "Night Shift" cur && hasName "Day Shift" cur = false) as Hcur.
    { destruct cur as [t|]; [|done]. simpl.
      destruct (decide (ShiftType.name t = "Night Shift")) as [Hn|Hn].
      - rewrite Hn. by rewrite (bool_decide_eq_false_2 ("Night Shift" = "Day Shift")).
      - by rewrite (bool_decide_eq_false_2 _ Hn). }
    destruct (consecutiveAround _ _ _) as [n|]; [|done]. simpl. intros [= <-].
    destruct (existsb _ (argAvailabilities a)), (existsb _ (argSchedules a)),
      (hasName "Night Shift" cur), (hasName "Day Shift" cur),
      (hasName "Day Shift" prev), (hasName "Night Shift" prev),
      (truthyString _ && truthyString _ && bool_decide _),
      (decide (MAX_CONSECUTIVE_SHIFTS < _)); try discriminate Hcur; simpl;
      (split;
       [apply NoDup_ListNoDup; repeat constructor; simpl; intuition congruence
       |intros c Hc; exists m; split; [done|];
        repeat (apply elem_of_cons in Hc as [->|Hc]; [by split_and!|]);
        by apply elem_of_nil in Hc]).
  - intros [= <-]. unfold detectEnhanced, detectEnhancedWith.
    destruct (findStaff (argSchedule a) (argStaff a).*2) as [m|];
      [|split; [constructor|by intros c ?%elem_of_nil]].
    destruct (List.find _ (argSchedules a)), (maxConsecutiveOf _) as [n|];
      try destruct (decide (MAX_CONSECUTIVE_SHIFTS < n)); simpl;
      (split;
       [apply NoDup_ListNoDup; repeat constructor; simpl; intuition congruence
       |intros c Hc; exists m; split; [done|];
        repeat (apply elem_of_cons in Hc as [->|Hc]; [by split_and!|]);
        by apply elem_of_nil in Hc]).
Qed.

(** * The suggesters *)

Lemma sortBy_sorted_rel {A : Type} (cmp : A → A → Z) (R : A → A → Prop) (l : list A) :
  (∀ x y z, cmp x y ≤ 0 → cmp y z ≤ 0 → cmp x z ≤ 0) →
  (∀ x y, cmp x y ≤ 0 ∨ cmp y x ≤ 0) →
  (∀ x y, cmp x y ≤ 0 → R x y) →
  StronglySorted R (sortBy cmp l).
Proof.
  intros Htrans Htotal HR.
  pose proof (sortBy_sorted cmp Htrans Htotal l) as Hs.
  induction Hs as [|x l' Hs IH Hall]; constructor; [done|].
  eapply Forall_impl; [exact Hall|]. intros y. apply HR.
Qed.

Lemma hasShiftConflict_false (i date : Z) (schedules : list Schedule.t) :
  hasShiftConflict i date schedules = false
  ↔ ∀ e, e ∈ schedules → Schedule.staffId e = i → Schedule.date e ≠ date.
Proof.
  unfold hasShiftConflict. induction schedules as [|e l IH]; simpl.
  - split; [by intros _ e ?%elem_of_nil|done].
  - rewrite orb_false_iff, IH. split.
    + intros [He Hl] e' [->|He']%elem_of_cons Hid; [|by apply Hl].
      apply bool_decide_eq_false_1 in He. tauto.
    + intros H. split.
      * apply bool_decide_eq_false_2. intros [Hid Hd]. by apply (H e); [left|..].
      * intros e' He'. apply H. by right.
Qed.

(** Membership in the result of the enhanced suggester. *)
Lemma elem_of_suggestEnhanced (staffId date : Z) (shiftTypeId : NullableId)
    (staff : list Staff.t) (schedules : list Schedule.t)
    (availabilities : list Availability.t) (unit : option string) (s : Staff.t) :
  s ∈ suggestEnhanced staffId date shiftTypeId staff schedules availabilities unit
  ↔ s ∈ staff
    ∧ hasShiftConflict (Staff.id s) date schedules = false
    ∧ (truthyString unit = true →
       (∃ s', s' ∈ staff ∧ hasShiftConflict (Staff.id s') date schedules = false
              ∧ Staff.specialization s' = unit) →
       Staff.specialization s = unit).
Proof.
  unfold suggestEnhanced. rewrite elem_of_sortBy.
  set (free := filter (λ s, Staff.id s ∉ _) staff).
  assert (∀ x, x ∈ free ↔ x ∈ staff ∧ hasShiftConflict (Staff.id x) date schedules = false)
    as Hfree.
  { intros x. unfold free. rewrite list_elem_of_filter, hasShiftConflict_false.
    rewrite (and_comm (x ∈ staff)). apply and_iff_compat_r. split.
    - intros Hno e He Hid Hd. apply Hno. rewrite <- Hid.
      apply list_elem_of_fmap_2. by apply list_elem_of_filter.
    - intros Hno (e & Hid & [Hd He]%list_elem_of_filter)%list_elem_of_fmap.
      by apply (Hno e). }
  destruct (truthyString unit) eqn:Hunit.
  - case_decide as Hlen.
    + rewrite list_elem_of_filter, Hfree. split.
      * intros (Hspec & Hs & Hno). by split_and!.
      * intros (Hs & Hno & Hspec). split_and!; try done. apply Hspec; [done|].
        destruct (filter _ free) as [|s' rest] eqn:Hf; [simpl in Hlen; lia|].
        assert (s' ∈ filter (λ s, Staff.specialization s = unit) free) as Hs'
          by (rewrite Hf; by left).
        apply list_elem_of_filter in Hs' as [Hspec' Hs']. apply Hfree in Hs' as [? ?].
        by exists s'.
    + rewrite Hfree. split.
      * intros (Hs & Hno). split_and!; try done. intros _ (s' & Hs' & Hno' & Hspec').
        exfalso. apply Hlen.
        assert (s' ∈ filter (λ s, Staff.specialization s = unit) free) as Hin.
        { apply list_elem_of_filter. split; [done|]. by apply Hfree. }
        destruct (filter _ free); [by apply elem_of_nil in Hin|simpl; lia].
      * intros (Hs & Hno & _). by split.
  - rewrite Hfree. split.
    + intros (Hs & Hno). by split_and!.
    + intros (Hs & Hno & _). by split.
Qed.

(** X15.  The suggester of [scheduling-algorithm.ts] returns the roster members
    other than the one to replace who are not marked away on the date and
    have no entry on it; the test on consecutive shifts excludes nobody,
    since it counts at most three.  They come ranked: with a unit given,
    those whose specialization is the unit first; then by the number of
    their entries with a shift, ascending. *)
Theorem basic_suggestions (staffId date : Z) (shiftTypeId : NullableId)
    (staff : list Staff.t) (schedules : list Schedule.t)
    (availabilities : list Availability.t) (unit : option string) :
  let suggested :=
    suggestBasic staffId date shiftTypeId staff schedules availabilities unit in
  (∀ s, s ∈ suggested
        ↔ s ∈ staff ∧ Staff.id s ≠ staffId
          ∧ ¬ markedAway availabilities (Staff.id s) date
          ∧ hasShiftConflict (Staff.id s) date schedules = false)
  ∧ StronglySorted (rankedBefore unit (shiftCount schedules)) suggested.
Proof.
  intros suggested. subst suggested. unfold suggestBasic. split.
  - intros s. rewrite elem_of_sortBy, !list_elem_of_filter.
    assert (Staff.id s ∈ Availability.staffId <$>
              filter (λ a, Availability.date a = date ∧ Availability.isAvailable a = false)
                     availabilities
            ↔ markedAway availabilities (Staff.id s) date) as Haway.
    { rewrite list_elem_of_fmap. unfold markedAway. split.
      - intros (a & Hid & [[Hd Hav] Ha]%list_elem_of_filter). by exists a.
      - intros (a & Ha & Hid & Hd & Hav). exists a. split; [done|].
        by apply list_elem_of_filter. }
    split.
    + intros (Hkeep & Hne & Hs). split_and!; try done.
      * intros Hmark. apply Haway in Hmark.
        by rewrite (bool_decide_eq_true_2 _ Hmark) in Hkeep.
      * destruct (bool_decide _); [done|].
        by destruct (hasShiftConflict (Staff.id s) date schedules).
    + intros (Hs & Hne & Hmark & Hno). split_and!; try done.
      rewrite bool_decide_eq_false_2 by (by rewrite Haway). rewrite Hno.
      case_decide as H; [exfalso|done].
      unfold MAX_CONSECUTIVE_SHIFTS in H. repeat case_match; lia.
  - apply sortBy_sorted_rel.
    + intros x y z.
      destruct (truthyString unit), (bool_decide (Staff.specialization x = unit)),
        (bool_decide (Staff.specialization y = unit)),
        (bool_decide (Staff.specialization z = unit)); simpl; lia.
    + intros x y.
      destruct (truthyString unit), (bool_decide (Staff.specialization x = unit)),
        (bool_decide (Staff.specialization y = unit)); simpl; lia.
    + intros x y. unfold rankedBefore, shiftCount.
      destruct (truthyString unit);
        destruct (bool_decide_reflect (Staff.specialization x = unit)),
          (bool_decide_reflect (Staff.specialization y = unit)); simpl; intros Hle;
        (split; [try done; try lia; tauto|]); intros Hsame; try lia;
        try (exfalso; tauto).
Qed.

(** X16.  The suggester of [enhanced-scheduling-algorithm.ts] returns the roster
    members with no entry on the date; when a unit is given and one of
    them has it as specialization, only those who have.  The member to
    replace, the shift and the availability records play no part: a member
    marked away may be suggested, and so may the member to replace.  The
    result is in ascending order of the number of entries of each member,
    with or without a shift. *)
Theorem enhanced_suggestions (staffId date : Z) (shiftTypeId : NullableId)
    (staff : list Staff.t) (schedules : list Schedule.t)
    (availabilities : list Availability.t) (unit : option string) :
  let suggested :=
    suggestEnhanced staffId date shiftTypeId staff schedules availabilities unit in
  (∀ s, s ∈ suggested
        ↔ s ∈ staff
          ∧ hasShiftConflict (Staff.id s) date schedules = false
          ∧ (truthyString unit = true →
             (∃ s', s' ∈ staff ∧ hasShiftConflict (Staff.id s') date schedules = false
                    ∧ Staff.specialization s' = unit) →
             Staff.specialization s = unit))
  ∧ StronglySorted (λ a b, entryCount schedules (Staff.id a)
                           ≤ entryCount schedules (Staff.id b)) suggested.
Proof.
  intros suggested. split; [intros s; apply elem_of_suggestEnhanced|].
  subst suggested. unfold suggestEnhanced.
  apply sortBy_sorted_rel; unfold entryCount; intros; lia.
Qed.

(** * The schedule editor *)

(** X17.  When the form names the staff member and the date of a stored entry
    (one with an id) and the member is on the roster, the editor reports
    that the member already has an assignment on the date: also when the
    entry is the one being edited, since the candidate has no id.  The
    alternatives it then offers are roster members without an entry on
    that date, so the member of the form is not among them. *)
Theorem editor_reports_stored_entry_of_same_day (staffList : list Staff.t)
    (existingSchedules : list (ref * Schedule.t)) (values : FormValues.t)
    (e : Schedule.t) (m : Staff.t) (dutyTypeId : Z) :
  e ∈ existingSchedules.*2 →
  Schedule.id e ≠ None →
  findStaff e staffList = Some m →
  FormValues.staffId values = Some (Schedule.staffId e) →
  Schedule.staffId e ≠ 0 →
  FormValues.date values = Some (Schedule.date e) →
  FormValues.dutyTypeId values = Some dutyTypeId →
  dutyTypeId ≠ 0 →
  ∃ conflicts alternatives,
    checkConflicts staffList existingSchedules values = Some (conflicts, alternatives)
    ∧ Conflict.mk EXISTING_ASSIGNMENT (Schedule.staffId e) (Schedule.date e)
        (MsgAlreadyHasAssignmentOn (Schedule.date e)) Error (fullName m) ∈ conflicts
    ∧ ∀ s, s ∈ alternatives →
           s ∈ staffList
           ∧ Staff.id s ≠ Schedule.staffId e
           ∧ hasShiftConflict (Staff.id s) (Schedule.date e) existingSchedules.*2 = false.
Proof.
  intros He Hid Hm Hstaff Hstaff0 Hdate Hduty Hduty0.
  unfold checkConflicts. rewrite Hstaff, Hdate, Hduty.
  rewrite !bool_decide_eq_false_2 by done. simpl.
  eexists _, _. split; [reflexivity|].
  set (cand := Schedule.mk None _ _ _ _ _).
  assert (Conflict.mk EXISTING_ASSIGNMENT (Schedule.staffId e) (Schedule.date e)
            (MsgAlreadyHasAssignmentOn (Schedule.date e)) Error (fullName m)
          ∈ detectEnhanced cand existingSchedules staffList) as Hin.
  { unfold detectEnhanced, detectEnhancedWith.
    change (findStaff cand staffList) with (findStaff e staffList). rewrite Hm.
    apply elem_of_app. left.
    destruct (List.find _ existingSchedules) as [p|] eqn:Hfind; [by left|exfalso].
    apply list_elem_of_fmap in He as ([r e'] & -> & Hin).
    apply list_elem_of_In in Hin.
    pose proof (find_none _ _ Hfind _ Hin) as Hfalse. simpl in Hfalse.
    apply bool_decide_eq_false_1 in Hfalse. apply Hfalse. by split_and!. }
  split; [exact Hin|].
  intros s Hs. rewrite decide_True in Hs.
  - apply elem_of_suggestEnhanced in Hs as (Hs & Hno & _). simpl in Hno.
    split_and!; try done. intros Heq.
    apply (proj1 (hasShiftConflict_false _ _ _) Hno e); done.
  - destruct (detectEnhanced cand existingSchedules staffList);
      [by apply elem_of_nil in Hin|simpl; lia].
Qed.

(** * Weeks and times *)

(** The key of a date in a zone whose offset never changes: the date less
    the day of the week that the local clock shows at UTC midnight. *)
Lemma getWeekKey_steady (c d : Z) :
  steady c → getWeekKey d = d - ((1440 * d + c) / 1440 + 4) mod 7.
Proof.
  intros Hsteady. unfold getWeekKey, getDay, isoDate, instantOf.
  rewrite (addDays_steady c Hsteady). destruct (Hsteady (1440 * d)) as [-> _].
  set (w := ((1440 * d + c) / 1440 + 4) mod 7).
  replace (1440 * d + 1440 * - w) with ((d - w) * 1440) by lia.
  by rewrite Z.div_mul.
Qed.

(** X18.  The key under which the weekly counts of both libraries file a
    date, in a zone whose offset never changes.  East of Greenwich or on it
    (offset from 0 to less than a day) the key is the Sunday of the date's
    week, Sunday to Saturday: the only Sunday among the date and the six
    days before it.  West of Greenwich (offset from a day behind to less
    than 0) it is the Monday on or before the date. *)
Theorem week_key_is_sunday_or_monday_on_or_before (c d weekKey : Z) :
  steady c →
  (0 ≤ c < 1440 →
   (getWeekKey d = weekKey ↔ weekdayOf weekKey = 0 ∧ weekKey ≤ d ≤ weekKey + 6))
  ∧ (-1440 ≤ c < 0 →
     (getWeekKey d = weekKey ↔ weekdayOf weekKey = 1 ∧ weekKey ≤ d ≤ weekKey + 6)).
Proof.
  intros Hsteady. rewrite (getWeekKey_steady c d Hsteady). unfold weekdayOf. split.
  - intros Hc.
    assert ((1440 * d + c) / 1440 = d) as ->
      by (symmetry; apply (Z.div_unique _ _ _ c); lia).
    split.
    + intros <-. pose proof (Z.mod_pos_bound (d + 4) 7 ltac:(lia)) as Hb.
      split; [|lia].
      replace (d - (d + 4) mod 7 + 4) with (d + 4 - (d + 4) mod 7) by lia.
      rewrite Zminus_mod, Zmod_mod, Z.sub_diag. reflexivity.
    + intros [Hsun Hd].
      pose proof (Z.div_mod (weekKey + 4) 7 ltac:(lia)) as Hk. rewrite Hsun in Hk.
      assert ((d + 4) mod 7 = d - weekKey); [|lia].
      symmetry. apply (Z.mod_unique_pos _ _ ((weekKey + 4) / 7)); lia.
  - intros Hc.
    assert ((1440 * d + c) / 1440 = d - 1) as ->
      by (symmetry; apply (Z.div_unique _ _ _ (c + 1440)); lia).
    replace (d - 1 + 4) with (d + 3) by lia. split.
    + intros <-. pose proof (Z.mod_pos_bound (d + 3) 7 ltac:(lia)) as Hb.
      split; [|lia].
      replace (d - (d + 3) mod 7 + 4) with (d + 3 - (d + 3) mod 7 + 1) by lia.
      rewrite Zplus_mod, Zminus_mod, Zmod_mod, Z.sub_diag. reflexivity.
    + intros [Hmon Hd].
      pose proof (Z.div_mod (weekKey + 4) 7 ltac:(lia)) as Hk. rewrite Hmon in Hk.
      assert ((d + 3) mod 7 = d - weekKey); [|lia].
      symmetry. apply (Z.mod_unique_pos _ _ ((weekKey + 4) / 7)); lia.
Qed.

(** X19.  For two times of day, [calculateDuration] gives the whole hours from
    the start to the end, the end taken on the next day when it is before
    the start: between 0 and 23, and 0 for equal times. *)
Theorem duration_is_whole_hours_until_end (startTime endTime : string)
    (startHours startMinutes endHours endMinutes : Z) :
  readsTime startTime startHours startMinutes →
  readsTime endTime endHours endMinutes →
  0 ≤ startHours < 24 → 0 ≤ startMinutes < 60 →
  0 ≤ endHours < 24 → 0 ≤ endMinutes < 60 →
  calculateDuration startTime endTime
  = Some (((endHours * 60 + endMinutes) - (startHours * 60 + startMinutes)) mod 1440 / 60).
Proof.
  unfold readsTime, calculateDuration. intros Hs He Hsh Hsm Heh Hem.
  destruct (toNumber <$> splitColon startTime) as [|a [|b l]]; try discriminate Hs.
  destruct (toNumber <$> splitColon endTime) as [|a' [|b' l']]; try discriminate He.
  simpl in Hs, He. simplify_eq. f_equal.
  set (E := endHours * 60 + endMinutes - (startHours * 60 + startMinutes)).
  repeat case_decide.
  - assert (E mod 1440 = E + 1440) as ->
      by (symmetry; apply (Z.mod_unique_pos _ _ (-1)); unfold E; lia).
    apply (Z.div_unique _ _ _ (E + 1440 - 60 * (endHours - startHours - 1 + 24)));
      unfold E; lia.
  - assert (E mod 1440 = E + 1440) as ->
      by (symmetry; apply (Z.mod_unique_pos _ _ (-1)); unfold E; lia).
    apply (Z.div_unique _ _ _ (E + 1440 - 60 * (endHours - startHours + 24)));
      unfold E; lia.
  - assert (E mod 1440 = E) as ->
      by (symmetry; apply (Z.mod_unique_pos _ _ 0); unfold E; lia).
    apply (Z.div_unique _ _ _ (E - 60 * (endHours - startHours - 1))); unfold E; lia.
  - assert (E mod 1440 = E) as ->
      by (symmetry; apply (Z.mod_unique_pos _ _ 0); unfold E; lia).
    apply (Z.div_unique _ _ _ (E - 60 * (endHours - startHours))); unfold E; lia.
Qed.

(** * Pre-duty and post-duty in the enhanced library *)

Section DutyTally.
Variable input : ScheduleInput.t.
Variable d : Z.

Local Abbreviation tallyGain := (tallyGain d).

Lemma tallyGain_refl (k : Z) (st : GenState) : tallyGain k 0 st st.
Proof. exists []. by rewrite app_nil_r. Qed.

Lemma tallyGain_trans (k : Z) (n m : nat) (st1 st2 st3 : GenState) :
  tallyGain k n st1 st2 → tallyGain k m st2 st3 → tallyGain k (n + m) st1 st3.
Proof.
  intros (new1 & H1 & L1) (new2 & H2 & L2). exists (new1 ++ new2).
  rewrite H2, H1, app_assoc. split; [done|].
  unfold entriesOn in *. by rewrite filter_app, length_app, L1, L2.
Qed.

Lemma tallyGain_same (k : Z) (n : nat) (st st' st'' : GenState) :
  schedules st'' = schedules st' → tallyGain k n st st' → tallyGain k n st st''.
Proof. intros Hs (new & H & L). exists new. by rewrite Hs. Qed.

Lemma tallyGain_other (k : Z) (st st' : GenState) (new : list Schedule.t) :
  schedules st' = schedules st ++ new →
  Forall (λ e, Schedule.date e ≠ d ∨ Schedule.dutyTypeId e ≠ k) new →
  tallyGain k 0 st st'.
Proof.
  intros Hs Hall. exists new. split; [done|]. unfold entriesOn. clear Hs.
  induction Hall as [|e l He Hall IH]; [done|].
  rewrite filter_cons, decide_False by tauto. done.
Qed.

(** A loop whose entries have the duty type "Duty" adds none of another
    duty type. *)
Lemma tallyGain_assignLoop (date k : Z) (step : Staff.t → GenState → bool * GenState)
    (entryOf : Staff.t → Schedule.t) (over : GenState → Staff.t → bool)
    (count : Z) (pool : list Staff.t) (st : GenState) :
  turnSpec date step entryOf over →
  (∀ s, Schedule.dutyTypeId (entryOf s) ≠ k) →
  tallyGain k 0 st (state (assignLoop step count pool (mkLoop 0 0 st))).
Proof.
  intros Hturn Hduty.
  apply (assignLoop_preserves (λ st', tallyGain k 0 st st')); [|apply tallyGain_refl].
  intros s st' _ Hst'. destruct (Hturn s st') as (_ & Hs & _).
  apply (tallyGain_trans k 0 0 st st'); [done|].
  apply (tallyGain_other k _ _ (if over st' s then [] else [entryOf s])); [done|].
  destruct (over st' s); [constructor|].
  constructor; [right; apply Hduty|constructor].
Qed.

(** The three loops of a date add no entry with another duty type than
    "Duty". *)
Lemma tallyGain_loops (date k : Z) (pool : list Staff.t) (st : GenState) :
  dutyId input ≠ k →
  tallyGain k 0 st
    (state (nightPhase Enhanced input date pool
       (state (eveningPhase Enhanced input date pool
          (state (dayPhase Enhanced input date pool st)))))).
Proof.
  intros Hk.
  apply (tallyGain_trans k 0 0 _ (state (eveningPhase Enhanced input date pool
           (state (dayPhase Enhanced input date pool st))))).
  - apply (tallyGain_trans k 0 0 _ (state (dayPhase Enhanced input date pool st))).
    + apply (tallyGain_assignLoop date k _ _ _ _ _ _ (dayStep_turn input date Enhanced)).
      intros s. exact Hk.
    + apply (tallyGain_assignLoop date k _ _ _ _ _ _ (eveningStep_turn input date Enhanced)).
      intros s. exact Hk.
  - apply (tallyGain_assignLoop date k _ _ _ _ _ _ (nightStep_turn input date Enhanced)).
    intros s. exact Hk.
Qed.

(** The pre-duty or post-duty step of a date: at most one entry, of its
    duty type and of the date. *)
Lemma dutyDayStep_entry (date dutyTypeId : Z) (bump : DutyPattern → DutyPattern)
    (sorted : list Staff.t) (st : GenState) :
  let st' := dutyDayStep input date dutyTypeId bump sorted st in
  schedules st' = schedules st
  ∨ ∃ s, schedules st'
         = schedules st
           ++ [Schedule.mk None (Staff.id s) date (ofOption (dayShiftId input)) dutyTypeId
                           (Some (ScheduleInput.unit input))].
Proof.
  unfold dutyDayStep. destruct sorted as [|s rest]; [by left|].
  case_decide; [by left|]. right. by exists s.
Qed.

Lemma tallyGain_dutyDayStep (date dutyTypeId k : Z) (bump : DutyPattern → DutyPattern)
    (sorted : list Staff.t) (st : GenState) :
  ∃ n, (n ≤ 1)%nat
       ∧ (dutyTypeId ≠ k ∨ date ≠ d → n = 0%nat)
       ∧ tallyGain k n st (dutyDayStep input date dutyTypeId bump sorted st).
Proof.
  destruct (dutyDayStep_entry date dutyTypeId bump sorted st) as [Hs|[s Hs]].
  - exists 0%nat. split_and!; [lia|done|].
    apply (tallyGain_same k 0 st st); [done|apply tallyGain_refl].
  - destruct (decide (date = d ∧ dutyTypeId = k)) as [[-> ->]|Hne].
    + exists 1%nat. split_and!; [lia|intros [?|?]; done|].
      eexists. split; [exact Hs|]. unfold entriesOn.
      by rewrite filter_cons, decide_True.
    + exists 0%nat. split_and!; [lia|done|].
      eapply tallyGain_other; [exact Hs|]. constructor; [simpl|constructor].
      destruct (decide (date = d)); [right|by left]. intros ->. tauto.
Qed.

(** One date of the run of the enhanced library. *)
Lemma tallyGain_processDate (date k : Z) (st : GenState) :
  dutyId input ≠ k →
  ∃ n, (n ≤ (if decide (preDutyId input = k) then 1 else 0)
            + (if decide (postDutyId input = k) then 1 else 0))%nat
       ∧ (date ≠ d → n = 0%nat)
       ∧ (preDutyId input = k → postDutyId input ≠ k →
          getNextDay date ∉ dates input → n = 0%nat)
       ∧ (postDutyId input = k → preDutyId input ≠ k →
          getPreviousDay date ∉ dates input → n = 0%nat)
       ∧ tallyGain k n st (processDate Enhanced input date st).
Proof.
  intros Hk. unfold processDate.
  set (st0 := clearAssigned st). set (pool := dayPool input date st0).
  pose proof (tallyGain_loops date k pool st0 Hk) as H3.
  set (st3 := state (nightPhase Enhanced input date pool _)) in *.
  assert (tallyGain k 0 st st3) as H3' by exact H3.
  assert (∃ n, (n ≤ (if decide (preDutyId input = k) then 1 else 0))%nat
               ∧ (date ≠ d → n = 0%nat)
               ∧ (getNextDay date ∉ dates input → n = 0%nat)
               ∧ tallyGain k n st3 (enhancedPreDuty input date pool st3))
    as (n1 & B1 & D1 & N1 & G1).
  { unfold enhancedPreDuty.
    destruct (decide (getNextDay date ∈ dates input)) as [Hnext|Hnext].
    - destruct (tallyGain_dutyDayStep date (preDutyId input) k bumpPreDuty
                  (sortBy (comparePreDuty st3) (unassigned st3 pool)) st3)
        as (n & Hn & Hz & Hg).
      exists n. split_and!; [|by intros; apply Hz; right|done|done].
      destruct (decide (preDutyId input = k)); [done|]. rewrite Hz; [lia|by left].
    - exists 0%nat. split_and!; [lia|done|done|apply tallyGain_refl]. }
  set (st4 := enhancedPreDuty input date pool st3) in *.
  assert (∃ n, (n ≤ (if decide (postDutyId input = k) then 1 else 0))%nat
               ∧ (date ≠ d → n = 0%nat)
               ∧ (getPreviousDay date ∉ dates input → n = 0%nat)
               ∧ tallyGain k n st4 (enhancedPostDuty input date pool st4))
    as (n2 & B2 & D2 & N2 & G2).
  { unfold enhancedPostDuty.
    destruct (decide (getPreviousDay date ∈ dates input)) as [Hprev|Hprev].
    - destruct (tallyGain_dutyDayStep date (postDutyId input) k bumpPostDuty
                  (sortBy (comparePostDuty st4) (unassigned st4 pool)) st4)
        as (n & Hn & Hz & Hg).
      exists n. split_and!; [|by intros; apply Hz; right|done|done].
      destruct (decide (postDutyId input = k)); [done|]. rewrite Hz; [lia|by left].
    - exists 0%nat. split_and!; [lia|done|done|apply tallyGain_refl]. }
  exists (n1 + n2)%nat. split_and!.
  - lia.
  - intros Hne. rewrite D1, D2 by done. done.
  - intros Hpre Hpost Hnext. rewrite N1 by done.
    rewrite decide_False in B2 by done. lia.
  - intros Hpost Hpre Hprev. rewrite N2 by done.
    rewrite decide_False in B1 by done. lia.
  - replace (n1 + n2)%nat with (0 + (n1 + n2))%nat by lia.
    apply (tallyGain_trans k _ _ st st3); [done|].
    by apply (tallyGain_trans k _ _ st3 st4).
Qed.

(** The dates of a list without repetition, one after the other. *)
Lemma tallyGain_dates (k : Z) (l : list Z) (st : GenState) :
  dutyId input ≠ k → NoDup l →
  ∃ n, (n ≤ (if decide (preDutyId input = k) then 1 else 0)
            + (if decide (postDutyId input = k) then 1 else 0))%nat
       ∧ (d ∉ l → n = 0%nat)
       ∧ (preDutyId input = k → postDutyId input ≠ k →
          getNextDay d ∉ dates input → n = 0%nat)
       ∧ (postDutyId input = k → preDutyId input ≠ k →
          getPreviousDay d ∉ dates input → n = 0%nat)
       ∧ tallyGain k n st (fold_left (λ st date, processDate Enhanced input date st) l st).
Proof.
  intros Hk. revert st. induction l as [|date l IH]; intros st Hnd; simpl.
  - exists 0%nat. split_and!; [lia|done..|apply tallyGain_refl].
  - apply NoDup_cons in Hnd as [Hdate Hnd].
    destruct (tallyGain_processDate date k st Hk) as (n1 & B1 & D1 & N1 & P1 & G1).
    destruct (IH (processDate Enhanced input date st) Hnd)
      as (n2 & B2 & D2 & N2 & P2 & G2).
    exists (n1 + n2)%nat.
    assert (n1 = 0%nat ∨ n2 = 0%nat) as Hone.
    { destruct (decide (date = d)) as [->|Hne]; [right; by apply D2|left; by apply D1]. }
    split_and!.
    + destruct Hone as [-> | ->]; lia.
    + intros Hnot. apply not_elem_of_cons in Hnot as [Hne Hnot].
      rewrite D1, D2 by done. done.
    + intros Hpre Hpost Hnext. rewrite (N2 Hpre Hpost Hnext).
      destruct (decide (date = d)) as [->|Hne]; [rewrite N1 by done|rewrite D1 by done];
        done.
    + intros Hpost Hpre Hprev. rewrite (P2 Hpost Hpre Hprev).
      destruct (decide (date = d)) as [->|Hne]; [rewrite P1 by done|rewrite D1 by done];
        done.
    + by apply (tallyGain_trans k _ _ st (processDate Enhanced input date st)).
Qed.
End DutyTally.

(** X20.  In a zone whose offset never changes, the enhanced library (the
    three duty types having different ids) gives a date at most one
    pre-duty entry and at most one post-duty entry; the last date of the
    range gets no pre-duty entry and the first date no post-duty entry. *)
Theorem enhanced_one_pre_duty_and_one_post_duty_at_most (input : ScheduleInput.t)
    (c d : Z) :
  steady c →
  dutyId input ≠ preDutyId input →
  dutyId input ≠ postDutyId input →
  preDutyId input ≠ postDutyId input →
  let preDuty := entriesOn d (preDutyId input) (generateSchedule Enhanced input).1 in
  let postDuty := entriesOn d (postDutyId input) (generateSchedule Enhanced input).1 in
  (length preDuty ≤ 1)%nat
  ∧ (length postDuty ≤ 1)%nat
  ∧ (ScheduleInput.endDate input ≤ d → preDuty = [])
  ∧ (d ≤ ScheduleInput.startDate input → postDuty = []).
Proof.
  intros Hsteady Hpre Hpost Hne preDuty postDuty. subst preDuty postDuty.
  unfold generateSchedule, generateState. simpl.
  destruct (seedState_logs Enhanced input) as [Hseed _].
  pose proof (NoDup_dateRange c Hsteady (ScheduleInput.startDate input)
                (ScheduleInput.endDate input)) as Hnd.
  fold (dates input) in Hnd.
  destruct (tallyGain_dates input d (preDutyId input) (dates input)
              (seedState Enhanced input) Hpre Hnd) as (n1 & B1 & _ & N1 & _ & new1 & S1 & L1).
  destruct (tallyGain_dates input d (postDutyId input) (dates input)
              (seedState Enhanced input) Hpost Hnd) as (n2 & B2 & _ & _ & P2 & new2 & S2 & L2).
  rewrite Hseed in S1, S2. simpl in S1, S2.
  rewrite decide_True in B1 by done. rewrite decide_False in B1 by done.
  rewrite decide_False in B2 by done. rewrite decide_True in B2 by done.
  split_and!.
  - rewrite S1, L1. lia.
  - rewrite S2, L2. lia.
  - intros Hend. apply length_zero_iff_nil. rewrite S1, L1. apply N1; [done..|].
    unfold dates. rewrite (getNextDay_steady c Hsteady).
    intros Hin%elem_of_dateRange. lia.
  - intros Hstart. apply length_zero_iff_nil. rewrite S2, L2. apply P2; [done..|].
    unfold dates. rewrite (getPreviousDay_steady c Hsteady).
    intros Hin%elem_of_dateRange. lia.
Qed.

End InZone.

(** * Concrete runs

    The runs that follow are those of a process in the zone
    [Examples.utc], unless they name another zone. *)

#[local] Existing Instance Examples.utc.

Lemma utc_steady : steady 0.
Proof. intros t. split; reflexivity. Defined.

Lemma example_shifts_keyed : catalogKeyed Examples.shifts.
Proof.
  split.
  - refine (bool_decide_unpack _ _). vm_compute. exact I.
  - repeat constructor.
Defined.

Lemma example_six_keyed : rosterKeyed Examples.six.
Proof. refine (bool_decide_unpack _ _). vm_compute. exact I. Defined.



(** C3, on the enhanced library: with six staff and three days, the member
    left after the night phase of the middle day is entered for pre-duty
    and, not having been marked, for post-duty as well: two entries for
    Finn on 2024-01-02. *)
Lemma enhanced_two_entries_same_member_same_date :
  let out := (generateSchedule Enhanced Examples.sixThreeDays).1 in
  out !! 11%nat = Some (Examples.entry 6 Examples.jan2 (Id 1) 1)
  ∧ out !! 12%nat = Some (Examples.entry 6 Examples.jan2 (Id 1) 3).
Proof. split; vm_compute; reflexivity. Qed.

(** C6, on the enhanced library: with nine staff and two days, Hugo is
    entered on the first day and gets no entry on the second; after the run
    his streak is still 1 and his rest-day counter still 0. *)
Lemma enhanced_unassigned_member_not_rested :
  let st := generateState Enhanced Examples.nineTwoDays in
  Forall (λ e, ¬ (Schedule.staffId e = 8 ∧ Schedule.date e = Examples.jan2)) (schedules st)
  ∧ consecutiveShifts (getLoad (stateBefore Enhanced Examples.nineTwoDays [Examples.jan1]) 8)
    = 1
  ∧ consecutiveShifts (getLoad st 8) = 1
  ∧ restDays (getLoad st 8) = 0.
Proof.
  split_and!; [|vm_compute; reflexivity..].
  refine (bool_decide_unpack _ _). vm_compute. exact I.
Qed.

(** ** The theorems at concrete inputs *)

(** Ana is away on 2024-01-01 and is entered on 2024-01-02. *)
Lemma unavailable_staff_never_scheduled_witness :
  Availability.mk 1 Examples.jan1 false ∈ ScheduleInput.availabilities Examples.anaAway
  ∧ (generateSchedule Enhanced Examples.anaAway).1 !! 5%nat
    = Some (Examples.entry 1 Examples.jan2 (Id 1) 2)
  ∧ Schedule.date (Examples.entry 1 Examples.jan2 (Id 1) 2)
    ≠ Availability.date (Availability.mk 1 Examples.jan1 false).
Proof.
  assert ((generateSchedule Enhanced Examples.anaAway).1 !! 5%nat
          = Some (Examples.entry 1 Examples.jan2 (Id 1) 2)) as Hlookup
    by (vm_compute; reflexivity).
  split_and!; [by left|exact Hlookup|].
  apply (unavailable_staff_never_scheduled Enhanced Examples.anaAway
           (Availability.mk 1 Examples.jan1 false)
           (Examples.entry 1 Examples.jan2 (Id 1) 2)).
  - by left.
  - reflexivity.
  - exact (list_elem_of_lookup_2 _ _ _ Hlookup).
  - reflexivity.
Defined.

(** C2, on both libraries, in a process whose zone is America/New_York.
    [getPreviousDay("2024-11-04")] is "2024-11-02" there: the night loop of
    2024-11-04 does not see the day shift of 2024-11-03.  In the enhanced
    library, with four staff, Ben has the day shift on 2024-11-03 and the
    night shift on 2024-11-04; in the basic library, with nine staff of
    whom six are away on 2024-11-04, Ana has. *)
Lemma night_shift_after_day_shift_in_new_york :
  getPreviousDay (zone := Examples.newYork) (Examples.nov3 + 1) = Examples.nov3 - 1
  ∧ (let out := (generateSchedule (zone := Examples.newYork) Enhanced
                   Examples.fourInNovember).1 in
     out !! 1%nat = Some (Examples.entry 2 Examples.nov3 (Id 1) 2)
     ∧ out !! 7%nat = Some (Examples.entry 2 (Examples.nov3 + 1) (Id 3) 2))
  ∧ (let out := (generateSchedule (zone := Examples.newYork) Basic
                   Examples.nineInNovember).1 in
     out !! 0%nat = Some (Examples.entry 1 Examples.nov3 (Id 1) 2)
     ∧ out !! 11%nat = Some (Examples.entry 1 (Examples.nov3 + 1) (Id 3) 2)).
Proof. cbv zeta. split_and!; vm_compute; reflexivity. Qed.

(** The same two inputs in a process whose zone is UTC: the candidate is
    passed over by the night loop. *)
Lemma no_night_shift_after_day_shift_in_utc :
  (let out := (generateSchedule Enhanced Examples.fourInNovember).1 in
   out !! 1%nat = Some (Examples.entry 2 Examples.nov3 (Id 1) 2)
   ∧ out !! 7%nat = Some (Examples.entry 2 (Examples.nov3 + 1) (Id 1) 1))
  ∧ (let out := generateSchedule Basic Examples.nineInNovember in
     out.1 !! 0%nat = Some (Examples.entry 1 Examples.nov3 (Id 1) 2)
     ∧ out.1 !! 11%nat = Some (Examples.entry 1 (Examples.nov3 + 1) Null 3)
     ∧ out.2 !! 0%nat
       = Some (Conflict.mk REST_PERIOD_VIOLATION 1 (Examples.nov3 + 1) MsgRestDayNight
                 Error "Ana Reyes")).
Proof. cbv zeta. split_and!; vm_compute; reflexivity. Qed.

(** Ana has the day shift on 2024-01-01 and the evening shift on the 2nd. *)
Lemma steady_zone_no_night_shift_after_day_shift_example :
  steady 0
  ∧ catalogKeyed (ScheduleInput.shiftTypes Examples.sixThreeDays)
  ∧ rosterKeyed (ScheduleInput.staff Examples.sixThreeDays)
  ∧ (generateSchedule Enhanced Examples.sixThreeDays).1 !! 0%nat
    = Some (Examples.entry 1 Examples.jan1 (Id 1) 2)
  ∧ (generateSchedule Enhanced Examples.sixThreeDays).1 !! 8%nat
    = Some (Examples.entry 1 Examples.jan2 (Id 2) 2)
  ∧ Schedule.shiftTypeId (Examples.entry 1 Examples.jan2 (Id 2) 2) ≠ Id 3.
Proof.
  assert ((generateSchedule Enhanced Examples.sixThreeDays).1 !! 0%nat
          = Some (Examples.entry 1 Examples.jan1 (Id 1) 2)) as H0
    by (vm_compute; reflexivity).
  assert ((generateSchedule Enhanced Examples.sixThreeDays).1 !! 8%nat
          = Some (Examples.entry 1 Examples.jan2 (Id 2) 2)) as H8
    by (vm_compute; reflexivity).
  split_and!; [exact utc_steady|exact example_shifts_keyed|exact example_six_keyed
              |exact H0|exact H8|].
  apply (steady_zone_no_night_shift_after_day_shift Enhanced Examples.sixThreeDays 0 1 3
           (Examples.entry 1 Examples.jan1 (Id 1) 2)
           (Examples.entry 1 Examples.jan2 (Id 2) 2)
           utc_steady example_shifts_keyed example_six_keyed eq_refl eq_refl
           (list_elem_of_lookup_2 _ _ _ H0) (list_elem_of_lookup_2 _ _ _ H8)
           eq_refl eq_refl eq_refl).
Defined.

(** C4, on the enhanced library, in a process whose zone is
    America/New_York.  The date loop pushes 2024-03-10 twice.  Ana has an
    entry in [existingSchedules] on that date and six in its week.  The
    first time the date is processed she is ranked last and the three
    loops do not come to her; the pre-duty block records a weekly-count
    warning for her.  The second time she is ranked first; the day loop
    records the [existing_assignment] error, and [conflicts.find] returns
    the warning of the first time: she is assigned the day shift and
    counted. *)
Lemma booked_member_gets_day_shift_in_new_york :
  let input := Examples.anaBookedInMarch in
  let ana := Examples.member 1 "Ana" in
  let st := stateBefore (zone := Examples.newYork) Enhanced input [Examples.mar10] in
  let out := generateSchedule (zone := Examples.newYork) Enhanced input in
  dates (zone := Examples.newYork) input = [Examples.mar10; Examples.mar10]
  ∧ hasShiftConflict 1 Examples.mar10 (ScheduleInput.existingSchedules input) = true
  ∧ conflicts st
    = [Conflict.mk EXCEEDS_WEEKLY_HOURS 1 Examples.mar10
         (MsgExceedsWeekly MAX_SHIFTS_PER_WEEK) Warning "Ana Reyes"]
  ∧ dayPool (zone := Examples.newYork) input Examples.mar10 st !! 0%nat = Some ana
  ∧ (dayStep (zone := Examples.newYork) Enhanced input Examples.mar10 ana st).1 = true
  ∧ out.1 !! 5%nat = Some (Examples.entry 1 Examples.mar10 (Id 1) 2)
  ∧ out.2 !! 1%nat
    = Some (Conflict.mk EXISTING_ASSIGNMENT 1 Examples.mar10
              (MsgAlreadyHasAssignmentOn Examples.mar10) Error "Ana Reyes").
Proof. cbv zeta. split_and!; vm_compute; reflexivity. Qed.

(** Ana, alone on the roster and already booked on 2024-01-01, is the first
    candidate of the day loop of that date: her turn does not count. *)
Lemma day_shift_policy_on_first_visit_example :
  rosterKeyed (ScheduleInput.staff Examples.anaAloneBooked)
  ∧ (Examples.jan1 ∉ @nil Z)
  ∧ dayPool Examples.anaAloneBooked Examples.jan1
      (stateBefore Enhanced Examples.anaAloneBooked [])
    = [] ++ Examples.member 1 "Ana" :: []
  ∧ (dayStep Enhanced Examples.anaAloneBooked Examples.jan1 (Examples.member 1 "Ana")
       (stateBefore Enhanced Examples.anaAloneBooked [])).1 = false.
Proof.
  assert (rosterKeyed (ScheduleInput.staff Examples.anaAloneBooked)) as H1
    by (refine (bool_decide_unpack _ _); vm_compute; exact I).
  assert (dayPool Examples.anaAloneBooked Examples.jan1
            (stateBefore Enhanced Examples.anaAloneBooked [])
          = [] ++ Examples.member 1 "Ana" :: []) as H3
    by (vm_compute; reflexivity).
  split_and!; [exact H1|apply not_elem_of_nil|exact H3|].
  destruct (day_shift_policy_on_first_visit Enhanced Examples.anaAloneBooked []
              Examples.jan1 [] [] (Examples.member 1 "Ana") H1
              (not_elem_of_nil _) H3) as [_ H].
  exact (proj1 H).
Defined.


Lemma example_sixThreeDays_dates :
  dates Examples.sixThreeDays = [] ++ Examples.jan1 :: [Examples.jan2; Examples.jan3].
Proof. vm_compute. reflexivity. Defined.

(** C8 as stated fails.  Ana and Ben tie on every ranking key and Ana, with
    the lower id, is ranked first; she has an entry in [existingSchedules]
    on the date, so the day loop passes over her and assigns Ben: in the
    output of either library Ben's entry comes first, and Ana has no day
    shift. *)
Lemma lower_id_with_stored_entry_is_assigned_second :
  let input := Examples.anaBenTied in
  let ana := Examples.member 1 "Ana" in
  let ben := Examples.member 2 "Ben" in
  (tiedKeys input Examples.jan2 (stateBefore Enhanced input []) ana ben
   ∧ tiedKeys input Examples.jan2 (stateBefore Basic input []) ana ben)
  ∧ Staff.id ana < Staff.id ben
  ∧ dayPool input Examples.jan2 (stateBefore Enhanced input []) = [ana; ben]
  ∧ dayPool input Examples.jan2 (stateBefore Basic input []) = [ana; ben]
  ∧ (generateSchedule Enhanced input).1
    = [Examples.entry 2 Examples.jan2 (Id 1) 2; Examples.entry 1 Examples.jan2 (Id 2) 2]
  ∧ (generateSchedule Basic input).1
    = [Examples.entry 2 Examples.jan2 (Id 1) 2; Examples.entry 1 Examples.jan2 (Id 2) 2].
Proof.
  split_and!; try (vm_compute; reflexivity).
  - unfold tiedKeys. split_and!; try (vm_compute; reflexivity).
    + change (unavailableStaffIds Examples.anaBenTied Examples.jan2) with (@nil Z).
      split; intros H; by apply elem_of_nil in H.
    + intros Hne. exfalso. by apply Hne.
  - unfold tiedKeys. split_and!; try (vm_compute; reflexivity).
    + change (unavailableStaffIds Examples.anaBenTied Examples.jan2) with (@nil Z).
      split; intros H; by apply elem_of_nil in H.
    + intros Hne. exfalso. by apply Hne.
Qed.

(** Ana and Ben at the first date of the six-staff run: every key ties,
    neither has a stored entry, and Ana's day shift is entered before
    Ben's. *)
Lemma lower_id_ranked_first_witness :
  rosterKeyed (ScheduleInput.staff Examples.sixThreeDays)
  ∧ tiedKeys Examples.sixThreeDays Examples.jan1
      (stateBefore Enhanced Examples.sixThreeDays [])
      (Examples.member 1 "Ana") (Examples.member 2 "Ben")
  ∧ ∃ l1 l2 l3,
      schedules (state (dayPhase Enhanced Examples.sixThreeDays Examples.jan1
                          (dayPool Examples.sixThreeDays Examples.jan1
                             (stateBefore Enhanced Examples.sixThreeDays []))
                          (stateBefore Enhanced Examples.sixThreeDays [])))
      = schedules (stateBefore Enhanced Examples.sixThreeDays [])
        ++ l1 ++ dayEntry Examples.sixThreeDays Examples.jan1 (Examples.member 1 "Ana")
        :: l2 ++ dayEntry Examples.sixThreeDays Examples.jan1 (Examples.member 2 "Ben")
        :: l3.
Proof.
  assert (tiedKeys Examples.sixThreeDays Examples.jan1
            (stateBefore Enhanced Examples.sixThreeDays [])
            (Examples.member 1 "Ana") (Examples.member 2 "Ben")) as Htied.
  { unfold tiedKeys. split_and!; try (vm_compute; reflexivity).
    - change (unavailableStaffIds Examples.sixThreeDays Examples.jan1) with (@nil Z).
      split; intros H; by apply elem_of_nil in H.
    - intros Hne. exfalso. by apply Hne. }
  split_and!; [exact example_six_keyed|exact Htied|].
  destruct (lower_id_ranked_first Enhanced Examples.sixThreeDays []
              [Examples.jan2; Examples.jan3] Examples.jan1
              (Examples.member 1 "Ana") (Examples.member 2 "Ben") 0%nat 1%nat
              example_six_keyed example_sixThreeDays_dates (not_elem_of_nil _) Htied)
    as (_ & _ & H).
  - reflexivity.
  - vm_compute. reflexivity.
  - vm_compute. reflexivity.
  - apply H; [reflexivity|].
    refine (bool_decide_unpack _ _). vm_compute. exact I.
Defined.


(** In a process whose zone is America/New_York the day after "2024-03-10"
    is "2024-03-10" again: for a candidate on 2024-03-09 of a member who
    works on 2024-03-10, the forward loop of the basic detector does not
    end, however many turns it is given. *)
Lemma basic_detector_loop_without_end_in_new_york (fuel : nat) :
  getNextDay (zone := Examples.newYork) Examples.mar10 = Examples.mar10
  ∧ consecutiveAround (zone := Examples.newYork) Examples.candidateInMarch
      [(6%positive, Examples.bookedInMarch)] fuel = None.
Proof.
  assert (getNextDay (zone := Examples.newYork) Examples.mar10 = Examples.mar10) as Hnext
    by (vm_compute; reflexivity).
  split; [exact Hnext|].
  assert (runLength Examples.candidateInMarch [(6%positive, Examples.bookedInMarch)] fuel
            (getNextDay (zone := Examples.newYork)) Examples.mar10 = None) as Hloop.
  { induction fuel as [|fuel IH]; [done|].
    cbn [runLength].
    replace (worksOn Examples.candidateInMarch [(6%positive, Examples.bookedInMarch)]
               Examples.mar10) with true by (vm_compute; reflexivity).
    rewrite Hnext, IH. reflexivity. }
  unfold consecutiveAround.
  replace (getNextDay (zone := Examples.newYork)
             (Schedule.date Examples.candidateInMarch))
    with Examples.mar10 by (vm_compute; reflexivity).
  rewrite Hloop. clear Hloop. destruct (runLength _ _ _ _ _); reflexivity.
Qed.



(** C10 as stated fails for the enhanced suggester: Ben is recorded as away
    on the requested date and is suggested. *)
Lemma suggest_enhanced_returns_unavailable_staff :
  suggestEnhanced 1 Examples.jan2 (Id 1)
    [Examples.member 1 "Ana"; Examples.member 2 "Ben"] []
    [Availability.mk 2 Examples.jan2 false] None
  = [Examples.member 1 "Ana"; Examples.member 2 "Ben"].
Proof. vm_compute. reflexivity. Qed.

(** The basic suggester, asked to replace Ana on 2024-01-02 with Ben away:
    Cora, who is suggested, is recorded as available. *)
Lemma suggest_excludes_unavailable_staff_witness :
  suggestBasic 1 Examples.jan2 (Id 1)
    [Examples.member 1 "Ana"; Examples.member 2 "Ben"; Examples.member 3 "Cora"] []
    [Availability.mk 2 Examples.jan2 false; Availability.mk 3 Examples.jan2 true] None
  = [Examples.member 3 "Cora"]
  ∧ Availability.isAvailable (Availability.mk 3 Examples.jan2 true) = true.
Proof.
  assert (suggestBasic 1 Examples.jan2 (Id 1)
            [Examples.member 1 "Ana"; Examples.member 2 "Ben"; Examples.member 3 "Cora"] []
            [Availability.mk 2 Examples.jan2 false; Availability.mk 3 Examples.jan2 true]
            None
          = [Examples.member 3 "Cora"]) as Hout by (vm_compute; reflexivity).
  split; [exact Hout|].
  apply (proj1 suggest_excludes_unavailable_staff 1 Examples.jan2 (Id 1)
           [Examples.member 1 "Ana"; Examples.member 2 "Ben"; Examples.member 3 "Cora"] []
           [Availability.mk 2 Examples.jan2 false; Availability.mk 3 Examples.jan2 true]
           None (Examples.member 3 "Cora") (Availability.mk 3 Examples.jan2 true)).
  - rewrite Hout. by left.
  - right. by left.
  - reflexivity.
  - reflexivity.
Defined.

(** ** Runs for the further properties *)

(** Finn's post-duty entry of 2024-01-01 in the basic library. *)
Lemma generated_entry_shape_witness :
  (generateSchedule Basic Examples.sixThreeDays).1 !! 5%nat
  = Some (Examples.entry 6 Examples.jan1 Null 3)
  ∧ Schedule.id (Examples.entry 6 Examples.jan1 Null 3) = None
  ∧ Examples.jan1 ≤ Schedule.date (Examples.entry 6 Examples.jan1 Null 3) ≤ Examples.jan3.
Proof.
  assert ((generateSchedule Basic Examples.sixThreeDays).1 !! 5%nat
          = Some (Examples.entry 6 Examples.jan1 Null 3)) as Hlookup
    by (vm_compute; reflexivity).
  split; [exact Hlookup|].
  destruct (generated_entry_shape Basic Examples.sixThreeDays
              (Examples.entry 6 Examples.jan1 Null 3)
              (list_elem_of_lookup_2 _ _ _ Hlookup)) as (H1 & _ & H3 & _).
  exact (conj H1 H3).
Defined.

(** Ana, alone and booked on 2024-01-01: the error of the day loop. *)
Lemma generated_conflict_shape_witness :
  (generateSchedule Enhanced Examples.anaAloneBooked).2 !! 0%nat
  = Some (Conflict.mk EXISTING_ASSIGNMENT 1 Examples.jan1
            (MsgAlreadyHasAssignmentOn Examples.jan1) Error "Ana Reyes")
  ∧ Examples.jan1 ≤ Examples.jan1 ≤ Examples.jan3.
Proof.
  assert ((generateSchedule Enhanced Examples.anaAloneBooked).2 !! 0%nat
          = Some (Conflict.mk EXISTING_ASSIGNMENT 1 Examples.jan1
                    (MsgAlreadyHasAssignmentOn Examples.jan1) Error "Ana Reyes"))
    as Hlookup by (vm_compute; reflexivity).
  split; [exact Hlookup|].
  exact (proj1 (generated_conflict_shape Enhanced Examples.anaAloneBooked _
                  (list_elem_of_lookup_2 _ _ _ Hlookup))).
Defined.

(** Six staff and a range that ends before it starts. *)
Lemma nothing_generated_without_staff_or_dates_witness :
  generateSchedule Enhanced
    (ScheduleInput.mk Examples.six Examples.shifts Examples.duties []
       Examples.jan3 Examples.jan1 "" [])
  = ([], []).
Proof.
  apply nothing_generated_without_staff_or_dates. right. simpl. reflexivity.
Defined.

Lemma example_anaBooked_dates :
  dates Examples.anaBooked = [] ++ Examples.jan1 :: [Examples.jan2; Examples.jan3].
Proof. vm_compute. reflexivity. Defined.

(** Six staff, Ana booked on 2024-01-01: the day shift of that date goes
    to Ben and Cora. *)
Lemma day_shift_goes_to_first_unbooked_witness :
  rosterKeyed (ScheduleInput.staff Examples.anaBooked)
  ∧ schedules (state (dayPhase Enhanced Examples.anaBooked Examples.jan1
                        (dayPool Examples.anaBooked Examples.jan1
                           (stateBefore Enhanced Examples.anaBooked []))
                        (stateBefore Enhanced Examples.anaBooked [])))
    = [Examples.entry 2 Examples.jan1 (Id 1) 2; Examples.entry 3 Examples.jan1 (Id 1) 2].
Proof.
  split; [exact example_six_keyed|].
  destruct (day_shift_goes_to_first_unbooked Enhanced Examples.anaBooked []
              [Examples.jan2; Examples.jan3] Examples.jan1 example_six_keyed
              example_anaBooked_dates (not_elem_of_nil _)) as (H & _).
  rewrite H. vm_compute. reflexivity.
Defined.

(** The evening loop at the start of the six-staff run. *)
Lemma evening_and_night_shift_takers_witness :
  NoDup (Staff.id <$> Examples.six)
  ∧ schedules (state (eveningPhase Enhanced Examples.sixThreeDays Examples.jan1
                        Examples.six (stateBefore Enhanced Examples.sixThreeDays [])))
    = [Examples.entry 1 Examples.jan1 (Id 2) 2; Examples.entry 2 Examples.jan1 (Id 2) 2;
       Examples.entry 3 Examples.jan1 (Id 2) 2].
Proof.
  split; [exact example_six_keyed|].
  destruct (evening_and_night_shift_takers Enhanced Examples.sixThreeDays Examples.jan1
              Examples.six (stateBefore Enhanced Examples.sixThreeDays [])
              example_six_keyed) as (H & _).
  rewrite H. vm_compute. reflexivity.
Defined.

(** Six staff, nobody booked: Ana and Ben get the day shift of 2024-01-01
    and the other four are left for the evening. *)
Lemma working_shifts_without_bookings_witness :
  rosterKeyed (ScheduleInput.staff Examples.sixThreeDays)
  ∧ unassigned
      (state (dayPhase Enhanced Examples.sixThreeDays Examples.jan1
                (dayPool Examples.sixThreeDays Examples.jan1
                   (stateBefore Enhanced Examples.sixThreeDays []))
                (stateBefore Enhanced Examples.sixThreeDays [])))
      (dayPool Examples.sixThreeDays Examples.jan1
         (stateBefore Enhanced Examples.sixThreeDays []))
    = [Examples.member 3 "Cora"; Examples.member 4 "Dan"; Examples.member 5 "Eva";
       Examples.member 6 "Finn"].
Proof.
  split; [exact example_six_keyed|].
  destruct (working_shifts_without_bookings Enhanced Examples.sixThreeDays []
              [Examples.jan2; Examples.jan3] Examples.jan1 example_six_keyed
              example_sixThreeDays_dates (not_elem_of_nil _) (λ s _, eq_refl))
    as (_ & H & _).
  rewrite H. vm_compute. reflexivity.
Defined.

(** The six members, none marked: three pre-duty and three post-duty
    entries. *)
Lemma basic_rest_entries_witness :
  NoDup (Staff.id <$> Examples.six)
  ∧ schedules (basicDuties Examples.sixThreeDays Examples.jan1 Examples.six
                 (stateBefore Basic Examples.sixThreeDays []))
    = [Examples.entry 1 Examples.jan1 Null 1; Examples.entry 2 Examples.jan1 Null 1;
       Examples.entry 3 Examples.jan1 Null 1; Examples.entry 4 Examples.jan1 Null 3;
       Examples.entry 5 Examples.jan1 Null 3; Examples.entry 6 Examples.jan1 Null 3].
Proof.
  split; [exact example_six_keyed|].
  destruct (basic_rest_entries Examples.sixThreeDays Examples.jan1 Examples.six
              (stateBefore Basic Examples.sixThreeDays []) example_six_keyed)
    as (_ & H & _).
  rewrite H. vm_compute. reflexivity.
Defined.

(** Eva on 2024-01-02 in the six-staff run of the basic library. *)
Lemma basic_exactly_one_entry_per_available_member_witness :
  rosterKeyed (ScheduleInput.staff Examples.sixThreeDays)
  ∧ ∃ e, e ∈ (generateSchedule Basic Examples.sixThreeDays).1
         ∧ Schedule.staffId e = 5 ∧ Schedule.date e = Examples.jan2.
Proof.
  split; [exact example_six_keyed|].
  destruct (basic_exactly_one_entry_per_available_member Examples.sixThreeDays
              0 Examples.jan2 (Examples.member 5 "Eva") utc_steady example_six_keyed)
    as (e & He & Hid & Hd & _).
  - vm_compute. split; discriminate.
  - do 4 right. by left.
  - vm_compute. apply not_elem_of_nil.
  - exists e. by split_and!.
Defined.

(** Finn, entered for post-duty on 2024-01-01. *)
Lemma basic_day_without_working_shift_is_rest_witness :
  rosterKeyed (ScheduleInput.staff Examples.sixThreeDays)
  ∧ restDays (getLoad (processDate Basic Examples.sixThreeDays Examples.jan1
                         (seedState Basic Examples.sixThreeDays)) 6)
    = restDays (getLoad (seedState Basic Examples.sixThreeDays) 6) + 1.
Proof.
  split; [exact example_six_keyed|].
  destruct (basic_day_without_working_shift_is_rest Examples.sixThreeDays Examples.jan1
              (seedState Basic Examples.sixThreeDays) (Examples.member 6 "Finn")
              example_six_keyed) as (_ & H & _).
  - do 5 right. by left.
  - refine (bool_decide_unpack _ _). vm_compute. exact I.
  - exact H.
Defined.

(** Ana's day shift of 2024-01-01 (a Monday; the week starts on Sunday
    2023-12-31). *)
Lemma bookkeeping_from_existing_schedules_witness :
  1 ∈ Staff.id <$> ScheduleInput.staff Examples.anaAloneBooked
  ∧ getWeekly (seedState Enhanced Examples.anaAloneBooked) 19722 1 = 1
  ∧ consecutiveShifts (getLoad (seedState Enhanced Examples.anaAloneBooked) 1) = 0.
Proof.
  assert (1 ∈ Staff.id <$> ScheduleInput.staff Examples.anaAloneBooked) as Hin
    by by left.
  split; [exact Hin|].
  destruct (bookkeeping_from_existing_schedules Enhanced Examples.anaAloneBooked 1 19722
              Hin) as (H1 & _ & _ & H4 & _).
  split; [|exact H4]. rewrite H1. vm_compute. reflexivity.
Defined.

(** Ana has entries from 2024-01-01 to 2024-01-06: a candidate of hers
    for any date gets the warning. *)
Lemma enhanced_consecutive_warning_means_six_in_a_row_witness :
  findStaff Examples.candidate [Examples.member 1 "Ana"] = Some (Examples.member 1 "Ana")
  ∧ detectRecord Examples.candidate CONSECUTIVE_SHIFTS
      (MsgExceedsConsecutive MAX_CONSECUTIVE_SHIFTS) Warning (Examples.member 1 "Ana")
    ∈ detectEnhanced Examples.candidate sixInARow [Examples.member 1 "Ana"].
Proof.
  assert (findStaff Examples.candidate [Examples.member 1 "Ana"]
          = Some (Examples.member 1 "Ana")) as Hm by reflexivity.
  split; [exact Hm|].
  apply (enhanced_consecutive_warning_means_six_in_a_row Examples.candidate sixInARow
           [Examples.member 1 "Ana"] (Examples.member 1 "Ana") Hm).
  - apply NoDup_ListNoDup. vm_compute. repeat constructor; simpl; intuition discriminate.
  - exists (Examples.jan1 + 5). intros k Hk.
    assert (k = 0 ∨ k = 1 ∨ k = 2 ∨ k = 3 ∨ k = 4 ∨ k = 5) as Hcases by lia.
    apply list_elem_of_In.
    destruct Hcases as [Hk'|[Hk'|[Hk'|[Hk'|[Hk'|Hk']]]]]; subst k; vm_compute; tauto.
Defined.

(** Editing Ana's stored day shift of 2024-01-01. *)
Lemma editor_reports_stored_entry_of_same_day_witness :
  ∃ conflicts alternatives,
    checkConflicts [Examples.member 1 "Ana"] [(6%positive, Examples.booked)]
                   (formOf Examples.booked) = Some (conflicts, alternatives)
    ∧ Conflict.mk EXISTING_ASSIGNMENT 1 Examples.jan1
        (MsgAlreadyHasAssignmentOn Examples.jan1) Error "Ana Reyes" ∈ conflicts
    ∧ ∀ s, s ∈ alternatives →
           s ∈ [Examples.member 1 "Ana"]
           ∧ Staff.id s ≠ 1
           ∧ hasShiftConflict (Staff.id s) Examples.jan1 [Examples.booked] = false.
Proof.
  apply (editor_reports_stored_entry_of_same_day [Examples.member 1 "Ana"]
           [(6%positive, Examples.booked)] (formOf Examples.booked) Examples.booked
           (Examples.member 1 "Ana") 2).
  - by left.
  - discriminate.
  - reflexivity.
  - reflexivity.
  - discriminate.
  - reflexivity.
  - reflexivity.
  - discriminate.
Defined.

(** In a process whose zone is UTC, 2024-01-03, a Wednesday, is filed under
    Sunday 2023-12-31. *)
Lemma week_key_is_sunday_or_monday_on_or_before_witness :
  steady 0 ∧ getWeekKey Examples.jan3 = 19722.
Proof.
  split; [exact utc_steady|].
  destruct (week_key_is_sunday_or_monday_on_or_before 0 Examples.jan3 19722 utc_steady)
    as [H _].
  apply H; [lia|]. split; [reflexivity|]. unfold Examples.jan3. lia.
Defined.

(** In a process whose zone is America/New_York, 2024-01-07, a Sunday, is
    filed under Monday 2024-01-01. *)
Lemma week_key_in_new_york :
  getWeekKey (zone := Examples.newYork) (Examples.jan1 + 6) = Examples.jan1.
Proof. vm_compute. reflexivity. Qed.

(** The night shift. *)
Lemma duration_is_whole_hours_until_end_witness :
  calculateDuration "23:00" "07:00" = Some 8.
Proof.
  apply (duration_is_whole_hours_until_end "23:00" "07:00" 23 0 7 0);
    [reflexivity|reflexivity|lia..].
Defined.

(** Six staff, three days: the second day has a pre-duty entry, the last
    day has none. *)
Lemma enhanced_one_pre_duty_and_one_post_duty_at_most_witness :
  (length (entriesOn Examples.jan2 (preDutyId Examples.sixThreeDays)
             (generateSchedule Enhanced Examples.sixThreeDays).1) ≤ 1)%nat
  ∧ entriesOn Examples.jan3 (preDutyId Examples.sixThreeDays)
      (generateSchedule Enhanced Examples.sixThreeDays).1 = [].
Proof.
  split.
  - apply (enhanced_one_pre_duty_and_one_post_duty_at_most Examples.sixThreeDays
             0 Examples.jan2 utc_steady); vm_compute; discriminate.
  - apply (enhanced_one_pre_duty_and_one_post_duty_at_most Examples.sixThreeDays
             0 Examples.jan3 utc_steady); vm_compute; discriminate.
Defined.

(** Ana's candidate for 2024-01-02, with her day shift of 2024-01-01 in the
    list: the loops end, and the count is the length of an interval around
    the candidate's date that cannot be extended. *)
Lemma basic_consecutive_count_is_longest_run_witness :
  steady 0
  ∧ ∃ n a b,
      consecutiveAround Examples.candidate [(6%positive, Examples.booked)] 2 = Some n
      ∧ a ≤ Examples.jan2 ≤ b ∧ n = b - a + 1
      ∧ worksOn Examples.candidate [(6%positive, Examples.booked)] (a - 1) = false
      ∧ worksOn Examples.candidate [(6%positive, Examples.booked)] (b + 1) = false.
Proof.
  split; [exact utc_steady|].
  destruct (basic_consecutive_count_is_longest_run 1%positive Examples.candidate
              [(6%positive, Examples.booked)] [Examples.member 1 "Ana"] [] Examples.shifts
              0 2 utc_steady) as (n & Hn & (a & b & Hab & Hlen & _ & Ha & Hb) & _);
    [simpl; lia|].
  exists n, a, b. exact (conj Hn (conj Hab (conj Hlen (conj Ha Hb)))).
Defined.

(** The two conflicts the basic detector reports for Ana's candidate. *)
Lemma conflicts_concern_the_candidate_once_per_type_witness :
  NoDup (Conflict.type <$>
           [Conflict.mk UNAVAILABLE_STAFF 1 Examples.jan2 MsgUnavailable Error "Ana Reyes";
            Conflict.mk REST_PERIOD_VIOLATION 1 Examples.jan2 MsgRestDayNight Error
              "Ana Reyes"]).
Proof.
  apply (proj1 (conflicts_concern_the_candidate_once_per_type Basic 2 1%positive
                  (Examples.argsOf Examples.candidate))).
  vm_compute. reflexivity.
Defined.
